(** * mongodbforms/documents.py: forms over document schemas

    A shallow embedding of [mongodbforms/documents.py] and the properties
    of its form options, form metaclass, document forms, embedded forms
    and formsets.

    Python objects that the module mutates in place (the document
    instance, the form, the parent document) are passed explicitly and
    handed back, also when an exception is raised: what was assigned
    before a [raise] stays assigned.  The persistence layer and the blob
    store are collaborators outside the module: the calls made to them are
    recorded in a trace, and their contents are what the queries read. *)

From Stdlib Require Import ZArith String Ascii List Bool Lia DecimalNat DecimalString Finite.
From stdpp Require Import base option list strings gmap fin_maps.

Local Open Scope string_scope.
Local Open Scope list_scope.

(** ** Python values *)

(** An uploaded file, as the form layer hands it over in [cleaned_data]:
    [upload.name], [upload.content_type] and the bytes of [upload.file]. *)
Record upload := Upload {
  up_name : string;
  up_content_type : string;
  up_data : string
}.

(** The values that document attributes and cleaned data hold.
    [VGridFS] is the blob proxy a file field yields; its argument is the
    [grid_id] of the stored blob, if any. *)
#[warnings="-register-all"]
Inductive value :=
| VNone
| VBool (b : bool)
| VInt (z : Z)
| VStr (s : string)
| VList (l : list value)
| VUpload (u : upload)
| VGridFS (grid_id : option nat).

Definition upload_eqb (a b : upload) : bool :=
  String.eqb (up_name a) (up_name b)
  && String.eqb (up_content_type a) (up_content_type b)
  && String.eqb (up_data a) (up_data b).

(** Python's [==] on these values; [True == 1] and [False == 0] hold in
    Python, every other pair of distinct kinds is unequal. *)
Fixpoint py_eq (a b : value) {struct a} : bool :=
  match a, b with
  | VNone, VNone => true
  | VBool x, VBool y => Bool.eqb x y
  | VBool x, VInt y => Z.eqb (Z.b2z x) y
  | VInt x, VBool y => Z.eqb x (Z.b2z y)
  | VInt x, VInt y => Z.eqb x y
  | VStr x, VStr y => String.eqb x y
  | VList xs, VList ys =>
      (fix all2 (xs ys : list value) {struct xs} : bool :=
         match xs, ys with
         | [], [] => true
         | x :: xs', y :: ys' => py_eq x y && all2 xs' ys'
         | _, _ => false
         end) xs ys
  | VUpload x, VUpload y => upload_eqb x y
  | VGridFS x, VGridFS y =>
      match x, y with
      | Some i, Some j => Nat.eqb i j
      | None, None => true
      | _, _ => false
      end
  | _, _ => false
  end.

(** Truth value of a Python object in a condition. *)
Definition py_truthy (v : value) : bool :=
  match v with
  | VNone => false
  | VBool b => b
  | VInt z => negb (Z.eqb z 0)
  | VStr s => negb (String.eqb s "")
  | VList l => match l with [] => false | _ => true end
  | VUpload _ => true
  | VGridFS _ => true
  end.

(** [django.core.validators.EMPTY_VALUES] is [(None, '', [], (), {})];
    the empty tuple and the empty dict have no counterpart in [value]. *)
Definition EMPTY_VALUES : list value := [VNone; VStr ""; VList []].

(** [x in seq] on values. *)
Definition value_in (v : value) (seq : list value) : bool :=
  existsb (py_eq v) seq.

(** [name in names] on strings. *)
Definition str_in (s : string) (l : list string) : bool :=
  existsb (String.eqb s) l.

(** ** Exceptions and outcomes *)

Inductive exn :=
| ValueError (msg : string)
| AttributeError
| KeyError
| TypeError (msg : string)
| FieldError (msg : string)
| ValidationError (messages : list string).

Inductive outcome (A : Type) :=
| Ok (a : A)
| Raise (e : exn).
Arguments Ok {A} a.
Arguments Raise {A} e.

Definition is_raise {A} (o : outcome A) : bool :=
  match o with Ok _ => false | Raise _ => true end.

(** ** The document schema *)

(** The field classes the module tells apart by [isinstance]. *)
Inductive field_kind := ObjectIdField | ListField | FileField | OtherField.

(** A schema field descriptor: [f.name], its class, [f.required],
    [f.unique] and [f.validate(value)], which raises a validation error
    with a message ([Some msg]) or returns ([None]). *)
Record schema_field := SchemaField {
  name : string;
  kind : field_kind;
  required : bool;
  unique : bool;
  validate : value -> option string
}.

Definition is_ObjectIdField (f : schema_field) : bool :=
  match kind f with ObjectIdField => true | _ => false end.
Definition is_ListField (f : schema_field) : bool :=
  match kind f with ListField => true | _ => false end.
Definition is_FileField (f : schema_field) : bool :=
  match kind f with FileField => true | _ => false end.

(** A document class.  [cls_fields] is [_fields] in the order
    [itervalues()] yields it.  [cls_id_field] is [_meta['id_field']]:
    embedded documents have none and reading [pk] raises [KeyError].
    [cls_has_save], [cls_has_delete] and [cls_has_objects] say whether
    instances have [save], [delete] and the class an [objects] manager.
    [cls_clean] is the whole-instance [clean] hook, if the class defines
    one: it raises a validation error carrying messages or returns.
    [cls_meta_is_dict] is true while [_meta] is still a plain dict. *)
Record doc_class := DocClass {
  cls_name : string;
  cls_metaclass_name : string;
  cls_verbose_name : string;
  cls_fields : list schema_field;
  cls_defaults : gmap string value;
  cls_id_field : option string;
  cls_has_save : bool;
  cls_has_delete : bool;
  cls_has_objects : bool;
  cls_tracks_changes : bool;
  cls_clean : option (gmap string value -> option (list string));
  cls_meta_is_dict : bool
}.

(** A document instance: its class, its own [_fields] (which
    [save_instance] swaps for the duration of a save), its attribute
    values and [_changed_fields] when the instance has that attribute. *)
Record doc := Doc {
  d_class : doc_class;
  d_fields : list schema_field;
  d_data : gmap string value;
  d_changed_fields : option (list string)
}.

(** [instance()] on a document class. *)
Definition instantiate (c : doc_class) : doc :=
  {| d_class := c;
     d_fields := cls_fields c;
     d_data := cls_defaults c;
     d_changed_fields := if cls_tracks_changes c then Some [] else None |}.

(** [getattr(instance, name)] for a schema field: the mapping layer's
    descriptor yields the stored value, [None] when nothing is stored. *)
Definition getattr (d : doc) (n : string) : value :=
  default VNone (d_data d !! n).

(** [setattr(instance, name, v)]: the descriptor stores the value and
    marks the field as changed on instances that track changes. *)
Definition mark_changed (n : string) (c : option (list string)) : option (list string) :=
  match c with
  | Some l => Some (if str_in n l then l else l ++ [n])
  | None => None
  end.

Definition setattr (d : doc) (n : string) (v : value) : doc :=
  {| d_class := d_class d;
     d_fields := d_fields d;
     d_data := <[n := v]> (d_data d);
     d_changed_fields := mark_changed n (d_changed_fields d) |}.

(** What a form holds in [self.instance]: the document class itself until
    an instance is constructed ([self.instance = opts.document]), or an
    instance. *)
Inductive instance_ref :=
| IClass (c : doc_class)
| IObj (d : doc).

Definition ref_class (r : instance_ref) : doc_class :=
  match r with IClass c => c | IObj d => d_class d end.

(** [instance._fields], which classes and instances both have. *)
Definition ref_fields (r : instance_ref) : list schema_field :=
  match r with IClass c => cls_fields c | IObj d => d_fields d end.

(** [instance.__class__.__name__]. *)
Definition ref_class_name (r : instance_ref) : string :=
  match r with IClass c => cls_metaclass_name c | IObj d => cls_name (d_class d) end.

(** [instance.pk]: on an instance the value of the identity field, or
    [KeyError] when the class has none; on a class the property object,
    which is not [None]. *)
Inductive pk_result :=
| PkValue (v : value)
| PkProperty
| PkKeyError.

Definition ref_pk (r : instance_ref) : pk_result :=
  match r with
  | IClass _ => PkProperty
  | IObj d =>
      match cls_id_field (d_class d) with
      | Some idf => PkValue (getattr d idf)
      | None => PkKeyError
      end
  end.

(** ** The blob store and the trace of persistence calls *)

Record grid_file := GridFile {
  gf_id : nat;
  gf_filename : string;
  gf_content_type : string;
  gf_data : string
}.

(** [fs.exists(filename=name)]. *)
Definition fs_exists (fs : list grid_file) (n : string) : bool :=
  existsb (fun g => String.eqb (gf_filename g) n) fs.

(** [fs.delete(grid_id)]. *)
Definition fs_delete (fs : list grid_file) (grid_id : option nat) : list grid_file :=
  match grid_id with
  | Some i => List.filter (fun g => negb (Nat.eqb (gf_id g) i)) fs
  | None => fs
  end.

(** [fs.put(upload, content_type=..., filename=...)]: stores the blob
    under an identifier not in use and returns it. *)
Definition fs_put (fs : list grid_file) (u : upload) (content_type filename : string)
  : nat * list grid_file :=
  let i := S (fold_right Nat.max 0 (map gf_id fs)) in
  (i, fs ++ [GridFile i filename content_type (up_data u)]).

(** [field.replace(upload, content_type=..., filename=...)] on a blob
    proxy: the old blob is deleted and the new one put. *)
Definition proxy_replace (fs : list grid_file) (grid_id : option nat) (u : upload)
    (content_type filename : string) : value * list grid_file :=
  let '(i, fs') := fs_put (fs_delete fs grid_id) u content_type filename in
  (VGridFS (Some i), fs').

(** The attribute of a parent document that holds embedded instances. *)
Inductive pvalue :=
| PList (l : list instance_ref)
| POther (v : value).

Record parent_document := ParentDocument {
  pd_class_name : string;
  pd_attrs : gmap string pvalue
}.

(** A record of the document collection, as queries see it. *)
Record stored_doc := StoredDoc {
  sd_class : string;
  sd_pk : value;
  sd_data : gmap string value
}.

(** Calls to the persistence layer, in the order they are made. *)
Inductive event :=
| EvSave (d : doc)
| EvDelete (d : doc)
| EvSaveParent (p : parent_document).

Record world := World {
  w_docs : list stored_doc;
  w_fs : list grid_file;
  w_log : list event
}.

Definition set_fs (w : world) (fs : list grid_file) : world :=
  {| w_docs := w_docs w; w_fs := fs; w_log := w_log w |}.

Definition log_event (w : world) (e : event) : world :=
  {| w_docs := w_docs w; w_fs := w_fs w; w_log := w_log w ++ [e] |}.

Definition is_save (e : event) : bool :=
  match e with EvSave _ => true | _ => false end.
Definition is_parent_save (e : event) : bool :=
  match e with EvSaveParent _ => true | _ => false end.

(** Number of persistence calls of one kind in a trace. *)
Definition count_events (p : event -> bool) (l : list event) : nat :=
  length (List.filter p l).

(** ** [_get_unique_filename] *)

(** [s.rfind(c)], [-1] when [c] does not occur. *)
Fixpoint rfind_from (c : ascii) (s : string) (i acc : Z) : Z :=
  match s with
  | EmptyString => acc
  | String a r => rfind_from c r (i + 1)%Z (if Ascii.eqb a c then i else acc)
  end.

Definition rfind (c : ascii) (s : string) : Z := rfind_from c s 0%Z (-1)%Z.

Fixpoint any_char (p : ascii -> bool) (s : string) : bool :=
  match s with
  | EmptyString => false
  | String a r => p a || any_char p r
  end.

(** [os.path.splitext] for POSIX paths: the extension starts at the last
    dot of the last path component, unless that component has only
    leading dots before it. *)
Definition splitext (p : string) : string * string :=
  let sepIndex := rfind "/" p in
  let dotIndex := rfind "." p in
  if (sepIndex <? dotIndex)%Z
     && any_char (fun a => negb (Ascii.eqb a "."))
          (substring (Z.to_nat (sepIndex + 1)) (Z.to_nat (dotIndex - sepIndex - 1)) p)
  then (substring 0 (Z.to_nat dotIndex) p,
        substring (Z.to_nat dotIndex) (String.length p - Z.to_nat dotIndex) p)
  else (p, "").

(** ["%s" % n] for a counter. *)
Definition str_of_nat (n : nat) : string := NilEmpty.string_of_uint (Nat.to_uint n).

(** ["%s_%s%s" % (file_root, n, file_ext)]. *)
Definition suffixed (file_root : string) (n : nat) (file_ext : string) : string :=
  file_root +:+ "_" +:+ str_of_nat n +:+ file_ext.

(** The [while fs.exists(filename=name)] loop; [count] is the next value
    of [itertools.count(1)].  [fuel] bounds the number of renamings;
    [_get_unique_filename_fresh] below shows the bound is never what stops
    the loop. *)
Fixpoint unique_loop (fuel : nat) (fs : list grid_file) (file_root file_ext : string)
    (count : nat) (n : string) : string :=
  if fs_exists fs n then
    match fuel with
    | O => n
    | S k => unique_loop k fs file_root file_ext (S count) (suffixed file_root count file_ext)
    end
  else n.

Definition _get_unique_filename (fs : list grid_file) (n : string) : string :=
  let '(file_root, file_ext) := splitext n in
  unique_loop (S (length fs)) fs file_root file_ext 1 n.

(** ** [construct_instance] *)

(** [fields is not None and f.name not in fields]. *)
Definition not_listed (fields : option (list string)) (n : string) : bool :=
  match fields with
  | Some l => negb (str_in n l)
  | None => false
  end.

(** [exclude and f.name in exclude]; also [fields and ...]: an absent or
    empty list is false. *)
Definition truthy_list (l : option (list string)) : bool :=
  match l with
  | Some (_ :: _) => true
  | _ => false
  end.

Definition listed_in (l : option (list string)) (n : string) : bool :=
  truthy_list l && str_in n (default [] l).

(** [key in d] for a dict. *)
Definition has_key {V} (d : gmap string V) (k : string) : bool :=
  bool_decide (is_Some (d !! k)).

(** The first loop: assigns the cleaned values and sets the file fields
    aside. *)
Fixpoint assign_fields (fs : list schema_field) (cleaned_data : gmap string value)
    (fields exclude : option (list string)) (instance : doc)
    (file_field_list : list schema_field) : doc * list schema_field :=
  match fs with
  | [] => (instance, file_field_list)
  | f :: rest =>
      if is_ObjectIdField f then
        assign_fields rest cleaned_data fields exclude instance file_field_list
      else if negb (has_key cleaned_data (name f)) then
        assign_fields rest cleaned_data fields exclude instance file_field_list
      else if not_listed fields (name f) then
        assign_fields rest cleaned_data fields exclude instance file_field_list
      else if listed_in exclude (name f) then
        assign_fields rest cleaned_data fields exclude instance file_field_list
      else if is_FileField f then
        assign_fields rest cleaned_data fields exclude instance (file_field_list ++ [f])
      else
        assign_fields rest cleaned_data fields exclude
          (setattr instance (name f) (default VNone (cleaned_data !! name f)))
          file_field_list
  end.

(** [getattr(instance, f.name)] for a file field: the stored proxy, or a
    proxy without blob. *)
Definition getattr_proxy (d : doc) (n : string) : option nat :=
  match d_data d !! n with
  | Some (VGridFS g) => g
  | _ => None
  end.

(** The second loop: stores the deferred uploads.  [upload.name] raises
    [AttributeError] when the cleaned value is no upload. *)
Fixpoint store_files (ffl : list schema_field) (cleaned_data : gmap string value)
    (instance : doc) (w : world) : outcome unit * doc * world :=
  match ffl with
  | [] => (Ok tt, instance, w)
  | f :: rest =>
      match cleaned_data !! name f with
      | None => (Raise KeyError, instance, w)
      | Some (VUpload u) =>
          let field := getattr_proxy instance (name f) in
          let filename := _get_unique_filename (w_fs w) (up_name u) in
          let '(field', fs') :=
            proxy_replace (w_fs w) field u (up_content_type u) filename in
          store_files rest cleaned_data (setattr instance (name f) field') (set_fs w fs')
      | Some _ => (Raise AttributeError, instance, w)
      end
  end.

(** [construct_instance(form, instance, fields, exclude)]: only the
    form's [cleaned_data] is read.  The instance handed back is the
    object the function worked on, with what it had assigned so far when
    an exception is raised. *)
Definition construct_instance (cleaned_data : gmap string value) (instance : instance_ref)
    (fields exclude : option (list string)) (w : world) : outcome unit * doc * world :=
  let instance :=
    match instance with
    | IClass c => instantiate c
    | IObj d => d
    end in
  let '(instance, file_field_list) :=
    assign_fields (d_fields instance) cleaned_data fields exclude instance [] in
  store_files file_field_list cleaned_data instance w.

(** ** Form fields and [SortedDict] *)

(** A form field of the web-form layer, as far as this module looks at
    it: its class, the widget it was given and its [initial]. *)
Record formfield := FormField {
  ff_class : string;
  ff_widget : option string;
  ff_initial : value
}.

(** [SortedDict]: a dict that keeps its keys in the order they were first
    set, held as the list of its items in key order. *)
Fixpoint sd_set {V} (k : string) (v : V) (sd : list (string * V)) : list (string * V) :=
  match sd with
  | [] => [(k, v)]
  | (k', v') :: rest =>
      if String.eqb k k' then (k, v) :: rest else (k', v') :: sd_set k v rest
  end.

Fixpoint sd_get {V} (k : string) (sd : list (string * V)) : option V :=
  match sd with
  | [] => None
  | (k', v') :: rest => if String.eqb k k' then Some v' else sd_get k rest
  end.

Definition sd_keys {V} (sd : list (string * V)) : list string := map fst sd.

Definition sd_has {V} (k : string) (sd : list (string * V)) : bool :=
  str_in k (sd_keys sd).

(** [sd.update(other)]: each item of [other] is set in turn. *)
Definition sd_update {V} (sd other : list (string * V)) : list (string * V) :=
  fold_left (fun acc kv => sd_set (fst kv) (snd kv) acc) other sd.

(** [SortedDict(items)]: key order of first occurrence, value of the
    last. *)
Definition SortedDict {V} (items : list (string * V)) : list (string * V) :=
  sd_update [] items.

(** ** [ModelFormOptions] *)

(** The inner [Meta] block of a form class; an attribute the block does
    not define is [None]. *)
Record meta_block := MetaBlock {
  mb_document : option doc_class;
  mb_fields : option (list string);
  mb_exclude : option (list string);
  mb_widgets : option (gmap string string);
  mb_embedded_field_name : option string
}.

Record ModelFormOptions := Options {
  opt_document : option doc_class;
  opt_model : option doc_class;
  opt_fields : option (list string);
  opt_exclude : option (list string);
  opt_widgets : option (gmap string string);
  opt_embedded_field : option string
}.

(** Modelled from the spec: [AdminOptions] of [documentoptions.py], the
    structured metadata object that replaces, once and in place, a
    [_meta] that is still a dict.  Only the fact that the upgrade has
    happened is kept; [cls_verbose_name] is the [verbose_name] the
    upgraded metadata gives. *)
Definition upgrade_meta (c : doc_class) : doc_class :=
  {| cls_name := cls_name c;
     cls_metaclass_name := cls_metaclass_name c;
     cls_verbose_name := cls_verbose_name c;
     cls_fields := cls_fields c;
     cls_defaults := cls_defaults c;
     cls_id_field := cls_id_field c;
     cls_has_save := cls_has_save c;
     cls_has_delete := cls_has_delete c;
     cls_has_objects := cls_has_objects c;
     cls_tracks_changes := cls_tracks_changes c;
     cls_clean := cls_clean c;
     cls_meta_is_dict := false |}.

(** [ModelFormOptions.__init__(options)].  [getattr(options, a, None)]
    is [None] for a missing block and for a missing attribute alike.
    [self.model._meta] is read whatever [self.model] is, and [None] has no
    such attribute. *)
Definition ModelFormOptions_init (options : option meta_block) : outcome ModelFormOptions :=
  let document := options ≫= mb_document in
  match document with
  | None => Raise AttributeError
  | Some c =>
      let c := if cls_meta_is_dict c then upgrade_meta c else c in
      Ok {| opt_document := Some c;
            opt_model := Some c;
            opt_fields := options ≫= mb_fields;
            opt_exclude := options ≫= mb_exclude;
            opt_widgets := options ≫= mb_widgets;
            opt_embedded_field := options ≫= mb_embedded_field_name |}
  end.

(** ** [fields_for_document] *)

(** [formfield_callback]: any object may be passed; only a callable one
    can be applied, to the schema field and the [widget] keyword when
    there is one. *)
Inductive callback :=
| Callable (fn : schema_field -> option string -> option formfield)
| NotCallable.

(** The field generator's [generate(name, field)], a parameter of
    [fields_for_document] ([MongoFormFieldGenerator] of [util.py] by
    default); [None] means that no form field is made for the schema
    field. *)
Definition generator := string -> schema_field -> option formfield.

(** The loop over [document._fields]: [field_list] and [ignored] as they
    grow. *)
Fixpoint derive_fields (fs : list schema_field) (fields exclude : option (list string))
    (widgets : option (gmap string string)) (formfield_callback : option callback)
    (field_generator : generator)
    (field_list : list (string * formfield)) (ignored : list string)
  : outcome (list (string * formfield) * list string) :=
  match fs with
  | [] => Ok (field_list, ignored)
  | f :: rest =>
      if is_ObjectIdField f || is_ListField f then
        derive_fields rest fields exclude widgets formfield_callback field_generator
          field_list ignored
      else if not_listed fields (name f) then
        derive_fields rest fields exclude widgets formfield_callback field_generator
          field_list ignored
      else if listed_in exclude (name f) then
        derive_fields rest fields exclude widgets formfield_callback field_generator
          field_list ignored
      else
        let kwargs := widgets ≫= (fun ws => ws !! name f) in
        let formfield := field_generator (name f) f in
        match formfield_callback with
        | Some NotCallable =>
            Raise (TypeError "formfield_callback must be a function or callable")
        | _ =>
            let formfield :=
              match formfield_callback with
              | Some (Callable fn) => fn f kwargs
              | _ => formfield
              end in
            match formfield with
            | Some ff =>
                derive_fields rest fields exclude widgets formfield_callback field_generator
                  (field_list ++ [(name f, ff)]) ignored
            | None =>
                derive_fields rest fields exclude widgets formfield_callback field_generator
                  field_list (ignored ++ [name f])
            end
        end
  end.

(** The filter of the reordering comprehension:
    [((not exclude) or (exclude and f not in exclude)) and (f not in ignored)]. *)
Definition kept_in_order (exclude : option (list string)) (ignored : list string)
    (n : string) : bool :=
  (negb (truthy_list exclude)
   || (truthy_list exclude && negb (str_in n (default [] exclude))))
  && negb (str_in n ignored).

(** [fields_for_document(document, fields, exclude, widgets,
    formfield_callback, field_generator)].  The values of the result are
    form fields or [None] ([field_dict.get(f)] of a name without a derived
    field). *)
Definition fields_for_document (document : doc_class) (fields exclude : option (list string))
    (widgets : option (gmap string string)) (formfield_callback : option callback)
    (field_generator : generator) : outcome (list (string * option formfield)) :=
  match derive_fields (cls_fields document) fields exclude widgets formfield_callback
          field_generator [] [] with
  | Raise e => Raise e
  | Ok (field_list, ignored) =>
      let field_dict := SortedDict field_list in
      if truthy_list fields then
        Ok (SortedDict
              (map (fun f => (f, sd_get f field_dict))
                 (List.filter (kept_in_order exclude ignored) (default [] fields))))
      else
        Ok (map (fun kv => (fst kv, Some (snd kv))) field_dict)
  end.

(** ** [DocumentFormMetaclass.__new__] *)

(** What the metaclass leaves on the new class: [_meta],
    [declared_fields] and [base_fields]; the first and the last only when
    the class has a form class among its bases. *)
Record form_class := FormClass {
  fc_meta : option ModelFormOptions;
  fc_declared_fields : option (list (string * formfield));
  fc_base_fields : option (list (string * option formfield))
}.

(** [', '.join(names)]. *)
Fixpoint join (sep : string) (l : list string) : string :=
  match l with
  | [] => ""
  | [x] => x
  | x :: rest => x +:+ sep +:+ join sep rest
  end.

(** ['Unknown field(s) (%s) specified for %s']. *)
Definition unknown_fields_message (missing : list string) (model_name : string) : string :=
  "Unknown field(s) (" +:+ join ", " missing +:+ ") specified for " +:+ model_name.

(** [[k for k, v in fields.iteritems() if not v]]. *)
Definition none_document_fields (fields : list (string * option formfield)) : list string :=
  map fst (List.filter (fun kv => negb (bool_decide (is_Some (snd kv)))) fields).

(** [set(none_document_fields) - set(declared_fields.keys())], in the
    key order of [fields] (a Python set has no order of its own). *)
Definition missing_fields (fields : list (string * option formfield))
    (declared_fields : list (string * formfield)) : list string :=
  List.filter (fun k => negb (sd_has k declared_fields)) (none_document_fields fields).

(** [DocumentFormMetaclass.__new__]: [has_parents] says whether a base is
    a document form class; [meta] is the class's [Meta] block
    ([getattr(new_class, 'Meta', None)]); [declared_fields] is what
    [get_declared_fields] collected; [formfield_generator] is always the
    default generator, the options having no such attribute. *)
Definition DocumentFormMetaclass_new (has_parents : bool) (meta : option meta_block)
    (declared_fields : list (string * formfield)) (formfield_callback : option callback)
    (formfield_generator : generator) : outcome form_class :=
  if negb has_parents then
    Ok {| fc_meta := None; fc_declared_fields := None; fc_base_fields := None |}
  else
    match ModelFormOptions_init meta with
    | Raise e => Raise e
    | Ok opts =>
        match opt_document opts with
        | Some document =>
            match fields_for_document document (opt_fields opts) (opt_exclude opts)
                    (opt_widgets opts) formfield_callback formfield_generator with
            | Raise e => Raise e
            | Ok fields =>
                match missing_fields fields declared_fields with
                | (_ :: _) as missing =>
                    Raise (FieldError
                             (unknown_fields_message missing
                                (from_option cls_name "" (opt_model opts))))
                | [] =>
                    Ok {| fc_meta := Some opts;
                          fc_declared_fields := Some declared_fields;
                          fc_base_fields :=
                            Some (sd_update fields
                                    (map (fun kv => (fst kv, Some (snd kv))) declared_fields)) |}
                end
            end
        | None =>
            Ok {| fc_meta := Some opts;
                  fc_declared_fields := Some declared_fields;
                  fc_base_fields :=
                    Some (map (fun kv => (fst kv, Some (snd kv))) declared_fields) |}
        end
    end.

(** ** The document form *)

(** ['__all__'], the key of the errors that belong to no field. *)
Definition NON_FIELD_ERRORS : string := "__all__".

(** The state of a form object.  [f_errors] is [_errors] and
    [f_cleaned_data] is [cleaned_data], as field-level cleaning of the
    form layer left them; [f_delete_before_save] is present once
    [_post_clean] has set it; [f_has_changed] is what [has_changed()]
    answers.  The methods are modelled on a form whose field-level
    cleaning has run, so that reading [form.errors] starts no validation
    of its own. *)
Record form := Form {
  f_meta : ModelFormOptions;
  f_fields : list (string * option formfield);
  f_instance : instance_ref;
  f_is_bound : bool;
  f_initial : gmap string value;
  f_errors : gmap string (list string);
  f_cleaned_data : gmap string value;
  f_validate_unique : bool;
  f_delete_before_save : option (list string);
  f_has_changed : bool
}.

Definition with_instance (fm : form) (i : instance_ref) : form :=
  {| f_meta := f_meta fm; f_fields := f_fields fm; f_instance := i;
     f_is_bound := f_is_bound fm; f_initial := f_initial fm;
     f_errors := f_errors fm; f_cleaned_data := f_cleaned_data fm;
     f_validate_unique := f_validate_unique fm;
     f_delete_before_save := f_delete_before_save fm;
     f_has_changed := f_has_changed fm |}.

Definition with_errors (fm : form) (e : gmap string (list string))
    (c : gmap string value) : form :=
  {| f_meta := f_meta fm; f_fields := f_fields fm; f_instance := f_instance fm;
     f_is_bound := f_is_bound fm; f_initial := f_initial fm;
     f_errors := e; f_cleaned_data := c;
     f_validate_unique := f_validate_unique fm;
     f_delete_before_save := f_delete_before_save fm;
     f_has_changed := f_has_changed fm |}.

Definition with_delete_before_save (fm : form) (l : list string) : form :=
  {| f_meta := f_meta fm; f_fields := f_fields fm; f_instance := f_instance fm;
     f_is_bound := f_is_bound fm; f_initial := f_initial fm;
     f_errors := f_errors fm; f_cleaned_data := f_cleaned_data fm;
     f_validate_unique := f_validate_unique fm;
     f_delete_before_save := Some l;
     f_has_changed := f_has_changed fm |}.


(** [if form.errors]: a dict is true when it has a key. *)
Definition has_errors (fm : form) : bool :=
  negb (bool_decide (f_errors fm = ∅)).

(** [document_to_dict(instance, fields, exclude)]. *)
Fixpoint document_to_dict_loop (fs : list schema_field) (instance : doc)
    (fields exclude : option (list string)) (data : gmap string value) : gmap string value :=
  match fs with
  | [] => data
  | f :: rest =>
      if truthy_list fields && negb (str_in (name f) (default [] fields)) then
        document_to_dict_loop rest instance fields exclude data
      else if listed_in exclude (name f) then
        document_to_dict_loop rest instance fields exclude data
      else
        document_to_dict_loop rest instance fields exclude
          (<[name f := getattr instance (name f)]> data)
  end.

Definition document_to_dict (instance : doc) (fields exclude : option (list string))
  : gmap string value :=
  document_to_dict_loop (d_fields instance) instance fields exclude ∅.

(** [BaseDocumentForm.__init__] for a form class with options [opts] and
    base fields [base_fields].  [object_data.update(initial)] lets the
    given initial values win; the form layer's constructor keeps
    [object_data] as [self.initial], copies the base fields and has
    computed no errors yet. *)
Definition BaseDocumentForm_init (opts : ModelFormOptions)
    (base_fields : list (string * option formfield))
    (data : option (gmap string value)) (initial : option (gmap string value))
    (instance : option doc) : outcome form :=
  let built :=
    match instance with
    | None =>
        match opt_document opts with
        | None => Raise (ValueError "DocumentForm has no document class specified.")
        | Some c => Ok (IClass c, (∅ : gmap string value))
        end
    | Some d => Ok (IObj d, document_to_dict d (opt_fields opts) (opt_exclude opts))
    end in
  match built with
  | Raise e => Raise e
  | Ok (inst, object_data) =>
      let object_data :=
        match initial with
        | Some i => i ∪ object_data
        | None => object_data
        end in
      Ok {| f_meta := opts; f_fields := base_fields; f_instance := inst;
            f_is_bound := bool_decide (is_Some data); f_initial := object_data;
            f_errors := ∅; f_cleaned_data := ∅;
            f_validate_unique := false;
            f_delete_before_save := None;
            f_has_changed := false |}
  end.

(** The value an unbound form shows for a field: the form layer looks
    the name up in [self.initial] and falls back on the field's own
    [initial]. *)
Definition display_value (fm : form) (n : string) : value :=
  let field_initial :=
    match sd_get n (f_fields fm) with
    | Some (Some ff) => ff_initial ff
    | _ => VNone
    end in
  default field_initial (f_initial fm !! n).

(** [self._errors.setdefault(k, self.error_class()).extend(v)]. *)
Definition extend_errors (errors : gmap string (list string)) (k : string)
    (v : list string) : gmap string (list string) :=
  <[k := default [] (errors !! k) ++ v]> errors.

(** One round of the loop of [_update_errors]. *)
Definition merge_error (st : gmap string (list string) * gmap string value)
    (kv : string * list string) : gmap string (list string) * gmap string value :=
  if String.eqb (fst kv) NON_FIELD_ERRORS then st
  else (extend_errors (fst st) (fst kv) (snd kv), delete (fst kv) (snd st)).

(** [BaseDocumentForm._update_errors(message_dict)]. *)
Definition _update_errors (fm : form) (message_dict : gmap string (list string)) : form :=
  let '(errors, cleaned_data) :=
    fold_left merge_error (map_to_list message_dict) (f_errors fm, f_cleaned_data fm) in
  let errors :=
    match message_dict !! NON_FIELD_ERRORS with
    | Some messages => extend_errors errors NON_FIELD_ERRORS messages
    | None => errors
    end in
  with_errors fm errors cleaned_data.

(** The chain of conditions of [_get_validation_exclusions] for one
    schema field. *)
Definition excluded_field (fm : form) (f : schema_field) : bool :=
  let field := name f in
  if negb (sd_has field (f_fields fm)) then true
  else if truthy_list (opt_fields (f_meta fm))
          && negb (str_in field (default [] (opt_fields (f_meta fm)))) then true
  else if truthy_list (opt_exclude (f_meta fm))
          && str_in field (default [] (opt_exclude (f_meta fm))) then true
  else if has_key (f_errors fm) field then true
  else
    let field_value := default VNone (f_cleaned_data fm !! field) in
    negb (required f) && value_in field_value EMPTY_VALUES.

Fixpoint exclusions_loop (fs : list schema_field) (fm : form) (exclude : list string)
  : list string :=
  match fs with
  | [] => exclude
  | f :: rest =>
      exclusions_loop rest fm (if excluded_field fm f then exclude ++ [name f] else exclude)
  end.

(** [BaseDocumentForm._get_validation_exclusions()]. *)
Definition _get_validation_exclusions (fm : form) : list string :=
  exclusions_loop (ref_fields (f_instance fm)) fm [].


(** *** Uniqueness *)

Definition upper (a : ascii) : ascii :=
  let n := nat_of_ascii a in
  if (97 <=? n)%nat && (n <=? 122)%nat then ascii_of_nat (n - 32) else a.

Definition lower (a : ascii) : ascii :=
  let n := nat_of_ascii a in
  if (65 <=? n)%nat && (n <=? 90)%nat then ascii_of_nat (n + 32) else a.

Fixpoint map_chars (g : ascii -> ascii) (s : string) : string :=
  match s with
  | EmptyString => EmptyString
  | String a r => String (g a) (map_chars g r)
  end.

(** [capfirst] of the form layer, on ASCII text. *)
Definition capfirst (s : string) : string :=
  match s with
  | EmptyString => EmptyString
  | String a r => String (upper a) r
  end.

(** [pretty_name] of the form layer, on ASCII text:
    [name.replace('_', ' ').capitalize()]. *)
Definition pretty_name (s : string) : string :=
  match map_chars (fun a => if Ascii.eqb a "_" then " "%char else a) s with
  | EmptyString => EmptyString
  | String a r => String (upper a) (map_chars lower r)
  end.

(** ["%(model_name)s with this %(field_label)s already exists."]. *)
Definition unique_message (verbose_name field_name : string) : string :=
  capfirst verbose_name +:+ " with this " +:+ pretty_name field_name +:+ " already exists.".

(** [objects().filter(name=v)] on the collection of a class, then
    [filter(pk__ne=pk)] when the instance has an identity. *)
Definition query_same_value (w : world) (c : doc_class) (n : string) (v : value)
  : list stored_doc :=
  List.filter
    (fun r => String.eqb (sd_class r) (cls_name c)
              && py_eq (default VNone (sd_data r !! n)) v)
    (w_docs w).

Definition filter_pk_ne (qs : list stored_doc) (pk : value) : list stored_doc :=
  List.filter (fun r => negb (py_eq (sd_pk r) pk)) qs.

(** The loop of [validate_unique]; [errors] is the list of error dicts
    it returns.  The message reads [self.instance._meta.verbose_name],
    which a [_meta] that is still a dict does not have. *)
Fixpoint validate_unique_loop (fs : list schema_field) (exclude : list string)
    (fm : form) (w : world) (errors : list (gmap string (list string)))
  : outcome (list (gmap string (list string))) * form :=
  match fs with
  | [] => (Ok errors, fm)
  | f :: rest =>
      if unique f && negb (str_in (name f) exclude) then
        match f_instance fm with
        | IClass _ => (Raise AttributeError, fm)
        | IObj d =>
            if negb (cls_has_objects (d_class d)) then (Raise AttributeError, fm)
            else
              let qs := query_same_value w (d_class d) (name f) (getattr d (name f)) in
              match ref_pk (f_instance fm) with
              | PkKeyError => (Raise KeyError, fm)
              | PkProperty => (Raise AttributeError, fm)
              | PkValue pk =>
                  let qs := match pk with VNone => qs | _ => filter_pk_ne qs pk end in
                  if (0 <? length qs)%nat then
                    if cls_meta_is_dict (d_class d) then (Raise AttributeError, fm)
                    else
                      let message :=
                        unique_message (cls_verbose_name (d_class d)) (name f) in
                      let err_dict : gmap string (list string) :=
                        {[name f := [message]]} in
                      validate_unique_loop rest exclude (_update_errors fm err_dict) w
                        (errors ++ [err_dict])
                  else validate_unique_loop rest exclude fm w errors
              end
        end
      else validate_unique_loop rest exclude fm w errors
  end.

(** [BaseDocumentForm.validate_unique()]. *)
Definition validate_unique (fm : form) (w : world)
  : outcome (list (gmap string (list string))) * form :=
  let exclude := _get_validation_exclusions fm in
  validate_unique_loop (ref_fields (f_instance fm)) exclude fm w [].

(** *** [_post_clean] *)

(** The loop inside the [try] of [_post_clean].  A validator that raises
    ends the loop: the result carries [to_delete] as it stood and the
    field and message of the failure. *)
Fixpoint clean_fields_loop (fs : list schema_field) (instance : doc) (exclude : list string)
    (to_delete : list string) : list string * option (schema_field * string) :=
  match fs with
  | [] => (to_delete, None)
  | f :: rest =>
      let v := getattr instance (name f) in
      if negb (str_in (name f) exclude) then
        match validate f v with
        | Some message => (to_delete, Some (f, message))
        | None => clean_fields_loop rest instance exclude to_delete
        end
      else if py_eq v (VStr "") then
        clean_fields_loop rest instance exclude (to_delete ++ [name f])
      else clean_fields_loop rest instance exclude to_delete
  end.

(** The form after an exception inside a call that worked on
    [self.instance]: an instance was changed in place; a class was
    instantiated into an object the form does not hold. *)
Definition keep_alias (fm : form) (d : doc) : form :=
  match f_instance fm with
  | IObj _ => with_instance fm (IObj d)
  | IClass _ => fm
  end.

(** [BaseDocumentForm._post_clean()]. *)
Definition _post_clean (fm : form) (w : world) : outcome unit * form * world :=
  let opts := f_meta fm in
  let '(r, instance, w) :=
    construct_instance (f_cleaned_data fm) (f_instance fm)
      (opt_fields opts) (opt_exclude opts) w in
  match r with
  | Raise e => (Raise e, keep_alias fm instance, w)
  | Ok _ =>
      let fm := with_instance fm (IObj instance) in
      let exclude := _get_validation_exclusions fm in
      let '(to_delete, failure) := clean_fields_loop (d_fields instance) instance exclude [] in
      let fm :=
        match failure with
        | Some (f, message) => _update_errors fm {[name f := [message]]}
        | None => fm
        end in
      let fm := with_delete_before_save fm to_delete in
      let fm :=
        match cls_clean (d_class instance) with
        | Some hook =>
            match hook (d_data instance) with
            | Some messages => _update_errors fm {[NON_FIELD_ERRORS := messages]}
            | None => fm
            end
        | None => fm
        end in
      if f_validate_unique fm then
        let '(r, fm) := validate_unique fm w in
        (match r with Ok _ => Ok tt | Raise e => Raise e end, fm, w)
      else (Ok tt, fm, w)
  end.

(** *** [save_instance] and [save] *)

(** [l.remove(x)]: the first occurrence goes; [ValueError] when there
    is none. *)
Fixpoint list_remove (x : string) (l : list string) : option (list string) :=
  match l with
  | [] => None
  | y :: rest =>
      if String.eqb y x then Some rest
      else option_map (cons y) (list_remove x rest)
  end.

(** [for field in form._delete_before_save:
       instance._changed_fields.remove(field)]. *)
Fixpoint remove_changed (names : list string) (changed : list string)
  : outcome unit * list string :=
  match names with
  | [] => (Ok tt, changed)
  | n :: rest =>
      match list_remove n changed with
      | Some changed' => remove_changed rest changed'
      | None => (Raise (ValueError "list.remove(x): x not in list"), changed)
      end
  end.

Definition with_changed_fields (d : doc) (c : option (list string)) : doc :=
  {| d_class := d_class d; d_fields := d_fields d; d_data := d_data d;
     d_changed_fields := c |}.

Definition with_fields (d : doc) (fs : list schema_field) : doc :=
  {| d_class := d_class d; d_fields := fs; d_data := d_data d;
     d_changed_fields := d_changed_fields d |}.

(** ["The %s could not be %s because the data didn't validate."]. *)
Definition could_not_be (class_name fail_message : string) : string :=
  "The " +:+ class_name +:+ " could not be " +:+ fail_message
  +:+ " because the data didn't validate.".

(** [save_instance(form, instance, fields, fail_message, commit, exclude,
    construct)].  The instance is constructed whatever [construct] says,
    and before the form's errors are looked at.  [instance.save()] is
    recorded with the instance as it is at the call, that is with the
    reduced [_fields]. *)
Definition save_instance (fm : form) (instance : instance_ref)
    (fields : option (list string)) (fail_message : string) (commit : bool)
    (exclude : option (list string)) (construct : bool) (w : world)
  : outcome unit * doc * world :=
  let '(r, instance, w) :=
    construct_instance (f_cleaned_data fm) instance fields exclude w in
  match r with
  | Raise e => (Raise e, instance, w)
  | Ok _ =>
      if has_errors fm then
        (Raise (ValueError (could_not_be (cls_name (d_class instance)) fail_message)),
         instance, w)
      else if commit && cls_has_save (d_class instance) then
        match f_delete_before_save fm with
        | Some delete_before_save =>
            let fields := d_fields instance in
            let new_fields :=
              List.filter (fun f => negb (str_in (name f) delete_before_save)) fields in
            let '(r, instance) :=
              match d_changed_fields instance with
              | Some changed =>
                  let '(r, changed) := remove_changed delete_before_save changed in
                  (r, with_changed_fields instance (Some changed))
              | None => (Ok tt, instance)
              end in
            match r with
            | Raise e => (Raise e, instance, w)
            | Ok _ =>
                let instance := with_fields instance new_fields in
                let w := log_event w (EvSave instance) in
                let instance := with_fields instance fields in
                (Ok tt, instance, w)
            end
        | None => (Ok tt, instance, log_event w (EvSave instance))
        end
      else (Ok tt, instance, w)
  end.

(** [BaseDocumentForm.save(commit)]: the instance it returns, the form
    and the world after the call. *)
Definition BaseDocumentForm_save (fm : form) (commit : bool) (w : world)
  : outcome doc * form * world :=
  let fail_message :=
    match ref_pk (f_instance fm) with
    | PkValue VNone => "created"
    | PkValue _ | PkProperty => "changed"
    | PkKeyError => "embedded docuement saved"
    end in
  let '(r, obj, w) :=
    save_instance fm (f_instance fm) (opt_fields (f_meta fm)) fail_message commit
      None false w in
  (match r with Ok _ => Ok obj | Raise e => Raise e end, keep_alias fm obj, w).

(** ** The embedded document form *)

Record embedded_form := EmbeddedForm {
  ef_form : form;
  ef_parent_document : parent_document
}.


(** [EmbeddedDocumentForm.save(commit)].  [getattr] with the name [None]
    is a [TypeError]; a parent without the attribute, or with one that is
    no list, an [AttributeError]. *)
Definition EmbeddedDocumentForm_save (ef : embedded_form) (commit : bool) (w : world)
  : outcome instance_ref * embedded_form * world :=
  let fm := ef_form ef in
  if has_errors fm then
    (Raise (ValueError (could_not_be (ref_class_name (f_instance fm)) "saved")), ef, w)
  else if commit then
    match opt_embedded_field (f_meta fm) with
    | None => (Raise (TypeError "getattr(): attribute name must be string"), ef, w)
    | Some n =>
        match pd_attrs (ef_parent_document ef) !! n with
        | Some (PList l) =>
            let l := l ++ [f_instance fm] in
            let parent :=
              {| pd_class_name := pd_class_name (ef_parent_document ef);
                 pd_attrs := <[n := PList l]> (pd_attrs (ef_parent_document ef)) |} in
            (Ok (f_instance fm),
             {| ef_form := fm; ef_parent_document := parent |},
             log_event w (EvSaveParent parent))
        | _ => (Raise AttributeError, ef, w)
        end
    end
  else (Ok (f_instance fm), ef, w).

(** ** The formset *)

(** A formset: its forms in order; the initial forms are the first
    [fs_initial_form_count] of them. *)
Record formset := FormSet {
  fs_forms : list form;
  fs_initial_form_count : nat
}.

(** [BaseDocumentFormSet.save_object(form)]. *)
Definition save_object (fm : form) (w : world) : outcome doc * form * world :=
  BaseDocumentForm_save fm false w.

(** The loop of [BaseDocumentFormSet.save]: [i] is the position of the
    next form, [done] the forms already gone through, [saved] the list
    built so far. *)
Fixpoint formset_save_loop (i : nat) (forms : list form) (initial_form_count : nat)
    (saved : list doc) (done : list form) (w : world)
  : outcome (list doc) * list form * world :=
  match forms with
  | [] => (Ok saved, done, w)
  | fm :: rest =>
      if negb (f_has_changed fm) && negb (i <? initial_form_count)%nat then
        formset_save_loop (S i) rest initial_form_count saved (done ++ [fm]) w
      else
        let '(r, fm, w) := save_object fm w in
        match r with
        | Raise e => (Raise e, done ++ fm :: rest, w)
        | Ok obj =>
            match f_cleaned_data fm !! "DELETE" with
            | None => (Raise KeyError, done ++ fm :: rest, w)
            | Some flag =>
                if py_truthy flag then
                  if cls_has_delete (d_class obj) then
                    formset_save_loop (S i) rest initial_form_count (saved ++ [obj])
                      (done ++ [fm]) (log_event w (EvDelete obj))
                  else
                    formset_save_loop (S i) rest initial_form_count saved (done ++ [fm]) w
                else
                  formset_save_loop (S i) rest initial_form_count (saved ++ [obj])
                    (done ++ [fm]) w
            end
        end
  end.

(** [BaseDocumentFormSet.save(commit)]; [commit] is not looked at. *)
Definition BaseDocumentFormSet_save (fs : formset) (commit : bool) (w : world)
  : outcome (list doc) * formset * world :=
  let '(r, forms, w) :=
    formset_save_loop 0 (fs_forms fs) (fs_initial_form_count fs) [] [] w in
  (r, {| fs_forms := forms; fs_initial_form_count := fs_initial_form_count fs |}, w).

(** ** The formset's initial data *)

(** [self.data or self.files]: [None] and the empty dict are false. *)
Definition dict_truthy (d : option (gmap string value)) : bool :=
  match d with
  | Some m => negb (bool_decide (m = ∅))
  | None => false
  end.

(** [BaseDocumentFormSet.get_queryset()]: [self._queryset], which is what
    the constructor was given as [queryset], a sequence of documents or
    [None]. *)
Definition get_queryset (queryset : option (list doc)) : option (list doc) := queryset.

(** [BaseDocumentFormSet.construct_initial()].  Iterating over [None]
    raises the [TypeError] that the method catches. *)
Definition construct_initial (queryset : option (list doc)) : list (gmap string value) :=
  match get_queryset queryset with
  | Some docs => map (fun d => document_to_dict d None None) docs
  | None => []
  end.

(** [BaseDocumentFormSet.initial_form_count()]; [management_count] is
    what the form layer's own [initial_form_count] answers.  [len(None)]
    raises [TypeError]. *)
Definition initial_form_count (data files : option (gmap string value))
    (queryset : option (list doc)) (management_count : outcome nat) : outcome nat :=
  if negb (dict_truthy data || dict_truthy files) then
    match get_queryset queryset with
    | Some docs => Ok (length docs)
    | None => Raise (TypeError "object of type 'NoneType' has no len()")
    end
  else management_count.

(** [BaseInlineDocumentFormSet.initial_form_count()]. *)
Definition inline_initial_form_count (save_as_new : bool)
    (data files : option (gmap string value)) (queryset : option (list doc))
    (management_count : outcome nat) : outcome nat :=
  if save_as_new then Ok 0
  else initial_form_count data files queryset management_count.

(** ** [documentform_factory] *)

(** The form class handed to the factory, as far as the factory and the
    metaclass look at it: whether it is a document form class, its inner
    [Meta] if it has one, and the declared fields the new class inherits. *)
Record parent_form := ParentForm {
  pf_is_document_form : bool;
  pf_Meta : option meta_block;
  pf_declared_fields : list (string * formfield)
}.

(** The [Meta] class the factory makes: [document], and [fields] and
    [exclude] when they are given, are its own attributes; any other
    attribute is looked up in the [Meta] of the parent. *)
Definition factory_Meta (document : doc_class) (parent : option meta_block)
    (fields exclude : option (list string)) : meta_block :=
  {| mb_document := Some document;
     mb_fields := match fields with Some l => Some l | None => parent ≫= mb_fields end;
     mb_exclude := match exclude with Some l => Some l | None => parent ≫= mb_exclude end;
     mb_widgets := parent ≫= mb_widgets;
     mb_embedded_field_name := parent ≫= mb_embedded_field_name |}.

(** [documentform_factory(document, form, fields, exclude,
    formfield_callback)]: the name of the new class and what the metaclass
    makes of it.  The name is built on [document.__class__.__name__], the
    name of the metaclass of the document class. *)
Definition documentform_factory (document : doc_class) (form : parent_form)
    (fields exclude : option (list string)) (formfield_callback : option callback)
    (formfield_generator : generator) : string * outcome form_class :=
  let Meta := factory_Meta document (pf_Meta form) fields exclude in
  let class_name := cls_metaclass_name document +:+ "Form" in
  (class_name,
   DocumentFormMetaclass_new (pf_is_document_form form) (Some Meta)
     (pf_declared_fields form) formfield_callback formfield_generator).

(** ** Properties stated on the model *)

(** [getattr] through what a form holds as its instance. *)
Definition ref_getattr (r : instance_ref) (n : string) : value :=
  match r with
  | IObj d => getattr d n
  | IClass c => default VNone (cls_defaults c !! n)
  end.

(** No named field has both an attached error and a cleaned value. *)
Definition errors_apart (fm : form) : Prop :=
  forall k : string,
    k <> NON_FIELD_ERRORS ->
    is_Some (f_errors fm !! k) -> f_cleaned_data fm !! k = None.

(** A stored record of the instance's class that shares the value the
    instance has for field [n], and whose identity differs from the
    instance's when the instance has one. *)
Definition conflicts_with (d : doc) (pk : value) (n : string) (r : stored_doc) : Prop :=
  sd_class r = cls_name (d_class d)
  /\ py_eq (default VNone (sd_data r !! n)) (getattr d n) = true
  /\ (pk = VNone \/ py_eq (sd_pk r) pk = false).

Definition has_conflict (w : world) (d : doc) (pk : value) (n : string) : Prop :=
  exists r, In r (w_docs w) /\ conflicts_with d pk n r.

(** The form field made for a schema field: the generator's, or the
    callback's when there is one. *)
Definition produce (widgets : option (gmap string string))
    (formfield_callback : option callback) (field_generator : generator)
    (f : schema_field) : option formfield :=
  match formfield_callback with
  | Some (Callable fn) => fn f (widgets ≫= (fun ws => ws !! name f))
  | _ => field_generator (name f) f
  end.

(** A schema field that is neither an identity nor a collection field. *)
Definition derivable (f : schema_field) : bool :=
  negb (is_ObjectIdField f || is_ListField f).

(** A derivable schema field that the allow-list admits and the
    deny-list does not name. *)
Definition passes (fields exclude : option (list string)) (f : schema_field) : bool :=
  derivable f && negb (not_listed fields (name f)) && negb (listed_in exclude (name f)).

(** The auto-derived fields in the words of the specification: the
    schema fields that pass, in schema order, each with the form field
    made for it, those for which none is made left out. *)
Definition auto_derived (document : doc_class) (fields exclude : option (list string))
    (widgets : option (gmap string string)) (formfield_callback : option callback)
    (field_generator : generator) : list (string * formfield) :=
  omap (fun f => (fun ff => (name f, ff))
                   <$> produce widgets formfield_callback field_generator f)
    (List.filter (passes fields exclude) (cls_fields document)).

(** The names of the schema fields that pass and get no form field. *)
Definition ignored_names (document : doc_class) (fields exclude : option (list string))
    (widgets : option (gmap string string)) (formfield_callback : option callback)
    (field_generator : generator) : list string :=
  omap (fun f => match produce widgets formfield_callback field_generator f with
                 | Some _ => None
                 | None => Some (name f)
                 end)
    (List.filter (passes fields exclude) (cls_fields document)).

(** The keys of a list of items in the order of their first
    occurrence. *)
Definition add_key (acc : list string) (k : string) : list string :=
  if str_in k acc then acc else acc ++ [k].

Definition uniq (l : list string) : list string := fold_left add_key l [].

(** An allow-list name that makes class definition fail: it is not on
    the deny-list, names no derivable schema field and is not declared. *)
Definition unknown_name (document : doc_class) (fields exclude : option (list string))
    (declared_fields : list (string * formfield)) (n : string) : bool :=
  truthy_list fields && str_in n (default [] fields)
  && negb (listed_in exclude n)
  && negb (existsb (fun f => String.eqb (name f) n && derivable f) (cls_fields document))
  && negb (sd_has n declared_fields).

(** A name is known, in the words of the specification, when it has an
    auto-derived field that was not filtered out or is declared. *)
Definition known_name (auto : list (string * option formfield))
    (declared_fields : list (string * formfield)) (n : string) : Prop :=
  (exists ff, sd_get n auto = Some (Some ff)) \/ sd_has n declared_fields = true.

(** The check of the allow-list in the words of the specification:
    every allow-list name that is not known makes class definition fail
    with a configuration error. *)
Definition allow_list_enforced (document : doc_class) (fields exclude : option (list string))
    (widgets : option (gmap string string)) (declared_fields : list (string * formfield))
    (formfield_callback : option callback) (field_generator : generator) : Prop :=
  forall auto n,
    fields_for_document document fields exclude widgets formfield_callback field_generator
    = Ok auto ->
    In n (default [] fields) ->
    ~ known_name auto declared_fields n ->
    exists msg,
      DocumentFormMetaclass_new true
        (Some (MetaBlock (Some document) fields exclude widgets None))
        declared_fields formfield_callback field_generator
      = Raise (FieldError msg).

(** The names the specification expects in the auto-derived mapping:
    the schema fields that pass, in schema order, or in the order of the
    allow-list when one is given. *)
Definition admitted_names (document : doc_class) (fields exclude : option (list string))
  : list string :=
  let names := map name (List.filter (passes fields exclude) (cls_fields document)) in
  if truthy_list fields
  then List.filter (fun n => str_in n names) (default [] fields)
  else names.

Definition derives_every_admitted_field (document : doc_class)
    (fields exclude : option (list string)) (widgets : option (gmap string string))
    (formfield_callback : option callback) (field_generator : generator) : Prop :=
  exists auto,
    fields_for_document document fields exclude widgets formfield_callback field_generator
    = Ok auto
    /\ sd_keys auto = admitted_names document fields exclude.

(** A sub-form that the formset's [save] passes over: it has not
    changed and is not among the initial forms. *)
Definition skipped (initial_form_count i : nat) (fm : form) : bool :=
  negb (f_has_changed fm) && negb (i <? initial_form_count)%nat.



(** Every cleaned value of a file field is an upload. *)
Definition uploads_ok (fm : form) : Prop :=
  forall f v,
    In f (ref_fields (f_instance fm)) -> is_FileField f = true ->
    f_cleaned_data fm !! name f = Some v -> exists u, v = VUpload u.





(** Whether [document_to_dict] copies the field named [n]. *)
Definition copied (fields exclude : option (list string)) (n : string) : bool :=
  negb (truthy_list fields && negb (str_in n (default [] fields)))
  && negb (listed_in exclude n).

(** The invariant on the pair the loop of [_update_errors] works on. *)
Definition apart (st : gmap string (list string) * gmap string value) : Prop :=
  forall k : string,
    k <> NON_FIELD_ERRORS -> is_Some (fst st !! k) -> snd st !! k = None.

(** A key that has an error and no cleaned value keeps both through the
    loop. *)
Definition flagged_key (k : string) (st : gmap string (list string) * gmap string value)
  : Prop :=
  is_Some (fst st !! k) /\ snd st !! k = None.

(** The answer of the uniqueness query for the field named [n]:
    [len(qs) > 0]. *)
Definition conflict_found (w : world) (d : doc) (pk : value) (n : string) : bool :=
  let qs := query_same_value w (d_class d) n (getattr d n) in
  (0 <? length (match pk with VNone => qs | _ => filter_pk_ne qs pk end))%nat.

(** Whether the loop of [validate_unique] attaches an error for [f]. *)
Definition flags (w : world) (d : doc) (pk : value) (exclude : list string)
    (f : schema_field) : bool :=
  unique f && negb (str_in (name f) exclude) && conflict_found w d pk (name f).

(** The error dict the loop makes for [f]. *)
Definition unique_error (d : doc) (f : schema_field) : gmap string (list string) :=
  {[name f := [unique_message (cls_verbose_name (d_class d)) (name f)]]}.

(** The value set last for a key in a list of items. *)
Fixpoint get_last {V} (n : string) (items : list (string * V)) : option V :=
  match items with
  | [] => None
  | (k, v) :: rest =>
      match get_last n rest with
      | Some x => Some x
      | None => if String.eqb n k then Some v else None
      end
  end.

(** The excluded fields with an empty string, by name. *)
Definition empty_excluded (instance : doc) (exclude : list string)
    (fs : list schema_field) : list string :=
  map name
    (List.filter
       (fun f => str_in (name f) exclude && py_eq (getattr instance (name f)) (VStr ""))
       fs).

(** Whether the loop validates [f] and its validator raises. *)
Definition fails (instance : doc) (exclude : list string) (f : schema_field) : bool :=
  negb (str_in (name f) exclude)
  && bool_decide (is_Some (validate f (getattr instance (name f)))).

(** No two blobs of the store have the same file name. *)
Definition fs_distinct (fs : list grid_file) : Prop :=
  List.NoDup (map gf_filename fs).

(** A schema field that [construct_instance] takes a value for: it is no
    identity field, cleaned data has its name, the allow-list admits it and
    the deny-list does not name it. *)
Definition takes (cleaned_data : gmap string value) (fields exclude : option (list string))
    (f : schema_field) : bool :=
  negb (is_ObjectIdField f) && has_key cleaned_data (name f)
  && negb (not_listed fields (name f)) && negb (listed_in exclude (name f)).

(** The object [construct_instance] works on. *)
Definition base_instance (instance : instance_ref) : doc :=
  match instance with
  | IClass c => instantiate c
  | IObj d => d
  end.

(** The names in [_changed_fields], on instances that have it. *)
Definition changed_names (d : doc) (m : string) : Prop :=
  match d_changed_fields d with
  | Some l => In m l
  | None => False
  end.

(** Whether the instance has [_changed_fields]. *)
Definition tracks (d : doc) : bool := bool_decide (is_Some (d_changed_fields d)).


(** The conditions under which [_get_validation_exclusions] names a
    schema field, one by one. *)
Definition excluded_because (fm : form) (f : schema_field) : Prop :=
  sd_has (name f) (f_fields fm) = false
  \/ (truthy_list (opt_fields (f_meta fm)) = true
      /\ ~ In (name f) (default [] (opt_fields (f_meta fm))))
  \/ (truthy_list (opt_exclude (f_meta fm)) = true
      /\ In (name f) (default [] (opt_exclude (f_meta fm))))
  \/ is_Some (f_errors fm !! name f)
  \/ (required f = false
      /\ value_in (default VNone (f_cleaned_data fm !! name f)) EMPTY_VALUES = true).

(** ** Sample documents and forms *)

Definition accept_all (_ : value) : option string := None.

Definition reject_bad (v : value) : option string :=
  if py_eq v (VStr "bad") then Some "Invalid value" else None.

Definition char_field : formfield := FormField "CharField" None VNone.

Definition sample_generator : generator := fun _ _ => Some char_field.

Definition empty_world : world := World [] [] [].

(** The identity field every top-level document has. *)
Definition id_field : schema_field := SchemaField "id" ObjectIdField false false accept_all.

(** A document class with a required and an optional text field. *)
Definition title_field : schema_field := SchemaField "title" OtherField true false accept_all.
Definition note_field : schema_field := SchemaField "note" OtherField false false accept_all.

Definition Article : doc_class :=
  {| cls_name := "Article";
     cls_metaclass_name := "TopLevelDocumentMetaclass";
     cls_verbose_name := "article";
     cls_fields := [id_field; title_field; note_field];
     cls_defaults := ∅;
     cls_id_field := Some "id";
     cls_has_save := true;
     cls_has_delete := true;
     cls_has_objects := true;
     cls_tracks_changes := true;
     cls_clean := None;
     cls_meta_is_dict := false |}.

(** A [Meta] block that names fields but no document. *)
Definition meta_without_document : meta_block :=
  MetaBlock None (Some ["title"]) None None None.

(** A stored article whose note is ["old"], edited through a form class
    that declares [note] itself and lists it under [exclude].  Field
    cleaning has rejected the title and accepted the new note. *)
Definition stored_article : doc :=
  {| d_class := Article;
     d_fields := [id_field; title_field; note_field];
     d_data := {["id" := VInt 7; "note" := VStr "old"]};
     d_changed_fields := Some [] |}.

Definition article_options : ModelFormOptions :=
  Options (Some Article) (Some Article) None (Some ["note"]) None None.

Definition rejected_article_form : form :=
  {| f_meta := article_options;
     f_fields := [("title", Some char_field); ("note", Some char_field)];
     f_instance := IObj stored_article;
     f_is_bound := true;
     f_initial := ∅;
     f_errors := {["title" := ["This field is required."]]};
     f_cleaned_data := {["note" := VStr "new"]};
     f_validate_unique := true;
     f_delete_before_save := None;
     f_has_changed := true |}.

(** A report with an optional attachment; field cleaning has rejected the
    title and accepted the upload. *)
Definition attachment_field : schema_field :=
  SchemaField "attachment" FileField false false accept_all.

Definition Report : doc_class :=
  {| cls_name := "Report";
     cls_metaclass_name := "TopLevelDocumentMetaclass";
     cls_verbose_name := "report";
     cls_fields := [id_field; title_field; attachment_field];
     cls_defaults := ∅;
     cls_id_field := Some "id";
     cls_has_save := true;
     cls_has_delete := true;
     cls_has_objects := true;
     cls_tracks_changes := true;
     cls_clean := None;
     cls_meta_is_dict := false |}.

Definition rejected_report_form : form :=
  {| f_meta := Options (Some Report) (Some Report) None None None None;
     f_fields := [("title", Some char_field); ("attachment", Some char_field)];
     f_instance := IClass Report;
     f_is_bound := true;
     f_initial := ∅;
     f_errors := {["title" := ["This field is required."]]};
     f_cleaned_data :=
       {["attachment" := VUpload (Upload "a.pdf" "application/pdf" "%PDF")]};
     f_validate_unique := true;
     f_delete_before_save := None;
     f_has_changed := true |}.

(** A document class whose two first fields both reject the value
    ["bad"], followed by an optional field. *)
Definition code_field : schema_field := SchemaField "code" OtherField true false reject_bad.
Definition slug_field : schema_field := SchemaField "slug" OtherField true false reject_bad.
Definition hint_field : schema_field := SchemaField "hint" OtherField false false accept_all.

Definition Product : doc_class :=
  {| cls_name := "Product";
     cls_metaclass_name := "TopLevelDocumentMetaclass";
     cls_verbose_name := "product";
     cls_fields := [id_field; code_field; slug_field; hint_field];
     cls_defaults := ∅;
     cls_id_field := Some "id";
     cls_has_save := true;
     cls_has_delete := true;
     cls_has_objects := true;
     cls_tracks_changes := true;
     cls_clean := None;
     cls_meta_is_dict := false |}.

Definition product_options : ModelFormOptions :=
  Options (Some Product) (Some Product) None None None None.

Definition product_form_fields : list (string * option formfield) :=
  [("code", Some char_field); ("slug", Some char_field); ("hint", Some char_field)].

(** A submission with two invalid values and an empty optional one, as
    field cleaning leaves it. *)
Definition twice_invalid_form : form :=
  {| f_meta := product_options;
     f_fields := product_form_fields;
     f_instance := IClass Product;
     f_is_bound := true;
     f_initial := ∅;
     f_errors := ∅;
     f_cleaned_data := {["code" := VStr "bad"; "slug" := VStr "bad"; "hint" := VStr ""]};
     f_validate_unique := true;
     f_delete_before_save := None;
     f_has_changed := true |}.

(** A blog post that holds its comments as embedded documents, and a
    form for one more comment. *)
Definition text_field : schema_field := SchemaField "text" OtherField true false accept_all.

Definition Comment : doc_class :=
  {| cls_name := "Comment";
     cls_metaclass_name := "DocumentMetaclass";
     cls_verbose_name := "comment";
     cls_fields := [text_field];
     cls_defaults := ∅;
     cls_id_field := None;
     cls_has_save := false;
     cls_has_delete := false;
     cls_has_objects := false;
     cls_tracks_changes := false;
     cls_clean := None;
     cls_meta_is_dict := false |}.

Definition comment (text : string) : doc :=
  {| d_class := Comment;
     d_fields := [text_field];
     d_data := {["text" := VStr text]};
     d_changed_fields := None |}.

Definition blog_post : parent_document :=
  ParentDocument "BlogPost" {["comments" := PList [IObj (comment "first")]]}.

Definition comment_options : ModelFormOptions :=
  Options (Some Comment) (Some Comment) None None None (Some "comments").

Definition comment_form : embedded_form :=
  {| ef_form :=
       {| f_meta := comment_options;
          f_fields := [("text", Some char_field)];
          f_instance := IObj (comment "second");
          f_is_bound := true;
          f_initial := ∅;
          f_errors := ∅;
          f_cleaned_data := {["text" := VStr "second"]};
          f_validate_unique := true;
          f_delete_before_save := Some [];
          f_has_changed := true |};
     ef_parent_document := blog_post |}.

(** A user document with a unique e-mail address, edited under its own
    identity; one collection holds another user with the same address, the
    other only the user itself. *)
Definition email_field : schema_field := SchemaField "email" OtherField true true accept_all.

Definition User : doc_class :=
  {| cls_name := "User";
     cls_metaclass_name := "TopLevelDocumentMetaclass";
     cls_verbose_name := "user";
     cls_fields := [id_field; email_field];
     cls_defaults := ∅;
     cls_id_field := Some "id";
     cls_has_save := true;
     cls_has_delete := true;
     cls_has_objects := true;
     cls_tracks_changes := true;
     cls_clean := None;
     cls_meta_is_dict := false |}.

Definition user (pk : value) (email : string) : doc :=
  {| d_class := User;
     d_fields := [id_field; email_field];
     d_data := {["id" := pk; "email" := VStr email]};
     d_changed_fields := Some [] |}.

Definition stored_user (pk : value) (email : string) : stored_doc :=
  StoredDoc "User" pk {["id" := pk; "email" := VStr email]}.

Definition user_options : ModelFormOptions :=
  Options (Some User) (Some User) None None None None.

Definition user_form : form :=
  {| f_meta := user_options;
     f_fields := [("email", Some char_field)];
     f_instance := IObj (user (VInt 1) "ann@example.org");
     f_is_bound := true;
     f_initial := ∅;
     f_errors := ∅;
     f_cleaned_data := {["email" := VStr "ann@example.org"]};
     f_validate_unique := true;
     f_delete_before_save := None;
     f_has_changed := false |}.

Definition own_record_world : world :=
  World [stored_user (VInt 1) "ann@example.org"; stored_user (VInt 2) "bob@example.org"]
    [] [].

Definition taken_world : world :=
  World [stored_user (VInt 1) "ann@example.org"; stored_user (VInt 2) "ann@example.org"]
    [] [].

(** A callback that makes no form field for [note]. *)
Definition skip_note : callback :=
  Callable (fun f _ => if String.eqb (name f) "note" then None else Some char_field).

Definition text_area : formfield := FormField "CharField" (Some "Textarea") VNone.

(** A formset over articles with one changed form whose deletion flag
    is unset, and one with a changed form whose flag is set. *)
Definition article_form (delete : bool) : form :=
  {| f_meta := Options (Some Article) (Some Article) None None None None;
     f_fields := [("title", Some char_field); ("note", Some char_field)];
     f_instance := IObj stored_article;
     f_is_bound := true;
     f_initial := ∅;
     f_errors := ∅;
     f_cleaned_data := {["title" := VStr "News"; "DELETE" := VBool delete]};
     f_validate_unique := true;
     f_delete_before_save := Some [];
     f_has_changed := true |}.

(** The same form in a formset made without deletion, whose forms have
    no [DELETE] field. *)
Definition article_form_without_flag : form :=
  {| f_meta := Options (Some Article) (Some Article) None None None None;
     f_fields := [("title", Some char_field); ("note", Some char_field)];
     f_instance := IObj stored_article;
     f_is_bound := true;
     f_initial := ∅;
     f_errors := ∅;
     f_cleaned_data := {["title" := VStr "News"]};
     f_validate_unique := true;
     f_delete_before_save := Some [];
     f_has_changed := true |}.


Definition deleting_formset : formset := FormSet [article_form true] 0.

(** The stored article edited through a form with both fields, the note
    left blank; and a stored article whose note is the empty string,
    edited through a form that has the title only. *)
Definition blank_note_form : form :=
  {| f_meta := Options (Some Article) (Some Article) None None None None;
     f_fields := [("title", Some char_field); ("note", Some char_field)];
     f_instance := IObj stored_article;
     f_is_bound := true;
     f_initial := ∅;
     f_errors := ∅;
     f_cleaned_data := {["title" := VStr "News"; "note" := VStr ""]};
     f_validate_unique := false;
     f_delete_before_save := None;
     f_has_changed := true |}.

Definition stored_blank_article : doc :=
  {| d_class := Article;
     d_fields := [id_field; title_field; note_field];
     d_data := {["id" := VInt 8; "title" := VStr "Old"; "note" := VStr ""]};
     d_changed_fields := Some [] |}.

Definition title_only_form : form :=
  {| f_meta := Options (Some Article) (Some Article) (Some ["title"]) None None None;
     f_fields := [("title", Some char_field)];
     f_instance := IObj stored_blank_article;
     f_is_bound := true;
     f_initial := ∅;
     f_errors := ∅;
     f_cleaned_data := {["title" := VStr "News"]};
     f_validate_unique := false;
     f_delete_before_save := None;
     f_has_changed := true |}.

(** A form for a new user that still holds the document class. *)
Definition new_user_form : form :=
  {| f_meta := user_options;
     f_fields := [("email", Some char_field)];
     f_instance := IClass User;
     f_is_bound := true;
     f_initial := ∅;
     f_errors := ∅;
     f_cleaned_data := {["email" := VStr "cy@example.org"]};
     f_validate_unique := true;
     f_delete_before_save := None;
     f_has_changed := true |}.

(** * Properties *)

(** ** The unique file name is not in the store *)

Lemma str_length_append (a b : string) :
  String.length (a +:+ b) = String.length a + String.length b.
Proof. induction a as [|c a IH]; simpl; [reflexivity | now rewrite IH]. Qed.

Lemma append_inv_tail (a b e : string) : a +:+ e = b +:+ e -> a = b.
Proof.
  revert b. induction a as [|c a IH]; intros [|c' b] H.
  - reflexivity.
  - apply (f_equal String.length) in H.
    rewrite !str_length_append in H. simpl in H. lia.
  - apply (f_equal String.length) in H.
    rewrite !str_length_append in H. simpl in H. lia.
  - change (String c (a +:+ e) = String c' (b +:+ e)) in H.
    injection H as -> H. f_equal. now apply IH.
Qed.

Lemma append_inv_head (a b c : string) : a +:+ b = a +:+ c -> b = c.
Proof.
  induction a as [|x a IH]; intros H; [exact H |].
  change (String x (a +:+ b) = String x (a +:+ c)) in H.
  injection H as H. auto.
Qed.

Lemma str_of_nat_inj (n m : nat) : str_of_nat n = str_of_nat m -> n = m.
Proof.
  unfold str_of_nat. intros H.
  apply DecimalNat.Unsigned.to_uint_inj.
  assert (E : Some (Nat.to_uint n) = Some (Nat.to_uint m)).
  { rewrite <- (NilEmpty.usu (Nat.to_uint n)), <- (NilEmpty.usu (Nat.to_uint m)).
    now rewrite H. }
  now injection E.
Qed.

Lemma suffixed_inj (file_root file_ext : string) (n m : nat) :
  suffixed file_root n file_ext = suffixed file_root m file_ext -> n = m.
Proof.
  unfold suffixed. intros H.
  apply append_inv_head in H. apply append_inv_head in H.
  apply append_inv_tail in H. now apply str_of_nat_inj.
Qed.

Lemma fs_exists_In (fs : list grid_file) (n : string) :
  fs_exists fs n = true -> In n (map gf_filename fs).
Proof.
  unfold fs_exists. rewrite existsb_exists. intros (g & Hg & E).
  apply String.eqb_eq in E. subst n. now apply in_map.
Qed.

(** Among the first [length fs + 1] suffixed names one is free. *)
Lemma free_suffix_exists (fs : list grid_file) (file_root file_ext : string) :
  exists k, 1 <= k <= S (length fs)
            /\ fs_exists fs (suffixed file_root k file_ext) = false.
Proof.
  set (cands := seq 1 (S (length fs))).
  destruct (existsb (fun k => negb (fs_exists fs (suffixed file_root k file_ext))) cands)
    eqn:E.
  - apply existsb_exists in E. destruct E as (k & Hk & Hf).
    apply in_seq in Hk. exists k. split; [lia |].
    now apply negb_true_iff in Hf.
  - exfalso.
    assert (Hall : forall k, In k cands ->
                     In (suffixed file_root k file_ext) (map gf_filename fs)).
    { intros k Hk. apply fs_exists_In.
      destruct (fs_exists fs (suffixed file_root k file_ext)) eqn:F; [reflexivity |].
      assert (X : existsb (fun k => negb (fs_exists fs (suffixed file_root k file_ext)))
                    cands = true).
      { apply existsb_exists. exists k. split; [exact Hk | now rewrite F]. }
      congruence. }
    assert (Hnd : List.NoDup (map (fun k => suffixed file_root k file_ext) cands)).
    { apply Finite.Injective_map_NoDup.
      - intros a b. apply suffixed_inj.
      - apply seq_NoDup. }
    assert (Hincl : incl (map (fun k => suffixed file_root k file_ext) cands)
                      (map gf_filename fs)).
    { intros s Hs. apply in_map_iff in Hs. destruct Hs as (k & <- & Hk). now apply Hall. }
    pose proof (List.NoDup_incl_length Hnd Hincl) as L.
    unfold cands in L. rewrite !length_map, length_seq in L. lia.
Qed.

Lemma unique_loop_fresh (fs : list grid_file) (file_root file_ext : string) :
  forall (fuel count : nat) (n : string),
    (fs_exists fs n = false
     \/ exists k, count <= k < count + fuel
                  /\ fs_exists fs (suffixed file_root k file_ext) = false) ->
    fs_exists fs (unique_loop fuel fs file_root file_ext count n) = false.
Proof.
  induction fuel as [|fuel IH]; intros count n H; simpl.
  - destruct (fs_exists fs n) eqn:E; [| exact E].
    destruct H as [H | (k & Hk & _)]; [congruence | lia].
  - destruct (fs_exists fs n) eqn:E; [| exact E].
    apply IH. destruct H as [H | (k & Hk & Hf)]; [congruence |].
    destruct (Nat.eq_dec k count) as [-> | Hne].
    + now left.
    + right. exists k. split; [lia | exact Hf].
Qed.

(** The name [_get_unique_filename] returns does not exist in the store:
    the loop always ends because a free name was found. *)
Lemma _get_unique_filename_fresh (fs : list grid_file) (n : string) :
  fs_exists fs (_get_unique_filename fs n) = false.
Proof.
  unfold _get_unique_filename. destruct (splitext n) as [file_root file_ext].
  apply unique_loop_fresh. right.
  destruct (free_suffix_exists fs file_root file_ext) as (k & Hk & Hf).
  exists k. split; [lia | exact Hf].
Qed.

(** ** Construction leaves the trace alone *)

Lemma store_files_log (ffl : list schema_field) (cleaned_data : gmap string value) :
  forall (instance : doc) (w : world),
    w_log (snd (store_files ffl cleaned_data instance w)) = w_log w.
Proof.
  induction ffl as [|f rest IH]; intros instance w; simpl; [reflexivity |].
  destruct (cleaned_data !! name f) as [v|]; [| reflexivity].
  destruct v; try reflexivity.
  unfold proxy_replace, fs_put. simpl. now rewrite IH.
Qed.

Lemma construct_instance_log (cleaned_data : gmap string value) (instance : instance_ref)
    (fields exclude : option (list string)) (w : world) :
  w_log (snd (construct_instance cleaned_data instance fields exclude w)) = w_log w.
Proof.
  unfold construct_instance.
  destruct (assign_fields _ cleaned_data fields exclude _ []) as [d ffl].
  apply store_files_log.
Qed.

(** A form with errors is never saved: [save] raises and makes no call
    to the persistence layer. *)
Lemma save_with_errors_raises (fm : form) (commit : bool) (w : world) :
  has_errors fm = true ->
  exists e fm' w',
    BaseDocumentForm_save fm commit w = (Raise e, fm', w') /\ w_log w' = w_log w.
Proof.
  intros He. unfold BaseDocumentForm_save, save_instance.
  pose proof (construct_instance_log (f_cleaned_data fm) (f_instance fm)
                (opt_fields (f_meta fm)) None w) as L.
  destruct (construct_instance _ _ _ _ w) as [[r d] w1]. simpl in L.
  destruct r as [[]|e]; [rewrite He |]; eauto.
Qed.

(** ** Options, saving and post-clean *)

Lemma options_need_document (options : option meta_block) :
  options ≫= mb_document = None -> ModelFormOptions_init options = Raise AttributeError.
Proof. intros H. unfold ModelFormOptions_init. now rewrite H. Qed.

(** C7.  Form options for a configuration block without a document class
    cannot be constructed: [ModelFormOptions.__init__] reads
    [self.model._meta] of [None] and raises [AttributeError], for a block
    that omits [document] and for a missing block alike, so the metaclass
    fails at class definition.  The check that [BaseDocumentForm.__init__]
    makes for a missing document class, and the branch of the metaclass for
    it, are never reached with such options. *)
Theorem options_without_document_raise :
  ModelFormOptions_init (Some meta_without_document) = Raise AttributeError
  /\ ModelFormOptions_init None = Raise AttributeError
  /\ DocumentFormMetaclass_new true (Some meta_without_document) [] None sample_generator
     = Raise AttributeError
  /\ DocumentFormMetaclass_new true None [] None sample_generator = Raise AttributeError.
Proof. repeat split; reflexivity. Qed.

(** C2.  Saving a form that has errors raises and persists nothing, but
    the instance does not stay as it was: [save_instance] constructs the
    instance before it looks at the errors, whatever [construct] says.
    Here the form went through [_post_clean], which left the stored note
    alone because [note] is excluded; [save] then raises [ValueError] with
    an empty trace, and the note of the instance has become the submitted
    one. *)
Theorem save_with_errors_changes_instance :
  let validated := snd (fst (_post_clean rejected_article_form empty_world)) in
  let result := BaseDocumentForm_save validated true empty_world in
  fst (fst (_post_clean rejected_article_form empty_world)) = Ok tt
  /\ has_errors validated = true
  /\ ref_getattr (f_instance validated) "note" = VStr "old"
  /\ fst (fst result)
     = Raise (ValueError
                "The Article could not be changed because the data didn't validate.")
  /\ w_log (snd result) = []
  /\ ref_getattr (f_instance (snd (fst result))) "note" = VStr "new".
Proof. vm_compute. repeat split; reflexivity. Qed.

(** The blob store is written to by a [save] that fails: the upload that
    [_post_clean] stored is replaced by a second copy under a new name
    before the errors are looked at. *)
Lemma save_with_errors_rewrites_blob :
  let validated := snd (fst (_post_clean rejected_report_form empty_world)) in
  let w1 := snd (_post_clean rejected_report_form empty_world) in
  let result := BaseDocumentForm_save validated true w1 in
  has_errors validated = true
  /\ is_raise (fst (fst result)) = true
  /\ map gf_filename (w_fs w1) = ["a.pdf"]
  /\ map gf_filename (w_fs (snd result)) = ["a_1.pdf"]
  /\ w_log (snd result) = [].
Proof. vm_compute. repeat split; reflexivity. Qed.

Lemma clean_fields_loop_all_pass (instance : doc) (exclude : list string) :
  forall (fs : list schema_field) (to_delete : list string),
    (forall f, In f fs -> fails instance exclude f = false) ->
    clean_fields_loop fs instance exclude to_delete
    = (to_delete ++ empty_excluded instance exclude fs, None).
Proof.
  induction fs as [|f rest IH]; intros to_delete H; simpl.
  - unfold empty_excluded. simpl. now rewrite app_nil_r.
  - pose proof (H f (or_introl eq_refl)) as Hf. unfold fails in Hf.
    unfold empty_excluded. simpl.
    destruct (str_in (name f) exclude); simpl in *.
    + destruct (py_eq (getattr instance (name f)) (VStr "")); simpl.
      * rewrite IH by (intros g Hg; apply H; now right).
        unfold empty_excluded. now rewrite <- app_assoc.
      * apply IH. intros g Hg. apply H. now right.
    + destruct (validate f (getattr instance (name f))) eqn:V.
      * apply bool_decide_eq_false in Hf. exfalso. apply Hf. eauto.
      * apply IH. intros g Hg. apply H. now right.
Qed.

(** The loop ends at the first field whose validator raises: the fields
    after it are neither validated nor looked at for deletion. *)
Lemma clean_fields_loop_first_failure (instance : doc) (exclude : list string)
    (before after : list schema_field) (f : schema_field) (message : string)
    (to_delete : list string) :
  (forall g, In g before -> fails instance exclude g = false) ->
  str_in (name f) exclude = false ->
  validate f (getattr instance (name f)) = Some message ->
  clean_fields_loop (before ++ f :: after) instance exclude to_delete
  = (to_delete ++ empty_excluded instance exclude before, Some (f, message)).
Proof.
  revert to_delete. induction before as [|g rest IH]; intros to_delete H Hx Hv; simpl.
  - rewrite Hx, Hv. simpl. unfold empty_excluded. simpl. now rewrite app_nil_r.
  - pose proof (H g (or_introl eq_refl)) as Hg. unfold fails in Hg.
    unfold empty_excluded. simpl.
    destruct (str_in (name g) exclude); simpl in *.
    + destruct (py_eq (getattr instance (name g)) (VStr "")); simpl.
      * rewrite IH; [| intros h Hh; apply H; now right | exact Hx | exact Hv].
        unfold empty_excluded. now rewrite <- app_assoc.
      * apply IH; [intros h Hh; apply H; now right | exact Hx | exact Hv].
    + destruct (validate g (getattr instance (name g))) eqn:V.
      * apply bool_decide_eq_false in Hg. exfalso. apply Hg. eauto.
      * apply IH; [intros h Hh; apply H; now right | exact Hx | exact Hv].
Qed.

(** C6.  [_post_clean] stops validating at the first schema field whose
    validator raises: the [try] encloses the whole loop.  With two invalid
    values only the first field gets an error, the second is never
    validated, and the empty optional field after them is not put on the
    deletion-before-save list although it is excluded and empty. *)
Theorem post_clean_stops_at_first_failure :
  let after := snd (fst (_post_clean twice_invalid_form empty_world)) in
  validate code_field (VStr "bad") = Some "Invalid value"
  /\ validate slug_field (VStr "bad") = Some "Invalid value"
  /\ str_in "code" (_get_validation_exclusions twice_invalid_form) = false
  /\ str_in "slug" (_get_validation_exclusions twice_invalid_form) = false
  /\ str_in "hint" (_get_validation_exclusions twice_invalid_form) = true
  /\ ref_getattr (f_instance after) "hint" = VStr ""
  /\ f_errors after !! "code" = Some ["Invalid value"]
  /\ f_errors after !! "slug" = None
  /\ f_delete_before_save after = Some [].
Proof. vm_compute. repeat split; reflexivity. Qed.

(** ** The embedded form's [save] *)

Lemma count_events_log (p : event -> bool) (w : world) (e : event) :
  count_events p (w_log (log_event w e))
  = count_events p (w_log w) + (if p e then 1 else 0).
Proof.
  unfold count_events, log_event. simpl.
  rewrite List.filter_app, length_app. simpl. now destruct (p e).
Qed.

(** C8.  Saving an embedded-document form without errors, with commit
    enabled, appends the form's instance to the end of the list the
    parent holds under the configured embedded field, leaves the parent's
    other attributes alone, makes one save call on the parent and none on
    the embedded instance, and returns the instance. *)
Theorem embedded_save_appends_once (ef : embedded_form) (w : world) (n : string)
    (l : list instance_ref) :
  has_errors (ef_form ef) = false ->
  opt_embedded_field (f_meta (ef_form ef)) = Some n ->
  pd_attrs (ef_parent_document ef) !! n = Some (PList l) ->
  exists parent',
    EmbeddedDocumentForm_save ef true w
    = (Ok (f_instance (ef_form ef)),
       {| ef_form := ef_form ef; ef_parent_document := parent' |},
       log_event w (EvSaveParent parent'))
    /\ pd_attrs parent' !! n = Some (PList (l ++ [f_instance (ef_form ef)]))
    /\ (forall m, m <> n -> pd_attrs parent' !! m = pd_attrs (ef_parent_document ef) !! m)
    /\ count_events is_parent_save (w_log (log_event w (EvSaveParent parent')))
       = S (count_events is_parent_save (w_log w))
    /\ count_events is_save (w_log (log_event w (EvSaveParent parent')))
       = count_events is_save (w_log w).
Proof.
  intros He Hn Hl. unfold EmbeddedDocumentForm_save. rewrite He, Hn, Hl.
  eexists. split; [reflexivity |].
  split; [apply lookup_insert_eq |].
  split; [intros m Hm; simpl; now apply lookup_insert_ne |].
  split; rewrite count_events_log; simpl; lia.
Qed.

Lemma embedded_save_appends_once_witness :
  has_errors (ef_form comment_form) = false
  /\ opt_embedded_field (f_meta (ef_form comment_form)) = Some "comments"
  /\ exists parent',
       EmbeddedDocumentForm_save comment_form true empty_world
       = (Ok (IObj (comment "second")),
          {| ef_form := ef_form comment_form; ef_parent_document := parent' |},
          log_event empty_world (EvSaveParent parent'))
       /\ pd_attrs parent' !! "comments"
          = Some (PList ([IObj (comment "first")] ++ [IObj (comment "second")])).
Proof.
  split; [reflexivity |]. split; [reflexivity |].
  destruct (embedded_save_appends_once comment_form empty_world "comments"
              [IObj (comment "first")]) as (parent' & Hs & Hl & _);
    [reflexivity | reflexivity | reflexivity |].
  exists parent'. split; [exact Hs | exact Hl].
Defined.

(** ** [document_to_dict] *)

Lemma document_to_dict_loop_keeps (instance : doc) (fields exclude : option (list string))
    (k : string) :
  forall (fs : list schema_field) (data : gmap string value),
    data !! k = Some (getattr instance k) ->
    document_to_dict_loop fs instance fields exclude data !! k = Some (getattr instance k).
Proof.
  induction fs as [|f rest IH]; intros data Hk; simpl; [exact Hk |].
  destruct (truthy_list fields && negb (str_in (name f) (default [] fields)));
    [now apply IH |].
  destruct (listed_in exclude (name f)); [now apply IH |].
  apply IH. destruct (decide (name f = k)) as [-> | Hne].
  - apply lookup_insert_eq.
  - now rewrite lookup_insert_ne.
Qed.

Lemma document_to_dict_loop_copies (instance : doc) (fields exclude : option (list string))
    (f : schema_field) :
  copied fields exclude (name f) = true ->
  forall (fs : list schema_field) (data : gmap string value),
    In f fs ->
    document_to_dict_loop fs instance fields exclude data !! name f
    = Some (getattr instance (name f)).
Proof.
  intros Hc. induction fs as [|g rest IH]; intros data Hin; [destruct Hin |].
  simpl. destruct Hin as [-> | Hin].
  - unfold copied in Hc. apply andb_true_iff in Hc. destruct Hc as [H1 H2].
    apply negb_true_iff in H1, H2. rewrite H1, H2.
    apply document_to_dict_loop_keeps, lookup_insert_eq.
  - destruct (truthy_list fields && negb (str_in (name g) (default [] fields)));
      [now apply IH |].
    destruct (listed_in exclude (name g)); now apply IH.
Qed.

(** C9.  The mapping [document_to_dict] makes of an instance, given as
    [initial] to a new unbound form of a form class with a document
    class, becomes the form's initial data, and the value the form shows
    for every schema field of the instance is the instance's value of that
    field. *)
Theorem document_to_dict_roundtrip (opts : ModelFormOptions)
    (base_fields : list (string * option formfield)) (c : doc_class) (d : doc) :
  opt_document opts = Some c ->
  exists fm,
    BaseDocumentForm_init opts base_fields None (Some (document_to_dict d None None)) None
    = Ok fm
    /\ f_is_bound fm = false
    /\ f_fields fm = base_fields
    /\ forall f, In f (d_fields d) ->
         f_initial fm !! name f = Some (getattr d (name f))
         /\ display_value fm (name f) = getattr d (name f).
Proof.
  intros Hdoc. unfold BaseDocumentForm_init. rewrite Hdoc.
  eexists. split; [reflexivity |]. simpl.
  split; [reflexivity |]. split; [reflexivity |].
  intros f Hin.
  assert (E : (document_to_dict d None None ∪ (∅ : gmap string value)) !! name f
              = Some (getattr d (name f))).
  { rewrite (right_id_L ∅ (∪)). unfold document_to_dict.
    now apply document_to_dict_loop_copies. }
  split; [exact E |]. unfold display_value. simpl. now rewrite E.
Qed.

Lemma document_to_dict_roundtrip_witness :
  opt_document article_options = Some Article
  /\ exists fm,
       BaseDocumentForm_init article_options
         [("title", Some char_field); ("note", Some char_field)] None
         (Some (document_to_dict stored_article None None)) None = Ok fm
       /\ display_value fm "note" = VStr "old".
Proof.
  split; [reflexivity |].
  destruct (document_to_dict_roundtrip article_options
              [("title", Some char_field); ("note", Some char_field)]
              Article stored_article eq_refl) as (fm & Hfm & _ & _ & Hv).
  exists fm. split; [exact Hfm |].
  exact (proj2 (Hv note_field (or_intror (or_intror (or_introl eq_refl))))).
Defined.

(** ** Errors and cleaned data *)

Lemma extend_errors_lookup (errors : gmap string (list string)) (k k' : string)
    (v : list string) :
  extend_errors errors k v !! k'
  = if decide (k = k') then Some (default [] (errors !! k) ++ v) else errors !! k'.
Proof. unfold extend_errors. apply lookup_insert. Qed.

Lemma merge_error_apart st kv : apart st -> apart (merge_error st kv).
Proof.
  intros H. unfold merge_error.
  destruct (String.eqb (fst kv) NON_FIELD_ERRORS); [exact H |].
  intros k Hk Hs. simpl in *.
  destruct (decide (fst kv = k)) as [-> | Hne].
  - apply lookup_delete_eq.
  - rewrite lookup_delete_ne by exact Hne. apply H; [exact Hk |].
    rewrite extend_errors_lookup in Hs. now destruct (decide (fst kv = k)).
Qed.

Lemma fold_merge_error_apart l : forall st, apart st -> apart (fold_left merge_error l st).
Proof.
  induction l as [|kv l IH]; intros st H; simpl; [exact H |].
  apply IH, merge_error_apart, H.
Qed.

Lemma merge_error_flagged k st kv : flagged_key k st -> flagged_key k (merge_error st kv).
Proof.
  intros [Hs Hn]. unfold merge_error.
  destruct (String.eqb (fst kv) NON_FIELD_ERRORS); [now split |].
  split; simpl.
  - rewrite extend_errors_lookup. destruct (decide (fst kv = k)); [eauto | exact Hs].
  - destruct (decide (fst kv = k)) as [-> | Hne]; [apply lookup_delete_eq |].
    now rewrite lookup_delete_ne.
Qed.

Lemma fold_merge_error_flagged k l :
  forall st, flagged_key k st -> flagged_key k (fold_left merge_error l st).
Proof.
  induction l as [|kv l IH]; intros st H; simpl; [exact H |].
  apply IH, merge_error_flagged, H.
Qed.

Lemma fold_merge_error_attaches k v l :
  k <> NON_FIELD_ERRORS -> In (k, v) l ->
  forall st, flagged_key k (fold_left merge_error l st).
Proof.
  intros Hk. induction l as [|kv l IH]; intros Hin st; [destruct Hin |].
  simpl. destruct Hin as [-> | Hin]; [| now apply IH].
  apply fold_merge_error_flagged. unfold merge_error. simpl.
  destruct (String.eqb_spec k NON_FIELD_ERRORS) as [E | _]; [contradiction |].
  split; simpl.
  - rewrite extend_errors_lookup. destruct (decide (k = k)); [eauto | contradiction].
  - apply lookup_delete_eq.
Qed.

Lemma update_errors_fields (fm : form) (md : gmap string (list string)) :
  let st := fold_left merge_error (map_to_list md) (f_errors fm, f_cleaned_data fm) in
  f_errors (_update_errors fm md)
  = match md !! NON_FIELD_ERRORS with
    | Some messages => extend_errors (fst st) NON_FIELD_ERRORS messages
    | None => fst st
    end
  /\ f_cleaned_data (_update_errors fm md) = snd st
  /\ f_instance (_update_errors fm md) = f_instance fm
  /\ f_meta (_update_errors fm md) = f_meta fm
  /\ f_fields (_update_errors fm md) = f_fields fm
  /\ f_validate_unique (_update_errors fm md) = f_validate_unique fm.
Proof.
  unfold _update_errors.
  destruct (fold_left merge_error (map_to_list md) (f_errors fm, f_cleaned_data fm))
    as [e c].
  simpl. repeat split; reflexivity.
Qed.

Lemma update_errors_apart (fm : form) (md : gmap string (list string)) :
  errors_apart fm -> errors_apart (_update_errors fm md).
Proof.
  intros H.
  destruct (update_errors_fields fm md) as (He & Hc & _).
  assert (A : apart (fold_left merge_error (map_to_list md)
                       (f_errors fm, f_cleaned_data fm))).
  { apply fold_merge_error_apart. exact H. }
  intros k Hk Hs. rewrite Hc. apply A; [exact Hk |].
  rewrite He in Hs. destruct (md !! NON_FIELD_ERRORS); [| exact Hs].
  rewrite extend_errors_lookup in Hs.
  destruct (decide (NON_FIELD_ERRORS = k)); [congruence | exact Hs].
Qed.

Lemma update_errors_attaches (fm : form) (md : gmap string (list string)) (k : string) :
  k <> NON_FIELD_ERRORS -> is_Some (md !! k) ->
  is_Some (f_errors (_update_errors fm md) !! k)
  /\ f_cleaned_data (_update_errors fm md) !! k = None.
Proof.
  intros Hk [v Hv].
  destruct (update_errors_fields fm md) as (He & Hc & _).
  assert (Hin : In (k, v) (map_to_list md)).
  { apply list_elem_of_In, elem_of_map_to_list, Hv. }
  destruct (fold_merge_error_attaches k v (map_to_list md) Hk Hin
              (f_errors fm, f_cleaned_data fm)) as [Hs Hn].
  rewrite He, Hc. split; [| exact Hn].
  destruct (md !! NON_FIELD_ERRORS); [| exact Hs].
  rewrite extend_errors_lookup.
  destruct (decide (NON_FIELD_ERRORS = k)); [congruence | exact Hs].
Qed.

Lemma validate_unique_loop_apart (exclude : list string) (w : world) :
  forall (fs : list schema_field) (fm : form) (errors : list (gmap string (list string))),
    errors_apart fm ->
    errors_apart (snd (validate_unique_loop fs exclude fm w errors)).
Proof.
  induction fs as [|f rest IH]; intros fm errors H; simpl; [exact H |].
  destruct (unique f && negb (str_in (name f) exclude)); [| now apply IH].
  destruct (f_instance fm) as [c | d]; [exact H |].
  destruct (negb (cls_has_objects (d_class d))); [exact H |].
  unfold ref_pk. destruct (cls_id_field (d_class d)); [| exact H].
  match goal with |- context [if ?b then _ else _] => destruct b end.
  - destruct (cls_meta_is_dict (d_class d)); [exact H |].
    apply IH, update_errors_apart, H.
  - now apply IH.
Qed.

Lemma validate_unique_apart (fm : form) (w : world) :
  errors_apart fm -> errors_apart (snd (validate_unique fm w)).
Proof. apply validate_unique_loop_apart. Qed.

Lemma post_clean_apart (fm : form) (w : world) :
  errors_apart fm -> errors_apart (snd (fst (_post_clean fm w))).
Proof.
  intros H. unfold _post_clean.
  destruct (construct_instance _ _ _ _ w) as [[r instance] w1].
  destruct r as [[] | e].
  - set (fm1 := with_instance fm (IObj instance)).
    assert (H1 : errors_apart fm1) by exact H.
    destruct (clean_fields_loop _ instance _ []) as [to_delete failure].
    set (fm2 := match failure with
                | Some (f, message) => _update_errors fm1 {[name f := [message]]}
                | None => fm1
                end).
    assert (H2 : errors_apart fm2).
    { unfold fm2. destruct failure as [[f message] |]; [| exact H1].
      now apply update_errors_apart. }
    set (fm3 := with_delete_before_save fm2 to_delete).
    assert (H3 : errors_apart fm3) by exact H2.
    set (fm4 := match cls_clean (d_class instance) with
                | Some hook =>
                    match hook (d_data instance) with
                    | Some messages => _update_errors fm3 {[NON_FIELD_ERRORS := messages]}
                    | None => fm3
                    end
                | None => fm3
                end).
    assert (H4 : errors_apart fm4).
    { unfold fm4. destruct (cls_clean (d_class instance)) as [hook |]; [| exact H3].
      destruct (hook (d_data instance)); [| exact H3].
      now apply update_errors_apart. }
    destruct (f_validate_unique fm4); [| exact H4].
    pose proof (validate_unique_apart fm4 w1 H4) as H5.
    destruct (validate_unique fm4 w1) as [r fm5]. exact H5.
  - unfold keep_alias. destruct (f_instance fm); exact H.
Qed.

(** C10.  A form in which no named field has both an error and a
    cleaned value stays so through the error-merging step, through
    uniqueness validation and through the whole post-clean pass; and every
    named field the error-merging step is given an error for has an error
    attached and no entry in cleaned data afterwards. *)
Theorem errors_and_cleaned_data_apart (fm : form) :
  errors_apart fm ->
  (forall md, errors_apart (_update_errors fm md))
  /\ (forall md k, k <> NON_FIELD_ERRORS -> is_Some (md !! k) ->
        is_Some (f_errors (_update_errors fm md) !! k)
        /\ f_cleaned_data (_update_errors fm md) !! k = None)
  /\ (forall w, errors_apart (snd (validate_unique fm w)))
  /\ (forall w, errors_apart (snd (fst (_post_clean fm w)))).
Proof.
  intros H. split; [| split; [| split]].
  - intros md. now apply update_errors_apart.
  - intros md k. apply update_errors_attaches.
  - intros w. now apply validate_unique_apart.
  - intros w. now apply post_clean_apart.
Qed.

Lemma errors_and_cleaned_data_apart_witness :
  errors_apart twice_invalid_form
  /\ errors_apart (snd (fst (_post_clean twice_invalid_form empty_world)))
  /\ is_Some (f_errors (_update_errors twice_invalid_form {["code" := ["Invalid value"]]})
              !! "code")
  /\ f_cleaned_data (_update_errors twice_invalid_form {["code" := ["Invalid value"]]})
     !! "code" = None.
Proof.
  assert (H : errors_apart twice_invalid_form).
  { intros k _ [x Hx]. simpl in Hx. rewrite lookup_empty in Hx. discriminate. }
  destruct (errors_and_cleaned_data_apart twice_invalid_form H) as (_ & B & _ & D).
  split; [exact H |]. split; [apply D |].
  apply B; [discriminate |].
  exists ["Invalid value"]. apply lookup_singleton_eq.
Defined.

(** ** The instance after [_post_clean] *)

Lemma validate_unique_loop_instance (exclude : list string) (w : world) :
  forall (fs : list schema_field) (fm : form) (errors : list (gmap string (list string))),
    f_instance (snd (validate_unique_loop fs exclude fm w errors)) = f_instance fm.
Proof.
  induction fs as [|f rest IH]; intros fm errors; simpl; [reflexivity |].
  destruct (unique f && negb (str_in (name f) exclude)); [| apply IH].
  destruct (f_instance fm) as [c | d] eqn:Hi; [exact Hi |].
  destruct (negb (cls_has_objects (d_class d))); [exact Hi |].
  unfold ref_pk. destruct (cls_id_field (d_class d)); [| exact Hi].
  match goal with |- context [if ?b then _ else _] => destruct b end; [| now rewrite IH].
  destruct (cls_meta_is_dict (d_class d)); [exact Hi |].
  rewrite IH. destruct (update_errors_fields fm {[name f :=
    [unique_message (cls_verbose_name (d_class d)) (name f)]]}) as (_ & _ & -> & _).
  exact Hi.
Qed.

(** When [_post_clean] returns, the form holds a constructed instance,
    not the document class. *)
Lemma post_clean_constructs (fm fm' : form) (w w' : world) :
  _post_clean fm w = (Ok tt, fm', w') -> exists d, f_instance fm' = IObj d.
Proof.
  unfold _post_clean.
  destruct (construct_instance _ _ _ _ w) as [[r instance] w1].
  destruct r as [[] | e]; [| discriminate].
  destruct (clean_fields_loop _ instance _ []) as [to_delete failure].
  set (fm1 := with_instance fm (IObj instance)).
  set (fm2 := match failure with
              | Some (f, message) => _update_errors fm1 {[name f := [message]]}
              | None => fm1
              end).
  assert (H2 : f_instance fm2 = IObj instance).
  { unfold fm2. destruct failure as [[f message] |]; [| reflexivity].
    now destruct (update_errors_fields fm1 {[name f := [message]]}) as (_ & _ & -> & _). }
  set (fm3 := with_delete_before_save fm2 to_delete).
  set (fm4 := match cls_clean (d_class instance) with
              | Some hook =>
                  match hook (d_data instance) with
                  | Some messages => _update_errors fm3 {[NON_FIELD_ERRORS := messages]}
                  | None => fm3
                  end
              | None => fm3
              end).
  assert (H4 : f_instance fm4 = IObj instance).
  { unfold fm4. destruct (cls_clean (d_class instance)) as [hook |]; [| exact H2].
    destruct (hook (d_data instance)) as [messages |]; [| exact H2].
    now destruct (update_errors_fields fm3 {[NON_FIELD_ERRORS := messages]})
      as (_ & _ & -> & _). }
  destruct (f_validate_unique fm4).
  - pose proof (validate_unique_loop_instance (_get_validation_exclusions fm4) w1
                  (ref_fields (f_instance fm4)) fm4 []) as H5.
    unfold validate_unique.
    destruct (validate_unique_loop _ _ fm4 w1 []) as [r fm5]. simpl in H5.
    intros E. injection E as _ <- _. exists instance. congruence.
  - intros E. injection E as <- _. eauto.
Qed.

(** ** Uniqueness validation *)

Lemma str_in_app (n : string) (l1 l2 : list string) :
  str_in n (l1 ++ l2) = str_in n l1 || str_in n l2.
Proof. unfold str_in. apply existsb_app. Qed.

Lemma exclusions_loop_spec (fm : form) (n : string) :
  forall (fs : list schema_field) (acc : list string),
    str_in n (exclusions_loop fs fm acc)
    = str_in n acc
      || existsb (fun f => String.eqb n (name f) && excluded_field fm f) fs.
Proof.
  induction fs as [|f rest IH]; intros acc; simpl; [now rewrite orb_false_r |].
  rewrite IH. destruct (excluded_field fm f).
  - rewrite str_in_app. simpl. rewrite orb_false_r, andb_true_r.
    now rewrite orb_assoc.
  - now rewrite andb_false_r.
Qed.

(** A schema field that the exclusions do not name has passed every
    condition of the chain. *)
Lemma not_excluded_field (fm : form) (f : schema_field) :
  In f (ref_fields (f_instance fm)) ->
  str_in (name f) (_get_validation_exclusions fm) = false ->
  excluded_field fm f = false.
Proof.
  intros Hin H. unfold _get_validation_exclusions in H.
  rewrite exclusions_loop_spec in H. simpl in H.
  destruct (excluded_field fm f) eqn:E; [| reflexivity].
  assert (X : existsb (fun g => String.eqb (name f) (name g) && excluded_field fm g)
                (ref_fields (f_instance fm)) = true).
  { apply existsb_exists. exists f. split; [exact Hin |].
    now rewrite String.eqb_refl, E. }
  congruence.
Qed.

Lemma not_excluded_no_error (fm : form) (f : schema_field) :
  excluded_field fm f = false -> f_errors fm !! name f = None.
Proof.
  unfold excluded_field. intros H.
  destruct (negb (sd_has (name f) (f_fields fm))); [discriminate |].
  destruct (truthy_list (opt_fields (f_meta fm)) && _); [discriminate |].
  destruct (truthy_list (opt_exclude (f_meta fm)) && _); [discriminate |].
  destruct (has_key (f_errors fm) (name f)) eqn:E; [discriminate |].
  unfold has_key in E. apply bool_decide_eq_false in E.
  destruct (f_errors fm !! name f) eqn:L; [| reflexivity].
  exfalso. apply E. eauto.
Qed.

Lemma update_errors_singleton (fm : form) (k : string) (v : list string) :
  f_errors (_update_errors fm {[k := v]}) = extend_errors (f_errors fm) k v.
Proof.
  destruct (update_errors_fields fm {[k := v]}) as (He & _). rewrite He.
  rewrite map_to_list_singleton. simpl. unfold merge_error. simpl.
  destruct (String.eqb_spec k NON_FIELD_ERRORS) as [-> | Hne].
  - now rewrite lookup_singleton_eq.
  - now rewrite lookup_singleton_ne.
Qed.

Lemma nonempty_In {A} (l : list A) : (0 <? length l)%nat = true <-> exists x, In x l.
Proof.
  destruct l as [|x l]; simpl; split.
  - discriminate.
  - intros [x []].
  - intros _. exists x. now left.
  - reflexivity.
Qed.

Lemma query_same_value_In (w : world) (d : doc) (n : string) (r : stored_doc) :
  In r (query_same_value w (d_class d) n (getattr d n))
  <-> In r (w_docs w) /\ sd_class r = cls_name (d_class d)
      /\ py_eq (default VNone (sd_data r !! n)) (getattr d n) = true.
Proof.
  unfold query_same_value. rewrite List.filter_In, andb_true_iff, String.eqb_eq.
  tauto.
Qed.

Lemma conflict_found_spec (w : world) (d : doc) (pk : value) (n : string) :
  conflict_found w d pk n = true <-> has_conflict w d pk n.
Proof.
  unfold conflict_found, has_conflict, conflicts_with. rewrite nonempty_In.
  assert (F : forall r,
             In r (filter_pk_ne (query_same_value w (d_class d) n (getattr d n)) pk)
             <-> In r (w_docs w) /\ sd_class r = cls_name (d_class d)
                 /\ py_eq (default VNone (sd_data r !! n)) (getattr d n) = true
                 /\ py_eq (sd_pk r) pk = false).
  { intros r. unfold filter_pk_ne.
    rewrite List.filter_In, query_same_value_In, negb_true_iff. tauto. }
  destruct pk;
    try (split; intros (r & Hr); exists r;
         [apply F in Hr; tauto
         | apply F; destruct Hr as (? & ? & ? & [? | ?]); [discriminate | tauto]]).
  split; intros (r & Hr); exists r.
  - apply query_same_value_In in Hr. tauto.
  - apply query_same_value_In. tauto.
Qed.

Section ValidateUniqueLoop.
Variables (w : world) (d : doc) (idf : string) (exclude : list string).
Hypothesis class_has_objects : cls_has_objects (d_class d) = true.
Hypothesis class_id_field : cls_id_field (d_class d) = Some idf.
Hypothesis class_meta : cls_meta_is_dict (d_class d) = false.

Lemma validate_unique_step (f : schema_field) (rest : list schema_field) (fm : form)
    (errors : list (gmap string (list string))) :
  f_instance fm = IObj d ->
  validate_unique_loop (f :: rest) exclude fm w errors
  = if flags w d (getattr d idf) exclude f
    then validate_unique_loop rest exclude (_update_errors fm (unique_error d f)) w
           (errors ++ [unique_error d f])
    else validate_unique_loop rest exclude fm w errors.
Proof.
  intros Hi. simpl. unfold flags.
  destruct (unique f && negb (str_in (name f) exclude)); [| reflexivity].
  rewrite Hi, class_has_objects. simpl. rewrite class_id_field, class_meta.
reflexivity.
Qed.

Lemma validate_unique_loop_spec :
  forall (fs : list schema_field) (fm : form)
         (errors : list (gmap string (list string))),
    f_instance fm = IObj d ->
    List.NoDup (map name fs) ->
    exists fm',
      validate_unique_loop fs exclude fm w errors
      = (Ok (errors ++ map (unique_error d) (List.filter (flags w d (getattr d idf) exclude) fs)), fm')
      /\ (forall g, In g fs -> flags w d (getattr d idf) exclude g = true ->
            f_errors fm' !! name g
            = Some (default [] (f_errors fm !! name g)
                    ++ [unique_message (cls_verbose_name (d_class d)) (name g)]))
      /\ (forall k, (forall g, In g fs -> name g = k -> flags w d (getattr d idf) exclude g = false) ->
            f_errors fm' !! k = f_errors fm !! k).
Proof.
  induction fs as [|f rest IH]; intros fm errors Hi Hnd.
  - exists fm. simpl. rewrite app_nil_r.
    split; [reflexivity | split; [intros g [] | reflexivity]].
  - rewrite validate_unique_step by exact Hi.
    apply List.NoDup_cons_iff in Hnd. destruct Hnd as [Hnotin Hnd].
    assert (Hfresh : forall g, In g rest -> name g <> name f).
    { intros g Hg E. apply Hnotin. rewrite <- E. now apply in_map. }
    simpl. destruct (flags w d (getattr d idf) exclude f) eqn:Ef.
    + set (fm1 := _update_errors fm (unique_error d f)).
      assert (Hi1 : f_instance fm1 = IObj d).
      { unfold fm1. destruct (update_errors_fields fm (unique_error d f))
          as (_ & _ & -> & _). exact Hi. }
      assert (He1 : forall k, f_errors fm1 !! k
                      = if decide (name f = k)
                        then Some (default [] (f_errors fm !! name f)
                                   ++ [unique_message (cls_verbose_name (d_class d))
                                         (name f)])
                        else f_errors fm !! k).
      { intros k. unfold fm1, unique_error. rewrite update_errors_singleton.
        apply extend_errors_lookup. }
      destruct (IH fm1 (errors ++ [unique_error d f]) Hi1 Hnd) as (fm' & Hr & Ha & Hb).
      exists fm'. split; [| split].
      * rewrite Hr. simpl. now rewrite <- app_assoc.
      * intros g [<- | Hg] Hfl.
        -- rewrite Hb.
           ++ rewrite He1. now destruct (decide (name f = name f)).
           ++ intros g Hg E. now apply Hfresh in Hg.
        -- rewrite (Ha g Hg Hfl), He1.
           destruct (decide (name f = name g)) as [E | _]; [| reflexivity].
           symmetry in E. now apply Hfresh in Hg.
      * intros k Hk. rewrite Hb.
        -- rewrite He1. destruct (decide (name f = k)) as [E | _]; [| reflexivity].
           rewrite (Hk f (or_introl eq_refl) E) in Ef. discriminate.
        -- intros g Hg. apply Hk. now right.
    + destruct (IH fm errors Hi Hnd) as (fm' & Hr & Ha & Hb).
      exists fm'. split; [exact Hr | split].
      * intros g [<- | Hg] Hfl; [congruence | now apply Ha].
      * intros k Hk. apply Hb. intros g Hg. apply Hk. now right.
Qed.
End ValidateUniqueLoop.

(** C5.  Uniqueness validation on a stored or new document with an
    [objects] manager, an identity field and the upgraded [_meta].  For
    every schema field that is unique and not excluded: when some record
    of the collection shares the instance's value of the field, and has
    another identity if the instance has one, the field ends with exactly
    one error and no other; when no such record exists, also when the only
    record with that value is the instance's own, the field ends with no
    error.  The errors of fields that are not unique or are excluded are
    left as they were, and the list returned holds one error dict per
    flagged field. *)
Theorem validate_unique_flags_conflicts (fm : form) (w : world) (d : doc) (idf : string) :
  f_instance fm = IObj d ->
  cls_has_objects (d_class d) = true ->
  cls_id_field (d_class d) = Some idf ->
  cls_meta_is_dict (d_class d) = false ->
  List.NoDup (map name (d_fields d)) ->
  exists fm',
    validate_unique fm w
    = (Ok (map (unique_error d)
             (List.filter (flags w d (getattr d idf) (_get_validation_exclusions fm))
                (d_fields d))), fm')
    /\ forall f, In f (d_fields d) ->
         (unique f = true ->
          str_in (name f) (_get_validation_exclusions fm) = false ->
          (has_conflict w d (getattr d idf) (name f) ->
           f_errors fm' !! name f
           = Some [unique_message (cls_verbose_name (d_class d)) (name f)])
          /\ (~ has_conflict w d (getattr d idf) (name f) ->
              f_errors fm' !! name f = None))
         /\ (unique f = false \/ str_in (name f) (_get_validation_exclusions fm) = true ->
             f_errors fm' !! name f = f_errors fm !! name f).
Proof.
  intros Hi Ho Hid Hmeta Hnd. unfold validate_unique. rewrite Hi. simpl ref_fields.
  destruct (validate_unique_loop_spec w d idf (_get_validation_exclusions fm) Ho Hid Hmeta
              (d_fields d) fm [] Hi Hnd) as (fm' & Hr & Ha & Hb).
  exists fm'. split; [exact Hr |].
  assert (Hsame : forall f g, In f (d_fields d) -> In g (d_fields d) ->
                    name g = name f -> g = f).
  { clear -Hnd. induction (d_fields d) as [|x l IH]; intros f g Hf Hg E; [destruct Hf |].
    simpl in Hnd. apply List.NoDup_cons_iff in Hnd. destruct Hnd as [Hx Hl].
    destruct Hf as [<- | Hf], Hg as [<- | Hg].
    - reflexivity.
    - exfalso. apply Hx. rewrite <- E. now apply in_map.
    - exfalso. apply Hx. rewrite E. now apply in_map.
    - now apply IH. }
  intros f Hin. split.
  - intros Hu Hex.
    assert (Hnone : f_errors fm !! name f = None).
    { apply not_excluded_no_error, not_excluded_field; [| exact Hex].
      rewrite Hi. exact Hin. }
    split; intros Hc.
    + rewrite (Ha f Hin).
      * now rewrite Hnone.
      * unfold flags. rewrite Hu, Hex. simpl. now apply conflict_found_spec.
    + rewrite Hb; [exact Hnone |].
      intros g Hg E. apply (Hsame f g Hin Hg) in E. subst g.
      unfold flags. rewrite Hu, Hex. simpl.
      destruct (conflict_found w d (getattr d idf) (name f)) eqn:C; [| reflexivity].
      exfalso. now apply Hc, conflict_found_spec.
  - intros Hor. apply Hb. intros g Hg E. apply (Hsame f g Hin Hg) in E. subst g.
    unfold flags. destruct Hor as [-> | ->]; [reflexivity | now rewrite andb_false_r].
Qed.

Lemma validate_unique_flags_conflicts_witness :
  f_instance user_form = IObj (user (VInt 1) "ann@example.org")
  /\ List.NoDup (map name (d_fields (user (VInt 1) "ann@example.org")))
  /\ has_conflict taken_world (user (VInt 1) "ann@example.org") (VInt 1) "email"
  /\ ~ has_conflict own_record_world (user (VInt 1) "ann@example.org") (VInt 1) "email"
  /\ f_errors (snd (validate_unique user_form taken_world)) !! "email"
     = Some ["User with this Email already exists."]
  /\ f_errors (snd (validate_unique user_form own_record_world)) !! "email" = None.
Proof.
  assert (Hnd : List.NoDup (map name (d_fields (user (VInt 1) "ann@example.org")))).
  { apply List.NoDup_cons; [intros [H | []]; discriminate |].
    apply List.NoDup_cons; [intros [] | apply List.NoDup_nil]. }
  assert (Hc : has_conflict taken_world (user (VInt 1) "ann@example.org") (VInt 1)
                 "email").
  { exists (stored_user (VInt 2) "ann@example.org").
    split; [right; left; reflexivity |].
    split; [reflexivity |]. split; [reflexivity | right; reflexivity]. }
  assert (Hn : ~ has_conflict own_record_world (user (VInt 1) "ann@example.org") (VInt 1)
                 "email").
  { intros (r & [<- | [<- | []]] & _ & Hv & [Hp | Hp]); discriminate. }
  split; [reflexivity |]. split; [exact Hnd |]. split; [exact Hc |]. split; [exact Hn |].
  destruct (validate_unique_flags_conflicts user_form taken_world
              (user (VInt 1) "ann@example.org") "id" eq_refl eq_refl eq_refl eq_refl Hnd)
    as (fm1 & E1 & H1).
  destruct (validate_unique_flags_conflicts user_form own_record_world
              (user (VInt 1) "ann@example.org") "id" eq_refl eq_refl eq_refl eq_refl Hnd)
    as (fm2 & E2 & H2).
  rewrite E1, E2. simpl snd. split.
  - exact (proj1 (proj1 (H1 email_field (or_intror (or_introl eq_refl)))
                    eq_refl eq_refl) Hc).
  - exact (proj2 (proj1 (H2 email_field (or_intror (or_introl eq_refl)))
                    eq_refl eq_refl) Hn).
Defined.

(** ** Sorted dicts *)

Lemma str_in_In (n : string) (l : list string) : str_in n l = true <-> In n l.
Proof.
  unfold str_in. rewrite existsb_exists. split.
  - intros (x & Hx & E). apply String.eqb_eq in E. now subst.
  - intros H. exists n. split; [exact H | apply String.eqb_refl].
Qed.

Lemma str_in_false (n : string) (l : list string) : str_in n l = false <-> ~ In n l.
Proof. rewrite <- str_in_In. now destruct (str_in n l). Qed.

Lemma sd_keys_set {V} (k : string) (v : V) (sd : list (string * V)) :
  sd_keys (sd_set k v sd) = add_key (sd_keys sd) k.
Proof.
  unfold add_key, sd_keys, str_in.
  induction sd as [|[k' v'] rest IH]; simpl; [reflexivity |].
  destruct (String.eqb k k') eqn:E; simpl.
  - apply String.eqb_eq in E. now subst.
  - rewrite IH. now destruct (existsb (String.eqb k) (map fst rest)).
Qed.

Lemma sd_get_set {V} (n k : string) (v : V) (sd : list (string * V)) :
  sd_get n (sd_set k v sd) = if String.eqb n k then Some v else sd_get n sd.
Proof.
  induction sd as [|[k' v'] rest IH]; simpl.
  - reflexivity.
  - destruct (String.eqb k k') eqn:E; simpl.
    + apply String.eqb_eq in E. subst k'. now destruct (String.eqb n k).
    + rewrite IH. destruct (String.eqb n k') eqn:E'; [| reflexivity].
      apply String.eqb_eq in E'. subst k'.
      rewrite String.eqb_sym in E. now rewrite E.
Qed.

Lemma sd_keys_update {V} (other : list (string * V)) :
  forall sd, sd_keys (sd_update sd other) = fold_left add_key (sd_keys other) (sd_keys sd).
Proof.
  unfold sd_update. induction other as [|[k v] rest IH]; intros sd; simpl; [reflexivity |].
  now rewrite IH, sd_keys_set.
Qed.

Lemma add_key_In (acc : list string) (k n : string) :
  In n (add_key acc k) <-> In n acc \/ n = k.
Proof.
  unfold add_key. destruct (str_in k acc) eqn:E.
  - apply str_in_In in E. split; [tauto | intros [H | ->]; assumption].
  - rewrite in_app_iff. simpl. intuition.
Qed.

Lemma fold_add_key_In (l : list string) (n : string) :
  forall acc, In n (fold_left add_key l acc) <-> In n acc \/ In n l.
Proof.
  induction l as [|k rest IH]; intros acc; simpl; [tauto |].
  rewrite IH, add_key_In. intuition.
Qed.

Lemma add_key_NoDup (acc : list string) (k : string) :
  List.NoDup acc -> List.NoDup (add_key acc k).
Proof.
  intros H. unfold add_key. destruct (str_in k acc) eqn:E; [exact H |].
  apply str_in_false in E. apply List.NoDup_app; [exact H | |].
  - apply List.NoDup_cons; [intros [] | apply List.NoDup_nil].
  - intros a Ha [<- | []]. contradiction.
Qed.

Lemma fold_add_key_NoDup (l : list string) :
  forall acc, List.NoDup acc -> List.NoDup (fold_left add_key l acc).
Proof.
  induction l as [|k rest IH]; intros acc H; simpl; [exact H |].
  apply IH, add_key_NoDup, H.
Qed.

Lemma fold_add_key_fresh (l : list string) :
  forall acc, List.NoDup (acc ++ l) -> fold_left add_key l acc = acc ++ l.
Proof.
  induction l as [|k rest IH]; intros acc H; simpl; [now rewrite app_nil_r |].
  assert (E : add_key acc k = acc ++ [k]).
  { unfold add_key. destruct (str_in k acc) eqn:E; [| reflexivity].
    apply str_in_In in E. apply NoDup_ListNoDup, NoDup_app in H.
    destruct H as (_ & H & _).
    exfalso. apply (H k); [now apply list_elem_of_In | left]. }
  rewrite E, IH; rewrite <- app_assoc; [reflexivity | exact H].
Qed.

Lemma uniq_NoDup (l : list string) : List.NoDup l -> uniq l = l.
Proof. intros H. unfold uniq. now rewrite fold_add_key_fresh. Qed.

Lemma sd_get_update {V} (n : string) (other : list (string * V)) :
  forall sd,
    sd_get n (sd_update sd other)
    = match get_last n other with Some v => Some v | None => sd_get n sd end.
Proof.
  unfold sd_update. induction other as [|[k v] rest IH]; intros sd; simpl; [reflexivity |].
  rewrite IH. destruct (get_last n rest); [reflexivity |].
  rewrite sd_get_set. now destruct (String.eqb n k).
Qed.

Lemma get_last_map {V} (g : string -> V) (n : string) (ks : list string) :
  get_last n (map (fun k => (k, g k)) ks) = if str_in n ks then Some (g n) else None.
Proof.
  induction ks as [|k rest IH]; simpl; [reflexivity |].
  rewrite IH. destruct (str_in n rest) eqn:E.
  - now rewrite orb_true_r.
  - rewrite orb_false_r. destruct (String.eqb_spec n k) as [-> | _]; reflexivity.
Qed.

Lemma sd_get_None {V} (n : string) (sd : list (string * V)) :
  sd_get n sd = None <-> ~ In n (sd_keys sd).
Proof.
  induction sd as [|[k v] rest IH]; simpl; [tauto |].
  destruct (String.eqb_spec n k) as [-> | Hne].
  - split; [discriminate | intros H; exfalso; apply H; now left].
  - rewrite IH. intuition.
Qed.

Lemma get_last_NoDup {V} (n : string) (items : list (string * V)) :
  List.NoDup (sd_keys items) -> get_last n items = sd_get n items.
Proof.
  induction items as [|[k v] rest IH]; intros H; simpl; [reflexivity |].
  simpl in H. apply List.NoDup_cons_iff in H. destruct H as [Hk H].
  rewrite (IH H). destruct (String.eqb_spec n k) as [-> | Hne].
  - apply sd_get_None in Hk. now rewrite Hk.
  - now destruct (sd_get n rest).
Qed.

Lemma SortedDict_NoDup {V} (items : list (string * V)) :
  List.NoDup (sd_keys items) -> SortedDict items = items.
Proof.
  unfold SortedDict, sd_update.
  assert (G : forall acc : list (string * V),
             List.NoDup (sd_keys acc ++ sd_keys items) ->
             fold_left (fun a kv => sd_set (fst kv) (snd kv) a) items acc = acc ++ items).
  { induction items as [|[k v] rest IH]; intros acc H; simpl; [now rewrite app_nil_r |].
    assert (E : sd_set k v acc = acc ++ [(k, v)]).
    { assert (Hk : ~ In k (sd_keys acc)).
      { apply NoDup_ListNoDup, NoDup_app in H. destruct H as (_ & H & _). intros X.
        apply (H k); [now apply list_elem_of_In | left]. }
      clear -Hk. induction acc as [|[k' v'] acc IH]; simpl; [reflexivity |].
      destruct (String.eqb_spec k k') as [-> | _].
      - exfalso. apply Hk. now left.
      - rewrite IH; [reflexivity |]. intros X. apply Hk. now right. }
    rewrite E, IH.
    - now rewrite <- app_assoc.
    - unfold sd_keys in *. rewrite map_app, <- app_assoc. exact H. }
  intros H. now apply (G []).
Qed.

(** ** [fields_for_document] *)

Lemma derive_fields_spec (fields exclude : option (list string))
    (widgets : option (gmap string string)) (cb : option callback) (gen : generator) :
  cb <> Some NotCallable ->
  forall (fs : list schema_field) (field_list : list (string * formfield))
         (ignored : list string),
    derive_fields fs fields exclude widgets cb gen field_list ignored
    = Ok (field_list
          ++ omap (fun f => (fun ff => (name f, ff)) <$> produce widgets cb gen f)
               (List.filter (passes fields exclude) fs),
          ignored
          ++ omap (fun f => match produce widgets cb gen f with
                            | Some _ => None
                            | None => Some (name f)
                            end)
               (List.filter (passes fields exclude) fs)).
Proof.
  intros Hcb. induction fs as [|f rest IH]; intros field_list ignored; simpl.
  - now rewrite !app_nil_r.
  - unfold passes, derivable.
    destruct (is_ObjectIdField f || is_ListField f); simpl; [apply IH |].
    destruct (not_listed fields (name f)); simpl; [apply IH |].
    destruct (listed_in exclude (name f)); simpl; [apply IH |].
    assert (E : match cb with
                | Some (Callable fn) => fn f (widgets ≫= (fun ws => ws !! name f))
                | _ => gen (name f) f
                end = produce widgets cb gen f) by reflexivity.
    destruct cb as [[fn |] |]; [| contradiction |];
      rewrite E; destruct (produce widgets _ gen f); simpl;
      rewrite IH, <- app_assoc; reflexivity.
Qed.

Lemma fields_for_document_upgrade (c : doc_class) fields exclude widgets cb gen :
  fields_for_document (if cls_meta_is_dict c then upgrade_meta c else c)
    fields exclude widgets cb gen
  = fields_for_document c fields exclude widgets cb gen.
Proof. destruct (cls_meta_is_dict c); reflexivity. Qed.

Lemma auto_derived_keys (document : doc_class) fields exclude widgets cb gen (n : string) :
  In n (sd_keys (auto_derived document fields exclude widgets cb gen))
  <-> exists f, In f (cls_fields document) /\ name f = n /\ passes fields exclude f = true
                /\ is_Some (produce widgets cb gen f).
Proof.
  unfold auto_derived, sd_keys. rewrite in_map_iff. split.
  - intros ([k ff] & <- & Hin). apply list_elem_of_In, list_elem_of_omap in Hin.
    destruct Hin as (f & Hf & Hp). apply list_elem_of_In, List.filter_In in Hf.
    destruct (produce widgets cb gen f) as [ff' |] eqn:P; [| discriminate].
    simpl in Hp. injection Hp as <- <-. exists f. simpl. intuition eauto.
  - intros (f & Hf & <- & Hp & [ff P]). exists (name f, ff). split; [reflexivity |].
    apply list_elem_of_In, list_elem_of_omap. exists f. split.
    + apply list_elem_of_In, List.filter_In. now split.
    + now rewrite P.
Qed.

Lemma ignored_names_In (document : doc_class) fields exclude widgets cb gen (n : string) :
  In n (ignored_names document fields exclude widgets cb gen)
  <-> exists f, In f (cls_fields document) /\ name f = n /\ passes fields exclude f = true
                /\ produce widgets cb gen f = None.
Proof.
  unfold ignored_names. split.
  - intros Hin. apply list_elem_of_In, list_elem_of_omap in Hin.
    destruct Hin as (f & Hf & Hp). apply list_elem_of_In, List.filter_In in Hf.
    destruct (produce widgets cb gen f) eqn:P; [discriminate |].
    injection Hp as <-. exists f. intuition.
  - intros (f & Hf & <- & Hp & P).
    apply list_elem_of_In, list_elem_of_omap. exists f. split.
    + apply list_elem_of_In, List.filter_In. now split.
    + now rewrite P.
Qed.

Lemma omap_keys_NoDup (g : schema_field -> option formfield) (fs : list schema_field) :
  List.NoDup (map name fs) ->
  List.NoDup (sd_keys (omap (fun f => (fun ff => (name f, ff)) <$> g f) fs)).
Proof.
  induction fs as [|f rest IH]; intros H; simpl; [apply List.NoDup_nil |].
  simpl in H. apply List.NoDup_cons_iff in H. destruct H as [Hf H].
  destruct (g f) as [ff |]; simpl; [| now apply IH].
  apply List.NoDup_cons; [| now apply IH].
  intros X. apply Hf. unfold sd_keys in X. apply in_map_iff in X.
  destruct X as ([k v] & E & Hin). simpl in E. subst k.
  apply list_elem_of_In, list_elem_of_omap in Hin. destruct Hin as (f' & Hf' & E).
  destruct (g f'); [| discriminate]. simpl in E. injection E as E _.
  rewrite <- E. apply in_map. now apply list_elem_of_In.
Qed.

Lemma filter_names_NoDup (p : schema_field -> bool) (fs : list schema_field) :
  List.NoDup (map name fs) -> List.NoDup (map name (List.filter p fs)).
Proof.
  induction fs as [|f rest IH]; intros H; simpl; [apply List.NoDup_nil |].
  simpl in H. apply List.NoDup_cons_iff in H. destruct H as [Hf H].
  destruct (p f); simpl; [| now apply IH].
  apply List.NoDup_cons; [| now apply IH].
  intros X. apply Hf. apply in_map_iff in X. destruct X as (g & E & Hg).
  apply List.filter_In in Hg. rewrite <- E. apply in_map, Hg.
Qed.

Lemma auto_derived_NoDup (document : doc_class) fields exclude widgets cb gen :
  List.NoDup (map name (cls_fields document)) ->
  List.NoDup (sd_keys (auto_derived document fields exclude widgets cb gen)).
Proof. intros H. unfold auto_derived. now apply omap_keys_NoDup, filter_names_NoDup. Qed.

Lemma kept_in_order_spec (exclude : option (list string)) (ignored : list string)
    (n : string) :
  kept_in_order exclude ignored n = negb (listed_in exclude n) && negb (str_in n ignored).
Proof.
  unfold kept_in_order, listed_in.
  destruct (truthy_list exclude); simpl; [| reflexivity].
  now destruct (str_in n (default [] exclude)).
Qed.

(** What [fields_for_document] returns, with a callable callback or
    none. *)
Lemma fields_for_document_spec (document : doc_class) fields exclude widgets cb gen :
  cb <> Some NotCallable ->
  fields_for_document document fields exclude widgets cb gen
  = Ok (let field_dict := SortedDict (auto_derived document fields exclude widgets cb gen) in
        if truthy_list fields then
          SortedDict
            (map (fun f => (f, sd_get f field_dict))
               (List.filter
                  (kept_in_order exclude
                     (ignored_names document fields exclude widgets cb gen))
                  (default [] fields)))
        else map (fun kv => (fst kv, Some (snd kv))) field_dict).
Proof.
  intros Hcb. unfold fields_for_document.
  rewrite (derive_fields_spec fields exclude widgets cb gen Hcb). simpl.
  now destruct (truthy_list fields).
Qed.

Lemma get_last_fmap {V W} (g : V -> W) (n : string) (items : list (string * V)) :
  get_last n (map (fun kv => (fst kv, g (snd kv))) items) = g <$> get_last n items.
Proof.
  induction items as [|[k v] rest IH]; simpl; [reflexivity |].
  rewrite IH. destruct (get_last n rest); simpl; [reflexivity |].
  now destruct (String.eqb n k).
Qed.

Lemma keys_of_listed {V} (g : string -> V) (ks : list string) :
  sd_keys (map (fun k => (k, g k)) ks) = ks.
Proof. unfold sd_keys. rewrite map_map. simpl. apply map_id. Qed.

Lemma SortedDict_listed_keys {V} (g : string -> V) (ks : list string) :
  sd_keys (SortedDict (map (fun k => (k, g k)) ks)) = uniq ks.
Proof. unfold SortedDict. rewrite sd_keys_update, keys_of_listed. reflexivity. Qed.

Lemma SortedDict_listed_get {V} (g : string -> V) (ks : list string) (n : string) :
  sd_get n (SortedDict (map (fun k => (k, g k)) ks))
  = if str_in n ks then Some (g n) else None.
Proof.
  unfold SortedDict. rewrite sd_get_update, get_last_map.
  now destruct (str_in n ks).
Qed.

Lemma uniq_In (l : list string) (n : string) : In n (uniq l) <-> In n l.
Proof. unfold uniq. rewrite fold_add_key_In. simpl. tauto. Qed.

(** What the metaclass does once the options are made. *)
Lemma metaclass_with_document (document : doc_class) fields exclude widgets emb
    (declared : list (string * formfield)) cb gen :
  DocumentFormMetaclass_new true
    (Some (MetaBlock (Some document) fields exclude widgets emb)) declared cb gen
  = match fields_for_document document fields exclude widgets cb gen with
    | Raise e => Raise e
    | Ok auto =>
        match missing_fields auto declared with
        | (_ :: _) as missing =>
            Raise (FieldError (unknown_fields_message missing (cls_name document)))
        | [] =>
            Ok {| fc_meta :=
                    Some (Options
                            (Some (if cls_meta_is_dict document
                                   then upgrade_meta document else document))
                            (Some (if cls_meta_is_dict document
                                   then upgrade_meta document else document))
                            fields exclude widgets emb);
                  fc_declared_fields := Some declared;
                  fc_base_fields :=
                    Some (sd_update auto
                            (map (fun kv => (fst kv, Some (snd kv))) declared)) |}
        end
    end.
Proof.
  unfold DocumentFormMetaclass_new, ModelFormOptions_init. simpl.
  rewrite fields_for_document_upgrade.
  destruct (fields_for_document document fields exclude widgets cb gen) as [auto | e];
    [| reflexivity].
  destruct (missing_fields auto declared); [reflexivity |].
  now destruct (cls_meta_is_dict document).
Qed.

(** C4 (as amended).  With schema field names that are distinct and a
    callback that is callable or absent, [fields_for_document] returns a
    mapping.  Without a non-empty allow-list it holds exactly the
    non-identity, non-collection schema fields that the allow-list and
    the deny-list admit and for which a form field was made, in schema
    order.  With a non-empty allow-list its keys are the allow-list names
    that are not on the deny-list and name no field left without a form
    field, in allow-list order, each with its auto-derived field if it has
    one.  In the mapping of a class the metaclass accepts, every declared
    field replaces the auto-derived one of the same name, the other names
    keep their auto-derived entry, and keys that are only declared come
    after the auto-derived ones. *)
Theorem auto_derived_mapping (document : doc_class) (fields exclude : option (list string))
    (widgets : option (gmap string string)) (emb : option string)
    (declared : list (string * formfield)) (cb : option callback) (gen : generator) :
  List.NoDup (map name (cls_fields document)) ->
  List.NoDup (sd_keys declared) ->
  cb <> Some NotCallable ->
  let derived := auto_derived document fields exclude widgets cb gen in
  let ignored := ignored_names document fields exclude widgets cb gen in
  exists auto,
    fields_for_document document fields exclude widgets cb gen = Ok auto
    /\ (truthy_list fields = false ->
        auto = map (fun kv => (fst kv, Some (snd kv))) derived)
    /\ (truthy_list fields = true ->
        sd_keys auto
        = uniq (List.filter
                  (fun n => negb (listed_in exclude n) && negb (str_in n ignored))
                  (default [] fields))
        /\ forall n, In n (sd_keys auto) -> sd_get n auto = Some (sd_get n derived))
    /\ forall fc,
         DocumentFormMetaclass_new true
           (Some (MetaBlock (Some document) fields exclude widgets emb)) declared cb gen
         = Ok fc ->
         exists final,
           fc_base_fields fc = Some final
           /\ sd_keys final = fold_left add_key (sd_keys declared) (sd_keys auto)
           /\ (forall n ff, sd_get n declared = Some ff -> sd_get n final = Some (Some ff))
           /\ (forall n, sd_get n declared = None -> sd_get n final = sd_get n auto).
Proof.
  intros Hnd Hdecl Hcb derived ignored.
  pose proof (auto_derived_NoDup document fields exclude widgets cb gen Hnd) as Hd.
  eexists. split; [apply (fields_for_document_spec _ _ _ _ _ _ Hcb) |].
  fold derived. fold ignored. rewrite (SortedDict_NoDup derived Hd).
  split; [| split].
  - intros Ht. simpl. now rewrite Ht.
  - intros Ht. simpl. rewrite Ht.
    rewrite <- (List.filter_ext _ _ (kept_in_order_spec exclude ignored)).
    split.
    + apply SortedDict_listed_keys.
    + intros n Hn. rewrite SortedDict_listed_keys in Hn.
      apply (proj1 (uniq_In _ _)) in Hn. apply (proj2 (str_in_In _ _)) in Hn.
      rewrite SortedDict_listed_get. now rewrite Hn.
  - intros fc Hfc. rewrite metaclass_with_document in Hfc.
    rewrite (fields_for_document_spec _ _ _ _ _ _ Hcb) in Hfc.
    fold derived in Hfc. fold ignored in Hfc. rewrite (SortedDict_NoDup derived Hd) in Hfc.
    simpl in Hfc.
    match type of Hfc with
    | match missing_fields ?a _ with _ => _ end = _ => set (auto := a) in *
    end.
    destruct (missing_fields auto declared); [| discriminate].
    injection Hfc as <-. simpl. eexists. split; [reflexivity |].
    split; [| split].
    + rewrite sd_keys_update. f_equal. unfold sd_keys. rewrite map_map. reflexivity.
    + intros n ff Hn. rewrite sd_get_update, get_last_fmap, (get_last_NoDup n declared Hdecl).
      now rewrite Hn.
    + intros n Hn. rewrite sd_get_update, get_last_fmap, (get_last_NoDup n declared Hdecl).
      now rewrite Hn.
Qed.

(** ** The check of the allow-list *)

Lemma sd_get_In {V} (sd : list (string * V)) (n : string) (v : V) :
  List.NoDup (sd_keys sd) -> (In (n, v) sd <-> sd_get n sd = Some v).
Proof.
  induction sd as [|[k x] rest IH]; intros H; simpl.
  - split; [intros [] | discriminate].
  - simpl in H. apply List.NoDup_cons_iff in H. destruct H as [Hk H].
    destruct (String.eqb_spec n k) as [-> | Hne].
    + split.
      * intros [E | Hin]; [now injection E as -> |].
        exfalso. apply Hk. unfold sd_keys. apply in_map_iff. now exists (k, v).
      * intros E. injection E as ->. now left.
    + rewrite <- (IH H). split.
      * intros [E | Hin]; [injection E as -> ->; contradiction | exact Hin].
      * intros Hin. now right.
Qed.

Lemma filter_keys_NoDup {V} (p : string * V -> bool) (sd : list (string * V)) :
  List.NoDup (sd_keys sd) -> List.NoDup (sd_keys (List.filter p sd)).
Proof.
  induction sd as [|kv rest IH]; intros H; simpl; [apply List.NoDup_nil |].
  simpl in H. apply List.NoDup_cons_iff in H. destruct H as [Hk H].
  destruct (p kv); simpl; [| now apply IH].
  apply List.NoDup_cons; [| now apply IH].
  intros X. apply Hk. unfold sd_keys in *. apply in_map_iff in X.
  destruct X as (y & E & Hy). apply List.filter_In in Hy. rewrite <- E.
  apply in_map, Hy.
Qed.

Lemma none_document_fields_In (auto : list (string * option formfield)) (n : string) :
  List.NoDup (sd_keys auto) ->
  (In n (none_document_fields auto) <-> sd_get n auto = Some None).
Proof.
  intros H. unfold none_document_fields. rewrite in_map_iff.
  rewrite <- (sd_get_In auto n None H). split.
  - intros ([k v] & <- & Hin). apply List.filter_In in Hin. destruct Hin as [Hin Hv].
    simpl in *. destruct v; [discriminate | exact Hin].
  - intros Hin. exists (n, None). split; [reflexivity |].
    apply List.filter_In. split; [exact Hin | reflexivity].
Qed.

Lemma missing_fields_In (auto : list (string * option formfield))
    (declared : list (string * formfield)) (n : string) :
  List.NoDup (sd_keys auto) ->
  (In n (missing_fields auto declared)
   <-> sd_get n auto = Some None /\ sd_has n declared = false).
Proof.
  intros H. unfold missing_fields.
  rewrite List.filter_In, (none_document_fields_In auto n H), negb_true_iff. tauto.
Qed.

Lemma missing_fields_NoDup (auto : list (string * option formfield))
    (declared : list (string * formfield)) :
  List.NoDup (sd_keys auto) -> List.NoDup (missing_fields auto declared).
Proof.
  intros H. unfold missing_fields, none_document_fields.
  apply List.NoDup_filter. now apply (filter_keys_NoDup _ auto).
Qed.

Lemma SortedDict_keys_NoDup {V} (items : list (string * V)) :
  List.NoDup (sd_keys (SortedDict items)).
Proof.
  unfold SortedDict. rewrite sd_keys_update. apply fold_add_key_NoDup, List.NoDup_nil.
Qed.

Lemma SortedDict_get_None {V} (items : list (string * V)) (n : string) :
  sd_get n (SortedDict items) = None <-> ~ In n (sd_keys items).
Proof.
  rewrite sd_get_None. unfold SortedDict. rewrite sd_keys_update, fold_add_key_In.
  simpl. tauto.
Qed.

(** An allow-list name that stays in the reordered mapping without a
    field is one that names no derivable schema field. *)
Lemma no_field_iff_not_derivable (document : doc_class) fields exclude widgets cb gen
    (n : string) :
  truthy_list fields = true ->
  str_in n (default [] fields) = true ->
  (kept_in_order exclude (ignored_names document fields exclude widgets cb gen) n = true
   /\ ~ In n (sd_keys (auto_derived document fields exclude widgets cb gen)))
  <-> (listed_in exclude n = false
       /\ existsb (fun f => String.eqb (name f) n && derivable f) (cls_fields document)
          = false).
Proof.
  intros Ht Hl.
  assert (Hnl : forall f, name f = n -> not_listed fields (name f) = false).
  { intros f ->. unfold not_listed. destruct fields as [l |]; [| reflexivity].
    simpl in Hl. now rewrite Hl. }
  rewrite kept_in_order_spec, andb_true_iff, !negb_true_iff, str_in_false.
  rewrite auto_derived_keys, ignored_names_In.
  split.
  - intros [[Hx Hi] Hd]. split; [exact Hx |].
    destruct (existsb _ (cls_fields document)) eqn:E; [| reflexivity].
    exfalso. apply existsb_exists in E. destruct E as (f & Hf & E).
    apply andb_true_iff in E. destruct E as [E Hder]. apply String.eqb_eq in E.
    assert (Hp : passes fields exclude f = true).
    { unfold passes. rewrite Hder, (Hnl f E), E, Hx. reflexivity. }
    destruct (produce widgets cb gen f) eqn:P.
    + apply Hd. exists f. rewrite P. eauto.
    + apply Hi. exists f. eauto.
  - intros [Hx He]. split; [split; [exact Hx |] |].
    + intros (f & Hf & E & Hp & _).
      assert (X : existsb (fun f => String.eqb (name f) n && derivable f)
                    (cls_fields document) = true).
      { apply existsb_exists. exists f. split; [exact Hf |].
        unfold passes in Hp. apply andb_true_iff in Hp. destruct Hp as [Hp _].
        apply andb_true_iff in Hp. destruct Hp as [Hp _].
        rewrite Hp, E. now rewrite String.eqb_refl. }
      congruence.
    + intros (f & Hf & E & Hp & _).
      assert (X : existsb (fun f => String.eqb (name f) n && derivable f)
                    (cls_fields document) = true).
      { apply existsb_exists. exists f. split; [exact Hf |].
        unfold passes in Hp. apply andb_true_iff in Hp. destruct Hp as [Hp _].
        apply andb_true_iff in Hp. destruct Hp as [Hp _].
        rewrite Hp, E. now rewrite String.eqb_refl. }
      congruence.
Qed.

Lemma missing_fields_unknown (document : doc_class) fields exclude widgets cb gen
    (declared : list (string * formfield)) (auto : list (string * option formfield))
    (n : string) :
  cb <> Some NotCallable ->
  fields_for_document document fields exclude widgets cb gen = Ok auto ->
  List.NoDup (missing_fields auto declared)
  /\ (In n (missing_fields auto declared)
      <-> unknown_name document fields exclude declared n = true).
Proof.
  intros Hcb Hauto. rewrite (fields_for_document_spec _ _ _ _ _ _ Hcb) in Hauto.
  injection Hauto as <-. simpl. unfold unknown_name.
  destruct (truthy_list fields) eqn:Ht.
  - split; [apply missing_fields_NoDup, SortedDict_keys_NoDup |].
    rewrite missing_fields_In by apply SortedDict_keys_NoDup.
    rewrite SortedDict_listed_get. simpl.
    rewrite !andb_true_iff, !negb_true_iff.
    destruct (str_in n (default [] fields)) eqn:Hl.
    + pose proof (no_field_iff_not_derivable document fields exclude widgets cb gen n
                    Ht Hl) as Hiff.
      pose proof (SortedDict_get_None
                    (auto_derived document fields exclude widgets cb gen) n) as Hnone.
      destruct (str_in n (List.filter _ (default [] fields))) eqn:Hf.
      * apply str_in_In, List.filter_In in Hf. destruct Hf as [_ Hk].
        split.
        -- intros [E Hd]. injection E as E. apply Hnone in E.
           destruct (proj1 Hiff (conj Hk E)) as [A B]. tauto.
        -- intros [[[_ A] B] Hd]. destruct (proj2 Hiff (conj A B)) as [_ E].
           apply Hnone in E. rewrite E. tauto.
      * split; [intros [E _]; discriminate |].
        intros [[[_ A] B] _]. exfalso. destruct (proj2 Hiff (conj A B)) as [Hk _].
        apply str_in_false in Hf. apply Hf, List.filter_In.
        split; [now apply str_in_In | exact Hk].
    + assert (Hf : str_in n (List.filter
                               (kept_in_order exclude
                                  (ignored_names document fields exclude widgets cb gen))
                               (default [] fields)) = false).
      { apply str_in_false. intros X. apply List.filter_In in X. destruct X as [X _].
        apply str_in_In in X. congruence. }
      rewrite Hf. split; [intros [E _]; discriminate | intros [[[E _] _] _]; discriminate].
  - simpl. split.
    + apply missing_fields_NoDup.
      unfold sd_keys. rewrite map_map. simpl. apply SortedDict_keys_NoDup.
    + assert (E : none_document_fields
                    (map (fun kv : string * formfield => (fst kv, Some (snd kv)))
                       (SortedDict (auto_derived document fields exclude widgets cb gen)))
                  = []).
      { unfold none_document_fields.
        induction (SortedDict _) as [|kv rest IH]; simpl; [reflexivity | exact IH]. }
      unfold missing_fields. rewrite E. simpl. split; [intros [] | discriminate].
Qed.

(** C3 (as amended).  For a form class with a document class and a
    callback that is callable or absent: when the allow-list holds a name
    that is not on the deny-list, names no non-identity, non-collection
    schema field and is not declared, class definition fails with the
    configuration error whose message lists exactly those names, each
    once, and the document class; when it holds no such name, class
    definition succeeds. *)
Theorem unknown_allow_list_names_rejected (document : doc_class)
    (fields exclude : option (list string)) (widgets : option (gmap string string))
    (emb : option string) (declared : list (string * formfield))
    (cb : option callback) (gen : generator) :
  cb <> Some NotCallable ->
  let result :=
    DocumentFormMetaclass_new true
      (Some (MetaBlock (Some document) fields exclude widgets emb)) declared cb gen in
  ((exists n, unknown_name document fields exclude declared n = true) ->
   exists missing,
     result = Raise (FieldError (unknown_fields_message missing (cls_name document)))
     /\ List.NoDup missing
     /\ forall n, In n missing <-> unknown_name document fields exclude declared n = true)
  /\ ((forall n, unknown_name document fields exclude declared n = false) ->
      exists fc, result = Ok fc).
Proof.
  intros Hcb result. unfold result. rewrite metaclass_with_document.
  destruct (fields_for_document document fields exclude widgets cb gen) as [auto | e] eqn:Ha.
  2: { rewrite (fields_for_document_spec _ _ _ _ _ _ Hcb) in Ha. discriminate. }
  assert (Hm : forall n, In n (missing_fields auto declared)
                         <-> unknown_name document fields exclude declared n = true).
  { intros n. now apply (missing_fields_unknown document fields exclude widgets cb gen). }
  assert (Hnd : List.NoDup (missing_fields auto declared)).
  { now apply (missing_fields_unknown document fields exclude widgets cb gen declared auto ""). }
  split.
  - intros (n & Hn). apply Hm in Hn.
    destruct (missing_fields auto declared) as [|m rest] eqn:E; [destruct Hn |].
    exists (m :: rest). split; [reflexivity |]. split; [exact Hnd | exact Hm].
  - intros Hall. destruct (missing_fields auto declared) as [|m rest] eqn:E; [eauto |].
    exfalso. assert (X : In m (m :: rest)) by now left.
    apply Hm in X. rewrite Hall in X. discriminate.
Qed.

Lemma auto_derived_mapping_witness :
  List.NoDup (map name (cls_fields Article))
  /\ (Some skip_note : option callback) <> Some NotCallable
  /\ fields_for_document Article None None None (Some skip_note) sample_generator
     = Ok [("title", Some char_field)]
  /\ forall fc,
       DocumentFormMetaclass_new true (Some (MetaBlock (Some Article) None None None None))
         [("title", text_area)] (Some skip_note) sample_generator = Ok fc ->
       exists final,
         fc_base_fields fc = Some final /\ sd_get "title" final = Some (Some text_area).
Proof.
  assert (Hnd : List.NoDup (map name (cls_fields Article))).
  { apply List.NoDup_cons; [intros [H | [H | []]]; discriminate |].
    apply List.NoDup_cons; [intros [H | []]; discriminate |].
    apply List.NoDup_cons; [intros [] | apply List.NoDup_nil]. }
  assert (Hd : List.NoDup (sd_keys [("title", text_area)])).
  { apply List.NoDup_cons; [intros [] | apply List.NoDup_nil]. }
  assert (Hcb : (Some skip_note : option callback) <> Some NotCallable) by discriminate.
  destruct (auto_derived_mapping Article None None None None [("title", text_area)]
              (Some skip_note) sample_generator Hnd Hd Hcb) as (auto & Ha & Hn & _ & Hf).
  split; [exact Hnd |]. split; [exact Hcb |]. split.
  - rewrite Ha, (Hn eq_refl). reflexivity.
  - intros fc Hfc. destruct (Hf fc Hfc) as (final & E & _ & Hdecl & _).
    exists final. split; [exact E |]. now apply Hdecl.
Defined.

(** The claim C4 as stated fails: with a callback that makes no form
    field for [note], the auto-derived mapping of [Article] lacks [note],
    a non-identity, non-collection schema field that no list filters
    out. *)
Lemma ignored_field_not_derived :
  ~ derives_every_admitted_field Article None None None (Some skip_note) sample_generator.
Proof.
  intros (auto & Ha & Hk). vm_compute in Ha. injection Ha as <-.
  vm_compute in Hk. discriminate.
Qed.

Lemma unknown_allow_list_names_rejected_witness :
  (None : option callback) <> Some NotCallable
  /\ unknown_name Article (Some ["zzz"; "title"]) None [] "zzz" = true
  /\ exists missing,
       DocumentFormMetaclass_new true
         (Some (MetaBlock (Some Article) (Some ["zzz"; "title"]) None None None))
         [] None sample_generator
       = Raise (FieldError (unknown_fields_message missing "Article"))
       /\ (In "zzz" missing /\ ~ In "title" missing).
Proof.
  assert (Hcb : (None : option callback) <> Some NotCallable) by discriminate.
  split; [exact Hcb |]. split; [reflexivity |].
  destruct (proj1 (unknown_allow_list_names_rejected Article (Some ["zzz"; "title"]) None
                     None None [] None sample_generator Hcb))
    as (missing & Hr & _ & Hm).
  { exists "zzz". reflexivity. }
  exists missing. split; [exact Hr |]. split.
  - now apply Hm.
  - intros X. apply Hm in X. discriminate.
Defined.

(** The claim C3 as stated fails: ["zzz"] is on the allow-list of a form
    class for [Article], has no auto-derived field and is not declared,
    yet the class is defined without error, because the name is on the
    deny-list as well. *)
Lemma unknown_name_on_deny_list_accepted :
  ~ allow_list_enforced Article (Some ["zzz"]) (Some ["zzz"]) None [] None sample_generator.
Proof.
  intros H. destruct (H [] "zzz" eq_refl (or_introl eq_refl)) as [msg Hm].
  - intros [[ff E] | E]; discriminate.
  - vm_compute in Hm. discriminate.
Qed.

(** ** The formset's [save] *)

Lemma store_files_ok (cleaned_data : gmap string value) :
  forall (ffl : list schema_field) (instance : doc) (w : world),
    (forall f, In f ffl -> exists u, cleaned_data !! name f = Some (VUpload u)) ->
    exists instance' w',
      store_files ffl cleaned_data instance w = (Ok tt, instance', w')
      /\ d_class instance' = d_class instance.
Proof.
  induction ffl as [|f rest IH]; intros instance w H; simpl; [eauto |].
  destruct (H f (or_introl eq_refl)) as [u ->].
  unfold proxy_replace, fs_put.
  edestruct IH as (instance' & w' & E & C); [intros g Hg; apply H; now right |].
  exists instance', w'. split; [exact E | exact C].
Qed.

Lemma assign_fields_spec (cleaned_data : gmap string value)
    (fields exclude : option (list string)) :
  forall (fs : list schema_field) (instance : doc) (ffl : list schema_field),
    d_class (fst (assign_fields fs cleaned_data fields exclude instance ffl))
    = d_class instance
    /\ forall f, In f (snd (assign_fields fs cleaned_data fields exclude instance ffl)) ->
         In f ffl
         \/ (In f fs /\ is_FileField f = true /\ is_Some (cleaned_data !! name f)).
Proof.
  induction fs as [|f rest IH]; intros instance ffl; simpl; [tauto |].
  destruct (is_ObjectIdField f).
  { destruct (IH instance ffl) as [C F]. split; [exact C |]. intros g Hg.
    destruct (F g Hg) as [? | (? & ? & ?)]; tauto. }
  destruct (has_key cleaned_data (name f)) eqn:K; simpl.
  2: { destruct (IH instance ffl) as [C F]. split; [exact C |]. intros g Hg.
       destruct (F g Hg) as [? | (? & ? & ?)]; tauto. }
  destruct (not_listed fields (name f)).
  { destruct (IH instance ffl) as [C F]. split; [exact C |]. intros g Hg.
    destruct (F g Hg) as [? | (? & ? & ?)]; tauto. }
  destruct (listed_in exclude (name f)).
  { destruct (IH instance ffl) as [C F]. split; [exact C |]. intros g Hg.
    destruct (F g Hg) as [? | (? & ? & ?)]; tauto. }
  destruct (is_FileField f) eqn:FF.
  - destruct (IH instance (ffl ++ [f])) as [C F]. split; [exact C |]. intros g Hg.
    destruct (F g Hg) as [X | (? & ? & ?)]; [| tauto].
    apply in_app_iff in X. destruct X as [X | [<- | []]]; [tauto |].
    right. split; [now left |]. split; [exact FF |].
    unfold has_key in K. now apply bool_decide_eq_true in K.
  - destruct (IH (setattr instance (name f) (default VNone (cleaned_data !! name f))) ffl)
      as [C F].
    split; [exact C |]. intros g Hg.
    destruct (F g Hg) as [? | (? & ? & ?)]; tauto.
Qed.

Lemma construct_instance_ok (cleaned_data : gmap string value) (instance : instance_ref)
    (fields exclude : option (list string)) (w : world) :
  (forall f v, In f (ref_fields instance) -> is_FileField f = true ->
               cleaned_data !! name f = Some v -> exists u, v = VUpload u) ->
  exists obj w',
    construct_instance cleaned_data instance fields exclude w = (Ok tt, obj, w')
    /\ w_log w' = w_log w
    /\ d_class obj = ref_class instance.
Proof.
  intros H.
  pose proof (construct_instance_log cleaned_data instance fields exclude w) as L.
  unfold construct_instance in *.
  set (d := match instance with IClass c => instantiate c | IObj d => d end) in *.
  assert (Hf : d_fields d = ref_fields instance) by now destruct instance.
  assert (Hc : d_class d = ref_class instance) by now destruct instance.
  pose proof (assign_fields_spec cleaned_data fields exclude (d_fields d) d []) as [C F].
  destruct (assign_fields (d_fields d) cleaned_data fields exclude d []) as [d1 ffl].
  simpl in C, F.
  destruct (store_files_ok cleaned_data ffl d1 w) as (obj & w' & E & C').
  - intros f Hf'. destruct (F f Hf') as [[] | (Hin & FF & [v Hv])].
    rewrite Hf in Hin. destruct (H f v Hin FF Hv) as [u ->]. eauto.
  - rewrite E in L |- *. exists obj, w'. split; [reflexivity |].
    split; [exact L | congruence].
Qed.


Lemma keep_alias_cleaned_data (fm : form) (d : doc) :
  f_cleaned_data (keep_alias fm d) = f_cleaned_data fm.
Proof. unfold keep_alias. now destruct (f_instance fm). Qed.






(** An instance that was deleted is still in the list [save] returns:
    after [obj.delete()] the loop goes on to [saved.append(obj)]. *)
Lemma deleted_instance_still_listed :
  exists obj,
    fst (fst (BaseDocumentFormSet_save deleting_formset true empty_world)) = Ok [obj]
    /\ w_log (snd (BaseDocumentFormSet_save deleting_formset true empty_world))
       = [EvDelete obj].
Proof. eexists. split; reflexivity. Qed.

(** In a formset made without deletion the forms carry no deletion flag,
    and [save] raises [KeyError] at the first form it does not skip. *)
Lemma formset_save_without_flag_raises :
  fst (fst (BaseDocumentFormSet_save (FormSet [article_form_without_flag] 0) true
              empty_world))
  = Raise KeyError.
Proof. reflexivity. Qed.

(** ** More on [_get_unique_filename] *)

Lemma unique_loop_free (fs : list grid_file) (file_root file_ext : string)
    (fuel count : nat) (n : string) :
  fs_exists fs n = false -> unique_loop fuel fs file_root file_ext count n = n.
Proof. intros H. destruct fuel; simpl; now rewrite H. Qed.

Lemma unique_loop_first_free (fs : list grid_file) (file_root file_ext : string) :
  forall (fuel count : nat) (n : string) (k : nat),
    fs_exists fs n = true ->
    count <= k < count + fuel ->
    (forall j, count <= j < k -> fs_exists fs (suffixed file_root j file_ext) = true) ->
    fs_exists fs (suffixed file_root k file_ext) = false ->
    unique_loop fuel fs file_root file_ext count n = suffixed file_root k file_ext.
Proof.
  induction fuel as [|fuel IH]; intros count n k Hn Hk Hbelow Hfree; [lia |].
  simpl. rewrite Hn.
  destruct (Nat.eq_dec k count) as [-> | Hne].
  - now apply unique_loop_free.
  - apply IH.
    + apply Hbelow. lia.
    + lia.
    + intros j Hj. apply Hbelow. lia.
    + exact Hfree.
Qed.

Lemma least_true (p : nat -> bool) :
  forall (n a : nat),
    (exists k, a <= k < a + n /\ p k = true) ->
    exists k, a <= k < a + n /\ p k = true /\ forall j, a <= j < k -> p j = false.
Proof.
  induction n as [|n IH]; intros a (k & Hk & Hp); [lia |].
  destruct (p a) eqn:Pa.
  - exists a. split; [lia |]. split; [exact Pa |]. intros j Hj. lia.
  - destruct (IH (S a)) as (k' & Hk' & Hp' & Hl).
    + exists k. split; [| exact Hp].
      destruct (Nat.eq_dec k a) as [-> | Hne]; [congruence | lia].
    + exists k'. split; [lia |]. split; [exact Hp' |].
      intros j Hj. destruct (Nat.eq_dec j a) as [-> | Hne]; [exact Pa |].
      apply Hl. lia.
Qed.

Lemma unique_filename_parts (fs : list grid_file) (n : string) :
  fs_exists fs (_get_unique_filename fs n) = false
  /\ (fs_exists fs n = false -> _get_unique_filename fs n = n)
  /\ (fs_exists fs n = true ->
      exists k,
        1 <= k <= S (length fs)
        /\ _get_unique_filename fs n = suffixed (fst (splitext n)) k (snd (splitext n))
        /\ forall j, 1 <= j < k ->
             fs_exists fs (suffixed (fst (splitext n)) j (snd (splitext n))) = true).
Proof.
  split; [apply _get_unique_filename_fresh |].
  unfold _get_unique_filename. destruct (splitext n) as [file_root file_ext].
  cbn [fst snd].
  split.
  - apply unique_loop_free.
  - intros Hn.
    destruct (least_true
                (fun k => negb (fs_exists fs (suffixed file_root k file_ext)))
                (S (length fs)) 1) as (k & Hk & Hp & Hl).
    { destruct (free_suffix_exists fs file_root file_ext) as (k & Hk & Hf).
      exists k. split; [lia | now rewrite Hf]. }
    apply negb_true_iff in Hp.
    exists k. split; [lia |]. split.
    + apply unique_loop_first_free; [exact Hn | lia | | exact Hp].
      intros j Hj. specialize (Hl j Hj). now apply negb_false_iff in Hl.
    + intros j Hj. specialize (Hl j ltac:(lia)). now apply negb_false_iff in Hl.
Qed.

(** X1.  The name [_get_unique_filename] returns is never the name of a
    stored blob.  A name that is free is returned as it is; a name that is
    taken becomes the root, an underscore, the least counter from 1 on
    whose name is free, and the extension. *)
Theorem unique_filename_first_free (fs : list grid_file) (n : string) :
  fs_exists fs (_get_unique_filename fs n) = false
  /\ (fs_exists fs n = false -> _get_unique_filename fs n = n)
  /\ (fs_exists fs n = true ->
      exists k,
        1 <= k <= S (length fs)
        /\ _get_unique_filename fs n = suffixed (fst (splitext n)) k (snd (splitext n))
        /\ forall j, 1 <= j < k ->
             fs_exists fs (suffixed (fst (splitext n)) j (snd (splitext n))) = true).
Proof. apply unique_filename_parts. Qed.

(** ** [splitext] *)

Lemma rfind_from_spec (c : ascii) :
  forall (s : string) (i acc : Z),
    rfind_from c s i acc = acc
    \/ ((i <= rfind_from c s i acc < i + Z.of_nat (String.length s))%Z
        /\ String.get (Z.to_nat (rfind_from c s i acc - i)) s = Some c).
Proof.
  induction s as [|a r IH]; intros i acc; cbn [rfind_from]; [now left |].
  destruct (IH (i + 1)%Z (if Ascii.eqb a c then i else acc)) as [E | [Hr Hg]].
  - rewrite E. destruct (Ascii.eqb_spec a c) as [-> | _]; [| now left].
    right. cbn [String.length]. split; [lia |].
    replace (i - i)%Z with 0%Z by lia. reflexivity.
  - right. cbn [String.length]. split; [lia |].
    replace (Z.to_nat (rfind_from c r (i + 1) (if Ascii.eqb a c then i else acc) - i))
      with (S (Z.to_nat (rfind_from c r (i + 1) (if Ascii.eqb a c then i else acc)
                         - (i + 1)))) by lia.
    exact Hg.
Qed.

Lemma substring_all (p : string) : substring 0 (String.length p) p = p.
Proof. induction p as [|a r IH]; cbn; [reflexivity | now rewrite IH]. Qed.

Lemma substring_split (p : string) :
  forall n, n <= String.length p ->
    substring 0 n p +:+ substring n (String.length p - n) p = p.
Proof.
  induction p as [|a r IH]; intros n Hn.
  - cbn in Hn. assert (n = 0) as -> by lia. reflexivity.
  - destruct n as [|n].
    + cbn [substring String.length Nat.sub String.append]. now rewrite substring_all.
    + cbn [substring String.length Nat.sub]. cbn [String.length] in Hn.
      change (String a (substring 0 n r) +:+ substring n (String.length r - n) r)
        with (String a (substring 0 n r +:+ substring n (String.length r - n) r)).
      rewrite IH by lia. reflexivity.
Qed.

Lemma substring_from_get (c : ascii) :
  forall (p : string) (n : nat),
    String.get n p = Some c ->
    exists e, substring n (String.length p - n) p = String c e.
Proof.
  induction p as [|a r IH]; intros n Hg; [destruct n; discriminate |].
  destruct n as [|n].
  - cbn in Hg. injection Hg as ->. cbn. eauto.
  - cbn [String.get] in Hg. cbn [substring String.length Nat.sub]. now apply IH.
Qed.

Lemma append_empty (p : string) : p +:+ "" = p.
Proof.
  induction p as [|a r IH]; [reflexivity |].
  change (String a r +:+ "") with (String a (r +:+ "")). now rewrite IH.
Qed.

(** [splitext] cuts a path in two without losing anything: root and
    extension put together give the path back, and the extension is empty
    or begins with a dot. *)
Lemma splitext_roundtrip (p : string) :
  fst (splitext p) +:+ snd (splitext p) = p
  /\ (snd (splitext p) = "" \/ exists e, snd (splitext p) = String "." e).
Proof.
  unfold splitext.
  destruct ((rfind "/" p <? rfind "." p)%Z && _) eqn:E; cbn [fst snd].
  - apply andb_true_iff in E. destruct E as [E _]. apply Z.ltb_lt in E.
    assert (Hsep : (-1 <= rfind "/" p)%Z).
    { unfold rfind. destruct (rfind_from_spec "/" p 0 (-1)) as [-> | [H _]]; lia. }
    destruct (rfind_from_spec "." p 0 (-1)) as [H | [Hr Hg]];
      [unfold rfind in *; lia |].
    fold (rfind "." p) in Hr, Hg. rewrite Z.sub_0_r in Hg.
    split.
    + apply substring_split. lia.
    + right. now apply substring_from_get.
  - split; [apply append_empty | now left].
Qed.

(** X2.  When [_get_unique_filename] renames, the new name is the old
    one with an underscore and a counter from 1 on put in before the
    extension: the old name is root and extension put together, the
    extension is empty or begins with a dot, and the new name is the root,
    ["_"], the counter in decimal and the extension. *)
Theorem unique_filename_keeps_extension (fs : list grid_file) (n : string) :
  fs_exists fs n = true ->
  exists (file_root file_ext : string) (k : nat),
    n = file_root +:+ file_ext
    /\ (file_ext = "" \/ exists e, file_ext = String "." e)
    /\ 1 <= k
    /\ _get_unique_filename fs n
       = file_root +:+ "_" +:+ str_of_nat k +:+ file_ext
    /\ _get_unique_filename fs n <> n.
Proof.
  intros Hn.
  destruct (unique_filename_parts fs n) as (Hfresh & _ & Hk).
  destruct (Hk Hn) as (k & Hk1 & E & _).
  destruct (splitext_roundtrip n) as [Hrt Hext].
  exists (fst (splitext n)), (snd (splitext n)), k.
  split; [now rewrite Hrt |]. split; [exact Hext |]. split; [lia |].
  split; [exact E |].
  intros X. rewrite X in Hfresh. congruence.
Qed.

Lemma unique_filename_keeps_extension_witness :
  fs_exists [GridFile 1 "photo.jpg" "image/jpeg" ""] "photo.jpg" = true
  /\ exists (file_root file_ext : string) (k : nat),
       "photo.jpg" = file_root +:+ file_ext
       /\ _get_unique_filename [GridFile 1 "photo.jpg" "image/jpeg" ""] "photo.jpg"
          = file_root +:+ "_" +:+ str_of_nat k +:+ file_ext.
Proof.
  split; [reflexivity |].
  destruct (unique_filename_keeps_extension
              [GridFile 1 "photo.jpg" "image/jpeg" ""] "photo.jpg" eq_refl)
    as (file_root & file_ext & k & E & _ & _ & R & _).
  exists file_root, file_ext, k. split; [exact E | exact R].
Defined.

(** ** The blob store keeps file names distinct *)

Lemma map_filter_NoDup {A B} (g : A -> B) (p : A -> bool) (l : list A) :
  List.NoDup (map g l) -> List.NoDup (map g (List.filter p l)).
Proof.
  induction l as [|x l IH]; intros H; simpl; [apply List.NoDup_nil |].
  simpl in H. apply List.NoDup_cons_iff in H. destruct H as [Hx H].
  destruct (p x); simpl; [| now apply IH].
  apply List.NoDup_cons; [| now apply IH].
  intros X. apply Hx. apply in_map_iff in X. destruct X as (y & E & Hy).
  apply List.filter_In in Hy. rewrite <- E. apply in_map, Hy.
Qed.

Lemma map_snoc_NoDup {A B} (g : A -> B) (l : list A) (x : A) :
  List.NoDup (map g l) -> ~ In (g x) (map g l) -> List.NoDup (map g (l ++ [x])).
Proof.
  intros H Hx. rewrite map_app. apply List.NoDup_app; [exact H | |].
  - apply List.NoDup_cons; [intros [] | apply List.NoDup_nil].
  - intros a Ha [<- | []]. contradiction.
Qed.

Lemma fs_delete_incl (fs : list grid_file) (grid_id : option nat) (g : grid_file) :
  In g (fs_delete fs grid_id) -> In g fs.
Proof.
  destruct grid_id as [i |]; simpl; [| tauto]. intros H.
  now apply List.filter_In in H.
Qed.

Lemma In_fs_exists (fs : list grid_file) (n : string) :
  In n (map gf_filename fs) -> fs_exists fs n = true.
Proof.
  intros H. apply in_map_iff in H. destruct H as (g & <- & Hg).
  unfold fs_exists. apply existsb_exists. exists g. split; [exact Hg |].
  apply String.eqb_refl.
Qed.

Lemma proxy_replace_distinct (fs : list grid_file) (grid_id : option nat) (u : upload)
    (content_type filename : string) :
  fs_distinct fs -> fs_exists fs filename = false ->
  fs_distinct (snd (proxy_replace fs grid_id u content_type filename)).
Proof.
  intros Hname Hfree. unfold fs_distinct, proxy_replace, fs_put. cbn [snd].
  assert (Hname' : List.NoDup (map gf_filename (fs_delete fs grid_id))).
  { destruct grid_id; [now apply map_filter_NoDup | exact Hname]. }
  apply map_snoc_NoDup; [exact Hname' |]. cbn [gf_filename]. intros X.
  apply in_map_iff in X. destruct X as (g & E & Hg). apply fs_delete_incl in Hg.
  assert (Y : fs_exists fs filename = true).
  { apply In_fs_exists. rewrite <- E. now apply in_map. }
  congruence.
Qed.

Lemma store_files_distinct (cleaned_data : gmap string value) :
  forall (ffl : list schema_field) (instance : doc) (w : world),
    fs_distinct (w_fs w) ->
    fs_distinct (w_fs (snd (store_files ffl cleaned_data instance w))).
Proof.
  induction ffl as [|f rest IH]; intros instance w H; simpl; [exact H |].
  destruct (cleaned_data !! name f) as [v |]; [| exact H].
  destruct v; try exact H.
  pose proof (proxy_replace_distinct (w_fs w) (getattr_proxy instance (name f)) u
                (up_content_type u) (_get_unique_filename (w_fs w) (up_name u)) H
                (_get_unique_filename_fresh (w_fs w) (up_name u))) as P.
  apply IH. exact P.
Qed.

Lemma construct_instance_distinct (cleaned_data : gmap string value)
    (instance : instance_ref) (fields exclude : option (list string)) (w : world) :
  fs_distinct (w_fs w) ->
  fs_distinct (w_fs (snd (construct_instance cleaned_data instance fields exclude w))).
Proof.
  intros H. unfold construct_instance.
  destruct (assign_fields _ cleaned_data fields exclude _ []) as [d ffl].
  now apply store_files_distinct.
Qed.

Lemma save_instance_fs (fm : form) (instance : instance_ref)
    (fields : option (list string)) (fail_message : string) (commit : bool)
    (exclude : option (list string)) (construct : bool) (w : world) :
  w_fs (snd (save_instance fm instance fields fail_message commit exclude construct w))
  = w_fs (snd (construct_instance (f_cleaned_data fm) instance fields exclude w)).
Proof.
  unfold save_instance.
  destruct (construct_instance _ instance fields exclude w) as [[r d] w1].
  destruct r as [[] | e]; [| reflexivity].
  destruct (has_errors fm); [reflexivity |].
  destruct (commit && cls_has_save (d_class d)); [| reflexivity].
  destruct (f_delete_before_save fm) as [dbs |]; [| reflexivity].
  destruct (d_changed_fields d) as [ch |].
  - destruct (remove_changed dbs ch) as [[[] | e] ch']; reflexivity.
  - reflexivity.
Qed.

(** X3.  Storing uploads never makes two blobs share a file name: if the
    blobs of the store have distinct file names, they still have after
    [construct_instance], after [_post_clean] and after the form's [save],
    whatever these return or raise. *)
Theorem blob_names_stay_distinct (fm : form) (w : world) :
  fs_distinct (w_fs w) ->
  (forall fields exclude,
     fs_distinct
       (w_fs (snd (construct_instance (f_cleaned_data fm) (f_instance fm)
                     fields exclude w))))
  /\ fs_distinct (w_fs (snd (_post_clean fm w)))
  /\ forall commit, fs_distinct (w_fs (snd (BaseDocumentForm_save fm commit w))).
Proof.
  intros H. split; [| split].
  - intros fields exclude. now apply construct_instance_distinct.
  - unfold _post_clean.
    pose proof (construct_instance_distinct (f_cleaned_data fm) (f_instance fm)
                  (opt_fields (f_meta fm)) (opt_exclude (f_meta fm)) w H) as P.
    destruct (construct_instance _ _ _ _ w) as [[r d] w1]. cbn [snd] in P.
    destruct r as [[] | e]; [| exact P].
    destruct (clean_fields_loop _ d _ []) as [to_delete failure].
    match goal with
    | |- context [if f_validate_unique ?x then _ else _] =>
        destruct (f_validate_unique x)
    end; [| exact P].
    match goal with
    | |- context [validate_unique ?x w1] => destruct (validate_unique x w1)
    end. exact P.
  - intros commit. unfold BaseDocumentForm_save.
    match goal with
    | |- context [save_instance fm ?i ?f ?m commit None false w] =>
        pose proof (save_instance_fs fm i f m commit None false w) as E;
        destruct (save_instance fm i f m commit None false w) as [[r d] w1]
    end.
    cbn [snd] in *. rewrite E. now apply construct_instance_distinct.
Qed.

Lemma blob_names_stay_distinct_witness :
  fs_distinct (w_fs (snd (_post_clean rejected_report_form empty_world)))
  /\ fs_distinct
       (w_fs (snd (BaseDocumentForm_save
                     (snd (fst (_post_clean rejected_report_form empty_world))) true
                     (snd (_post_clean rejected_report_form empty_world))))).
Proof.
  assert (H0 : fs_distinct (w_fs empty_world)).
  { apply List.NoDup_nil. }
  pose proof (proj1 (proj2 (blob_names_stay_distinct rejected_report_form empty_world H0)))
    as H1.
  split; [exact H1 |].
  exact (proj2 (proj2 (blob_names_stay_distinct _ _ H1)) true).
Defined.

(** ** What [construct_instance] assigns *)

Lemma assign_fields_data (cleaned_data : gmap string value)
    (fields exclude : option (list string)) (n : string) :
  forall (fs : list schema_field) (d : doc) (ffl : list schema_field),
    d_data (fst (assign_fields fs cleaned_data fields exclude d ffl)) !! n
    = if existsb (fun f => String.eqb (name f) n
                           && takes cleaned_data fields exclude f
                           && negb (is_FileField f)) fs
      then cleaned_data !! n
      else d_data d !! n.
Proof.
  induction fs as [|f rest IH]; intros d ffl; [reflexivity |].
  cbn [assign_fields existsb]. unfold takes at 1.
  destruct (is_ObjectIdField f); cbn [negb andb].
  { rewrite andb_false_r. apply IH. }
  destruct (has_key cleaned_data (name f)) eqn:K; cbn [negb andb].
  2: { rewrite andb_false_r. apply IH. }
  destruct (not_listed fields (name f)); cbn [negb andb].
  { rewrite andb_false_r. apply IH. }
  destruct (listed_in exclude (name f)); cbn [negb andb].
  { rewrite andb_false_r. apply IH. }
  destruct (is_FileField f); cbn [negb andb].
  { rewrite andb_false_r. apply IH. }
  rewrite !andb_true_r, IH.
  destruct (existsb _ rest); [now rewrite orb_true_r |]. rewrite orb_false_r.
  apply bool_decide_eq_true in K. destruct K as [v Hv].
  destruct (String.eqb_spec (name f) n) as [<- | Hne]; cbn [setattr d_data].
  - rewrite Hv. apply lookup_insert_eq.
  - now apply lookup_insert_ne.
Qed.

Lemma assign_fields_files (cleaned_data : gmap string value)
    (fields exclude : option (list string)) :
  forall (fs : list schema_field) (d : doc) (ffl : list schema_field),
    snd (assign_fields fs cleaned_data fields exclude d ffl)
    = ffl ++ List.filter (fun f => takes cleaned_data fields exclude f && is_FileField f) fs.
Proof.
  induction fs as [|f rest IH]; intros d ffl; cbn [assign_fields List.filter];
    [now rewrite app_nil_r |].
  unfold takes at 1.
  destruct (is_ObjectIdField f); cbn [negb andb]; [apply IH |].
  destruct (has_key cleaned_data (name f)); cbn [negb andb]; [| apply IH].
  destruct (not_listed fields (name f)); cbn [negb andb]; [apply IH |].
  destruct (listed_in exclude (name f)); cbn [negb andb]; [apply IH |].
  destruct (is_FileField f); [| apply IH].
  rewrite IH, <- app_assoc. reflexivity.
Qed.

Lemma assign_fields_shape (cleaned_data : gmap string value)
    (fields exclude : option (list string)) :
  forall (fs : list schema_field) (d : doc) (ffl : list schema_field),
    d_class (fst (assign_fields fs cleaned_data fields exclude d ffl)) = d_class d
    /\ d_fields (fst (assign_fields fs cleaned_data fields exclude d ffl)) = d_fields d.
Proof.
  induction fs as [|f rest IH]; intros d ffl; cbn [assign_fields]; [now split |].
  destruct (is_ObjectIdField f); [apply IH |].
  destruct (negb (has_key cleaned_data (name f))); [apply IH |].
  destruct (not_listed fields (name f)); [apply IH |].
  destruct (listed_in exclude (name f)); [apply IH |].
  destruct (is_FileField f); [apply IH |].
  destruct (IH (setattr d (name f) (default VNone (cleaned_data !! name f))) ffl)
    as [-> ->]. now split.
Qed.

Lemma store_files_data (cleaned_data : gmap string value) (n : string) :
  forall (ffl : list schema_field) (instance : doc) (w : world),
    (forall f, In f ffl -> name f <> n) ->
    d_data (snd (fst (store_files ffl cleaned_data instance w))) !! n
    = d_data instance !! n.
Proof.
  induction ffl as [|f rest IH]; intros instance w H; cbn [store_files]; [reflexivity |].
  destruct (cleaned_data !! name f) as [v |]; [| reflexivity].
  destruct v; try reflexivity.
  destruct (proxy_replace _ _ _ _ _) as [field' fs'].
  rewrite IH by (intros g Hg; apply H; now right).
  cbn [setattr d_data]. apply lookup_insert_ne. apply H. now left.
Qed.

Lemma store_files_shape (cleaned_data : gmap string value) :
  forall (ffl : list schema_field) (instance : doc) (w : world),
    d_class (snd (fst (store_files ffl cleaned_data instance w))) = d_class instance
    /\ d_fields (snd (fst (store_files ffl cleaned_data instance w))) = d_fields instance.
Proof.
  induction ffl as [|f rest IH]; intros instance w; cbn [store_files]; [now split |].
  destruct (cleaned_data !! name f) as [v |]; [| now split].
  destruct v; try now split.
  destruct (proxy_replace _ _ _ _ _) as [field' fs'].
  destruct (IH (setattr instance (name f) field') (set_fs w fs')) as [-> ->]. now split.
Qed.

Lemma base_instance_fields (instance : instance_ref) :
  d_fields (base_instance instance) = ref_fields instance
  /\ d_class (base_instance instance) = ref_class instance.
Proof. now destruct instance. Qed.

(** The data of the constructed instance under a name that no stored file
    field has. *)
Lemma construct_instance_data (cleaned_data : gmap string value) (instance : instance_ref)
    (fields exclude : option (list string)) (w : world) (n : string) :
  (forall f, In f (ref_fields instance) -> name f = n ->
             takes cleaned_data fields exclude f && is_FileField f = false) ->
  d_data (snd (fst (construct_instance cleaned_data instance fields exclude w))) !! n
  = if existsb (fun f => String.eqb (name f) n
                         && takes cleaned_data fields exclude f
                         && negb (is_FileField f)) (ref_fields instance)
    then cleaned_data !! n
    else d_data (base_instance instance) !! n.
Proof.
  intros H. unfold construct_instance. fold (base_instance instance).
  destruct (base_instance_fields instance) as [Hf _].
  pose proof (assign_fields_data cleaned_data fields exclude n
                (d_fields (base_instance instance)) (base_instance instance) []) as D.
  pose proof (assign_fields_files cleaned_data fields exclude
                (d_fields (base_instance instance)) (base_instance instance) []) as F.
  destruct (assign_fields _ cleaned_data fields exclude (base_instance instance) [])
    as [d ffl].
  cbn [fst snd] in D, F. rewrite store_files_data.
  - rewrite D, Hf. reflexivity.
  - intros f Hin E. rewrite F in Hin. cbn [app] in Hin.
    apply List.filter_In in Hin. destruct Hin as [Hin Ht].
    rewrite Hf in Hin. rewrite (H f Hin E) in Ht. discriminate.
Qed.

Lemma construct_instance_shape (cleaned_data : gmap string value) (instance : instance_ref)
    (fields exclude : option (list string)) (w : world) :
  d_class (snd (fst (construct_instance cleaned_data instance fields exclude w)))
  = ref_class instance
  /\ d_fields (snd (fst (construct_instance cleaned_data instance fields exclude w)))
     = ref_fields instance.
Proof.
  unfold construct_instance. fold (base_instance instance).
  destruct (base_instance_fields instance) as [Hf Hc].
  pose proof (assign_fields_shape cleaned_data fields exclude
                (d_fields (base_instance instance)) (base_instance instance) []) as [C F].
  destruct (assign_fields _ cleaned_data fields exclude (base_instance instance) [])
    as [d ffl].
  cbn [fst] in C, F.
  destruct (store_files_shape cleaned_data ffl d w) as [-> ->].
  rewrite C, F, Hf, Hc. now split.
Qed.

(** X4.  [construct_instance] gives the instance the cleaned value of
    every schema field it takes a value for and that is no file field:
    whatever the call returns or raises, the instance's attribute under
    that name is the cleaned value afterwards (no file field sharing the
    name). *)
Theorem construct_instance_assigns (cleaned_data : gmap string value)
    (instance : instance_ref) (fields exclude : option (list string)) (w : world)
    (f : schema_field) (v : value) :
  In f (ref_fields instance) ->
  is_ObjectIdField f = false ->
  is_FileField f = false ->
  cleaned_data !! name f = Some v ->
  not_listed fields (name f) = false ->
  listed_in exclude (name f) = false ->
  (forall g, In g (ref_fields instance) -> name g = name f -> is_FileField g = false) ->
  getattr (snd (fst (construct_instance cleaned_data instance fields exclude w))) (name f)
  = v.
Proof.
  intros Hin Hid Hfile Hv Hnl Hex Hnames. unfold getattr.
  rewrite construct_instance_data.
  - assert (X : existsb (fun g => String.eqb (name g) (name f)
                                   && takes cleaned_data fields exclude g
                                   && negb (is_FileField g)) (ref_fields instance) = true).
    { apply existsb_exists. exists f. split; [exact Hin |].
      unfold takes, has_key. rewrite String.eqb_refl, Hid, Hfile, Hnl, Hex, Hv.
      reflexivity. }
    rewrite X, Hv. reflexivity.
  - intros g Hg E. rewrite (Hnames g Hg E). apply andb_false_r.
Qed.

(** X5.  [construct_instance] leaves alone every attribute it has no
    cleaned value for or is told not to set: under a name that cleaned
    data lacks, that the allow-list does not admit, that the deny-list
    names, or that only identity fields of the schema have, the instance
    holds afterwards what it held before (for a class, what a new instance
    holds).  Class and schema of the instance stay the same. *)
Theorem construct_instance_leaves_alone (cleaned_data : gmap string value)
    (instance : instance_ref) (fields exclude : option (list string)) (w : world)
    (n : string) :
  cleaned_data !! n = None
  \/ not_listed fields n = true
  \/ listed_in exclude n = true
  \/ (forall f, In f (ref_fields instance) -> name f = n -> is_ObjectIdField f = true) ->
  d_data (snd (fst (construct_instance cleaned_data instance fields exclude w))) !! n
  = d_data (base_instance instance) !! n
  /\ d_class (snd (fst (construct_instance cleaned_data instance fields exclude w)))
     = ref_class instance
  /\ d_fields (snd (fst (construct_instance cleaned_data instance fields exclude w)))
     = ref_fields instance.
Proof.
  intros H. split; [| apply construct_instance_shape].
  assert (Hno : forall f, In f (ref_fields instance) -> name f = n ->
                          takes cleaned_data fields exclude f = false).
  { intros f Hin E. unfold takes, has_key. rewrite E.
    destruct H as [H | [H | [H | H]]].
    - rewrite H. cbn. now rewrite andb_false_r.
    - rewrite H. cbn. now rewrite andb_false_r.
    - rewrite H. cbn. now rewrite andb_false_r.
    - rewrite (H f Hin E). reflexivity. }
  rewrite construct_instance_data.
  - assert (X : existsb (fun f => String.eqb (name f) n
                                   && takes cleaned_data fields exclude f
                                   && negb (is_FileField f)) (ref_fields instance) = false).
    { destruct (existsb _ (ref_fields instance)) eqn:E; [| reflexivity].
      apply existsb_exists in E. destruct E as (f & Hin & E).
      apply andb_true_iff in E. destruct E as [E _].
      apply andb_true_iff in E. destruct E as [E T].
      apply String.eqb_eq in E. rewrite (Hno f Hin E) in T. discriminate. }
    now rewrite X.
  - intros f Hin E. now rewrite (Hno f Hin E).
Qed.

Lemma construct_instance_assigns_witness :
  getattr (snd (fst (construct_instance (f_cleaned_data (article_form false))
                       (IObj stored_article) None None empty_world))) "title"
  = VStr "News".
Proof.
  apply (construct_instance_assigns (f_cleaned_data (article_form false))
           (IObj stored_article) None None empty_world title_field (VStr "News")).
  - right. left. reflexivity.
  - reflexivity.
  - reflexivity.
  - reflexivity.
  - reflexivity.
  - reflexivity.
  - intros g [<- | [<- | [<- | []]]] _; reflexivity.
Defined.

Lemma construct_instance_leaves_alone_witness :
  d_data (snd (fst (construct_instance (f_cleaned_data (article_form false))
                      (IObj stored_article) None None empty_world))) !! "note"
  = Some (VStr "old").
Proof.
  exact (proj1 (construct_instance_leaves_alone (f_cleaned_data (article_form false))
                  (IObj stored_article) None None empty_world "note"
                  (or_introl eq_refl))).
Defined.

(** ** The fields marked as changed *)

Lemma mark_changed_In (n m : string) (l : list string) :
  exists l', mark_changed n (Some l) = Some l' /\ (In m l' <-> In m l \/ m = n).
Proof.
  unfold mark_changed. destruct (str_in n l) eqn:E.
  - exists l. split; [reflexivity |]. split; [tauto |].
    intros [H | ->]; [exact H |]. unfold str_in in E. apply existsb_exists in E.
    destruct E as (x & Hx & E). apply String.eqb_eq in E. now subst.
  - exists (l ++ [n]). split; [reflexivity |]. rewrite in_app_iff. simpl. intuition.
Qed.


Lemma setattr_changed (d : doc) (n : string) (v : value) (m : string) :
  tracks (setattr d n v) = tracks d
  /\ (changed_names (setattr d n v) m
      <-> changed_names d m \/ (tracks d = true /\ m = n)).
Proof.
  unfold tracks, changed_names. cbn [setattr d_changed_fields].
  destruct (d_changed_fields d) as [l |].
  - destruct (mark_changed_In n m l) as (l' & -> & H). split; [reflexivity |].
    rewrite H. split; [intros [X | X]; [now left | right; split; [reflexivity | exact X]]
                      | intros [X | [_ X]]; tauto].
  - cbn. split; [reflexivity |]. split; [tauto | intros [[] | [X _]]; discriminate].
Qed.

Lemma assign_fields_step (cleaned_data : gmap string value)
    (fields exclude : option (list string)) (f : schema_field)
    (rest : list schema_field) (d : doc) (ffl : list schema_field) :
  assign_fields (f :: rest) cleaned_data fields exclude d ffl
  = if takes cleaned_data fields exclude f then
      if is_FileField f
      then assign_fields rest cleaned_data fields exclude d (ffl ++ [f])
      else assign_fields rest cleaned_data fields exclude
             (setattr d (name f) (default VNone (cleaned_data !! name f))) ffl
    else assign_fields rest cleaned_data fields exclude d ffl.
Proof.
  cbn [assign_fields]. unfold takes.
  destruct (is_ObjectIdField f); [reflexivity |].
  destruct (has_key cleaned_data (name f)); [| reflexivity].
  destruct (not_listed fields (name f)); [reflexivity |].
  destruct (listed_in exclude (name f)); reflexivity.
Qed.

Lemma assign_fields_changed (cleaned_data : gmap string value)
    (fields exclude : option (list string)) (m : string) :
  forall (fs : list schema_field) (d : doc) (ffl : list schema_field),
    tracks (fst (assign_fields fs cleaned_data fields exclude d ffl)) = tracks d
    /\ (changed_names (fst (assign_fields fs cleaned_data fields exclude d ffl)) m
        <-> changed_names d m
            \/ (tracks d = true
                /\ exists f, In f fs /\ name f = m
                             /\ takes cleaned_data fields exclude f = true
                             /\ is_FileField f = false)).
Proof.
  induction fs as [|f rest IH]; intros d ffl.
  - cbn [assign_fields fst]. split; [reflexivity |].
    split; [tauto | intros [H | [_ (f & [] & _)]]; exact H].
  - rewrite assign_fields_step.
    destruct (takes cleaned_data fields exclude f) eqn:Hk;
      [destruct (is_FileField f) eqn:Hfile |].
    + destruct (IH d (ffl ++ [f])) as [T C]. split; [exact T |]. rewrite C. split.
      * intros [H | (Ht & g & Hg & E & Hk' & Hf)]; [now left |].
        right. split; [exact Ht |]. exists g. split; [now right | tauto].
      * intros [H | (Ht & g & [<- | Hg] & E & Hk' & Hf)]; [now left | congruence |].
        right. split; [exact Ht |]. exists g. tauto.
    + destruct (IH (setattr d (name f) (default VNone (cleaned_data !! name f))) ffl)
        as [T C].
      destruct (setattr_changed d (name f) (default VNone (cleaned_data !! name f)) m)
        as [T' C'].
      split; [now rewrite T, T' |]. rewrite C, C', T'. split.
      * intros [[H | [Ht E]] | (Ht & g & Hg & E & Hk' & Hf)].
        -- now left.
        -- right. split; [exact Ht |]. exists f. split; [now left |]. now split.
        -- right. split; [exact Ht |]. exists g. split; [now right | tauto].
      * intros [H | (Ht & g & [<- | Hg] & E & Hk' & Hf)].
        -- left. now left.
        -- left. right. now split.
        -- right. split; [exact Ht |]. exists g. tauto.
    + destruct (IH d ffl) as [T C]. split; [exact T |]. rewrite C. split.
      * intros [H | (Ht & g & Hg & E & Hk' & Hf)]; [now left |].
        right. split; [exact Ht |]. exists g. split; [now right | tauto].
      * intros [H | (Ht & g & [<- | Hg] & E & Hk' & Hf)]; [now left | congruence |].
        right. split; [exact Ht |]. exists g. tauto.
Qed.

Lemma store_files_changed (cleaned_data : gmap string value) (m : string) :
  forall (ffl : list schema_field) (instance : doc) (w : world),
    tracks (snd (fst (store_files ffl cleaned_data instance w))) = tracks instance
    /\ (changed_names (snd (fst (store_files ffl cleaned_data instance w))) m ->
        changed_names instance m
        \/ (tracks instance = true /\ exists f, In f ffl /\ name f = m))
    /\ (fst (fst (store_files ffl cleaned_data instance w)) = Ok tt ->
        changed_names instance m
        \/ (tracks instance = true /\ exists f, In f ffl /\ name f = m) ->
        changed_names (snd (fst (store_files ffl cleaned_data instance w))) m).
Proof.
  induction ffl as [|f rest IH]; intros instance w; cbn [store_files].
  - cbn [fst snd]. split; [reflexivity |]. split; [tauto |].
    intros _ [H | [_ (f & [] & _)]]. exact H.
  - assert (Stop : forall e : exn,
              tracks instance = tracks instance
              /\ (changed_names instance m ->
                  changed_names instance m
                  \/ (tracks instance = true
                      /\ exists g, In g (f :: rest) /\ name g = m))
              /\ ((Raise e : outcome unit) = Ok tt ->
                  changed_names instance m
                  \/ (tracks instance = true
                      /\ exists g, In g (f :: rest) /\ name g = m) ->
                  changed_names instance m)).
    { intros e. split; [reflexivity |]. split; [tauto | discriminate]. }
    destruct (cleaned_data !! name f) as [v |]; [| apply Stop].
    destruct v; try apply Stop. clear Stop.
    destruct (proxy_replace _ _ _ _ _) as [field' fs'].
    destruct (IH (setattr instance (name f) field') (set_fs w fs')) as (T & C1 & C2).
    destruct (setattr_changed instance (name f) field' m) as [T' C'].
    split; [now rewrite T, T' |]. split.
    + intros H. destruct (C1 H) as [X | (Ht & g & Hg & E)].
      * apply C' in X. destruct X as [X | [Ht E]]; [now left |].
        right. split; [exact Ht |]. exists f. split; [now left | now symmetry].
      * right. rewrite T' in Ht. split; [exact Ht |]. exists g. split; [now right | exact E].
    + intros Hok H. apply (C2 Hok). rewrite T'.
      destruct H as [H | (Ht & g & [<- | Hg] & E)].
      * left. apply C'. now left.
      * left. apply C'. right. now split.
      * right. split; [exact Ht |]. exists g. now split.
Qed.

Lemma construct_instance_changed (cleaned_data : gmap string value)
    (instance : instance_ref) (fields exclude : option (list string)) (w : world)
    (m : string) :
  let result := construct_instance cleaned_data instance fields exclude w in
  tracks (snd (fst result)) = tracks (base_instance instance)
  /\ (changed_names (snd (fst result)) m ->
      changed_names (base_instance instance) m
      \/ (tracks (base_instance instance) = true
          /\ exists f, In f (ref_fields instance) /\ name f = m
                       /\ takes cleaned_data fields exclude f = true))
  /\ (fst (fst result) = Ok tt ->
      changed_names (base_instance instance) m
      \/ (tracks (base_instance instance) = true
          /\ exists f, In f (ref_fields instance) /\ name f = m
                       /\ takes cleaned_data fields exclude f = true) ->
      changed_names (snd (fst result)) m).
Proof.
  cbv zeta. unfold construct_instance. fold (base_instance instance).
  destruct (base_instance_fields instance) as [Hf _].
  pose proof (assign_fields_changed cleaned_data fields exclude m
                (d_fields (base_instance instance)) (base_instance instance) [])
    as [T C].
  pose proof (assign_fields_files cleaned_data fields exclude
                (d_fields (base_instance instance)) (base_instance instance) []) as F.
  destruct (assign_fields _ cleaned_data fields exclude (base_instance instance) [])
    as [d ffl].
  cbn [fst snd] in T, C, F. cbn [app] in F. rewrite Hf in C, F.
  destruct (store_files_changed cleaned_data m ffl d w) as (T' & C1 & C2).
  split; [now rewrite T', T |]. split.
  - intros H. destruct (C1 H) as [X | (Ht & g & Hg & E)].
    + apply C in X. destruct X as [X | (Ht & g & Hg & E & Hk & _)]; [now left |].
      right. split; [exact Ht |]. exists g. tauto.
    + right. rewrite T in Ht. split; [exact Ht |]. exists g.
      rewrite F in Hg. apply List.filter_In in Hg. destruct Hg as [Hg Hk].
      apply andb_true_iff in Hk. tauto.
  - intros Hok H. apply (C2 Hok). rewrite T.
    destruct H as [H | (Ht & g & Hg & E & Hk)].
    + left. apply C. now left.
    + destruct (is_FileField g) eqn:Hfile.
      * right. split; [exact Ht |]. exists g. split; [| exact E].
        rewrite F. apply List.filter_In. split; [exact Hg |]. now rewrite Hk, Hfile.
      * left. apply C. right. split; [exact Ht |]. exists g. tauto.
Qed.

(** ** Taking names off [_changed_fields] *)

Lemma list_remove_Some (x : string) (l : list string) :
  In x l -> exists l', list_remove x l = Some l'
                       /\ forall m, m <> x -> In m l -> In m l'.
Proof.
  induction l as [|y l IH]; intros H; [destruct H |].
  cbn [list_remove]. destruct (String.eqb_spec y x) as [-> | Hne].
  - exists l. split; [reflexivity |]. intros m Hm [E | Hin]; [congruence | exact Hin].
  - destruct H as [E | H]; [contradiction |].
    destruct (IH H) as (l' & -> & Hl). exists (y :: l'). split; [reflexivity |].
    intros m Hm [<- | Hin]; [now left | right; now apply Hl].
Qed.

Lemma list_remove_sub (x : string) (l l' : list string) :
  list_remove x l = Some l' -> In x l /\ forall m, In m l' -> In m l.
Proof.
  revert l'. induction l as [|y l IH]; intros l' H; [discriminate |].
  cbn [list_remove] in H. destruct (String.eqb_spec y x) as [-> | Hne].
  - injection H as <-. split; [now left |]. intros m Hm. now right.
  - destruct (list_remove x l) as [l0 |] eqn:E; [| discriminate].
    injection H as <-. destruct (IH l0 eq_refl) as [Hx Hs].
    split; [now right |]. intros m [<- | Hm]; [now left | right; now apply Hs].
Qed.

Lemma remove_changed_ok :
  forall (names changed : list string),
    List.NoDup names -> (forall n, In n names -> In n changed) ->
    exists changed', remove_changed names changed = (Ok tt, changed').
Proof.
  induction names as [|n rest IH]; intros changed Hnd Hin; cbn [remove_changed];
    [eauto |].
  apply List.NoDup_cons_iff in Hnd. destruct Hnd as [Hn Hnd].
  destruct (list_remove_Some n changed (Hin n (or_introl eq_refl))) as (l' & -> & Hl).
  apply IH; [exact Hnd |]. intros m Hm. apply Hl; [| apply Hin; now right].
  intros ->. contradiction.
Qed.

Lemma remove_changed_missing :
  forall (names changed : list string),
    (exists n, In n names /\ ~ In n changed) ->
    fst (remove_changed names changed)
    = Raise (ValueError "list.remove(x): x not in list").
Proof.
  induction names as [|n rest IH]; intros changed (x & Hx & Hnot); [destruct Hx |].
  cbn [remove_changed]. destruct (list_remove n changed) as [l' |] eqn:E; [| reflexivity].
  destruct (list_remove_sub n changed l' E) as [Hn Hs].
  apply IH. exists x. split.
  - destruct Hx as [-> | Hx]; [contradiction | exact Hx].
  - intros X. apply Hnot, Hs, X.
Qed.

(** ** What [save] does with the instance *)

Lemma save_instance_data (fm : form) (instance : instance_ref)
    (fields : option (list string)) (fail_message : string) (commit : bool)
    (exclude : option (list string)) (construct : bool) (w : world) :
  d_data (snd (fst (save_instance fm instance fields fail_message commit exclude
                      construct w)))
  = d_data (snd (fst (construct_instance (f_cleaned_data fm) instance fields exclude w))).
Proof.
  unfold save_instance.
  destruct (construct_instance _ _ _ _ w) as [[r d] w1]. cbn [fst snd].
  destruct r as [[] | e]; [| reflexivity].
  destruct (has_errors fm); [reflexivity |].
  destruct (commit && cls_has_save (d_class d)); [| reflexivity].
  destruct (f_delete_before_save fm) as [dbs |]; [| reflexivity].
  destruct (d_changed_fields d) as [ch |].
  - destruct (remove_changed dbs ch) as [[[] | e] ch']; reflexivity.
  - reflexivity.
Qed.

Lemma filter_all {A} (p : A -> bool) (l : list A) :
  (forall x, In x l -> p x = true) -> List.filter p l = l.
Proof.
  induction l as [|x l IH]; intros H; [reflexivity |].
  cbn [List.filter]. rewrite (H x (or_introl eq_refl)).
  f_equal. apply IH. intros y Hy. apply H. now right.
Qed.

Lemma post_clean_instance (fm : form) (w : world) :
  let result := construct_instance (f_cleaned_data fm) (f_instance fm)
                  (opt_fields (f_meta fm)) (opt_exclude (f_meta fm)) w in
  f_instance (snd (fst (_post_clean fm w)))
  = match fst (fst result) with
    | Ok _ => IObj (snd (fst result))
    | Raise _ => f_instance (keep_alias fm (snd (fst result)))
    end
  /\ snd (_post_clean fm w) = snd result.
Proof.
  cbv zeta. unfold _post_clean.
  destruct (construct_instance _ _ _ _ w) as [[r instance] w1]. cbn [fst snd].
  destruct r as [[] | e]; [| now split].
  destruct (clean_fields_loop _ instance _ []) as [to_delete failure].
  set (fm1 := with_instance fm (IObj instance)).
  set (fm2 := match failure with
              | Some (f, message) => _update_errors fm1 {[name f := [message]]}
              | None => fm1
              end).
  assert (H2 : f_instance fm2 = IObj instance).
  { unfold fm2. destruct failure as [[f message] |]; [| reflexivity].
    now destruct (update_errors_fields fm1 {[name f := [message]]}) as (_ & _ & -> & _). }
  set (fm3 := with_delete_before_save fm2 to_delete).
  set (fm4 := match cls_clean (d_class instance) with
              | Some hook =>
                  match hook (d_data instance) with
                  | Some messages => _update_errors fm3 {[NON_FIELD_ERRORS := messages]}
                  | None => fm3
                  end
              | None => fm3
              end).
  assert (H4 : f_instance fm4 = IObj instance).
  { unfold fm4. destruct (cls_clean (d_class instance)) as [hook |]; [| exact H2].
    destruct (hook (d_data instance)) as [messages |]; [| exact H2].
    now destruct (update_errors_fields fm3 {[NON_FIELD_ERRORS := messages]})
      as (_ & _ & -> & _). }
  destruct (f_validate_unique fm4).
  - pose proof (validate_unique_loop_instance (_get_validation_exclusions fm4) w1
                  (ref_fields (f_instance fm4)) fm4 []) as H5.
    unfold validate_unique.
    destruct (validate_unique_loop _ _ fm4 w1 []) as [r fm5]. cbn [fst snd] in *.
    split; [congruence | reflexivity].
  - cbn [fst snd]. now split.
Qed.

(** X6.  The deny-list of the form's options keeps [_post_clean] from
    setting an attribute, but not [save]: for a form that holds an
    instance and has a cleaned value under the name of a schema field that
    the deny-list names, the instance keeps its own value through
    [_post_clean] and has the cleaned value after [save]. *)
Theorem save_ignores_deny_list (fm : form) (d : doc) (w : world) (commit : bool)
    (f : schema_field) (v : value) :
  f_instance fm = IObj d ->
  In f (d_fields d) ->
  is_ObjectIdField f = false ->
  (forall g, In g (d_fields d) -> name g = name f -> is_FileField g = false) ->
  f_cleaned_data fm !! name f = Some v ->
  not_listed (opt_fields (f_meta fm)) (name f) = false ->
  listed_in (opt_exclude (f_meta fm)) (name f) = true ->
  ref_getattr (f_instance (snd (fst (_post_clean fm w)))) (name f) = getattr d (name f)
  /\ ref_getattr (f_instance (snd (fst (BaseDocumentForm_save fm commit w)))) (name f) = v.
Proof.
  intros Hi Hin Hid Hfile Hv Hl Hx. split.
  - destruct (post_clean_instance fm w) as [-> _].
    assert (D : d_data (snd (fst (construct_instance (f_cleaned_data fm) (f_instance fm)
                                    (opt_fields (f_meta fm)) (opt_exclude (f_meta fm)) w)))
                !! name f = d_data d !! name f).
    { rewrite construct_instance_data.
      - rewrite Hi. cbn [ref_fields base_instance].
        replace (existsb _ (d_fields d)) with false; [reflexivity |].
        symmetry. apply not_true_is_false. intros E. apply existsb_exists in E.
        destruct E as (g & Hg & E). apply andb_true_iff in E. destruct E as [E _].
        apply andb_true_iff in E. destruct E as [E T].
        apply String.eqb_eq in E. unfold takes in T. rewrite E, Hx in T.
        now rewrite andb_false_r in T.
      - intros g Hg E. unfold takes. rewrite E, Hx. now rewrite andb_false_r. }
    destruct (fst (fst (construct_instance _ _ _ _ w))).
    + cbn [ref_getattr]. unfold getattr. now rewrite D.
    + unfold keep_alias. rewrite Hi in D |- *.
      cbn [with_instance f_instance ref_getattr].
      unfold getattr. now rewrite D.
  - unfold BaseDocumentForm_save.
    pose proof (save_instance_data fm (f_instance fm) (opt_fields (f_meta fm))
                  (match ref_pk (f_instance fm) with
                   | PkValue VNone => "created"
                   | PkValue _ | PkProperty => "changed"
                   | PkKeyError => "embedded docuement saved"
                   end) commit None false w) as D.
    destruct (save_instance _ _ _ _ commit None false w) as [[r obj] w1].
    cbn [fst snd] in *. unfold keep_alias. rewrite Hi in D |- *.
    cbn [with_instance f_instance ref_getattr]. unfold getattr. rewrite D.
    rewrite construct_instance_data.
    + cbn [ref_fields].
      replace (existsb _ (d_fields d)) with true; [now rewrite Hv |].
      symmetry. apply existsb_exists. exists f. split; [exact Hin |].
      rewrite String.eqb_refl. unfold takes, has_key.
      rewrite Hid, Hl, (Hfile f Hin eq_refl). cbn [listed_in truthy_list negb andb].
      rewrite bool_decide_eq_true_2 by eauto. reflexivity.
    + cbn [ref_fields]. intros g Hg E. rewrite (Hfile g Hg E).
      apply andb_false_r.
Qed.

(** ** Committing *)

Lemma save_commit_steps (fm : form) (w : world) (obj : doc) (w1 : world) :
  construct_instance (f_cleaned_data fm) (f_instance fm) (opt_fields (f_meta fm)) None w
  = (Ok tt, obj, w1) ->
  has_errors fm = false ->
  cls_has_save (d_class obj) = true ->
  BaseDocumentForm_save fm true w
  = match f_delete_before_save fm with
    | Some dbs =>
        match d_changed_fields obj with
        | Some changed =>
            match remove_changed dbs changed with
            | (Ok _, changed') =>
                (Ok (with_changed_fields obj (Some changed')),
                 keep_alias fm (with_changed_fields obj (Some changed')),
                 log_event w1
                   (EvSave (with_fields (with_changed_fields obj (Some changed'))
                              (List.filter (fun f => negb (str_in (name f) dbs))
                                 (d_fields obj)))))
            | (Raise e, changed') =>
                (Raise e, keep_alias fm (with_changed_fields obj (Some changed')), w1)
            end
        | None =>
            (Ok obj, keep_alias fm obj,
             log_event w1
               (EvSave (with_fields obj
                          (List.filter (fun f => negb (str_in (name f) dbs))
                             (d_fields obj)))))
        end
    | None => (Ok obj, keep_alias fm obj, log_event w1 (EvSave obj))
    end.
Proof.
  intros E He Hs. unfold BaseDocumentForm_save, save_instance.
  rewrite E, He, Hs. cbn [andb].
  destruct (f_delete_before_save fm) as [dbs |]; [| reflexivity].
  destruct (d_changed_fields obj) as [changed |] eqn:Hc.
  - destruct (remove_changed dbs changed) as [[[] | e] changed']; [| reflexivity].
    unfold with_fields, with_changed_fields. cbn. reflexivity.
  - destruct obj as [c fs data ch]. cbn in Hc. subst ch. reflexivity.
Qed.

(** X7.  A form without errors whose uploads can be stored is committed
    by exactly one call of the instance's [save]: the call sees the
    instance without the schema fields named in [_delete_before_save], and
    the instance [save] returns has its whole schema again and the same
    attribute values.  On an instance that tracks changes this needs every
    name of [_delete_before_save] to be marked as changed, by an earlier
    change or by the construction itself, and to be listed once. *)
Theorem save_commits_once (fm : form) (w : world) :
  has_errors fm = false ->
  uploads_ok fm ->
  cls_has_save (ref_class (f_instance fm)) = true ->
  (forall dbs, f_delete_before_save fm = Some dbs ->
     tracks (base_instance (f_instance fm)) = true ->
     List.NoDup dbs
     /\ forall n, In n dbs ->
          changed_names (base_instance (f_instance fm)) n
          \/ exists f, In f (ref_fields (f_instance fm)) /\ name f = n
                       /\ takes (f_cleaned_data fm) (opt_fields (f_meta fm)) None f = true) ->
  exists obj saved w',
    BaseDocumentForm_save fm true w = (Ok obj, keep_alias fm obj, w')
    /\ w_log w' = w_log w ++ [EvSave saved]
    /\ d_fields saved
       = List.filter
           (fun f => negb (str_in (name f) (default [] (f_delete_before_save fm))))
           (ref_fields (f_instance fm))
    /\ d_data saved = d_data obj
    /\ d_class saved = ref_class (f_instance fm)
    /\ d_fields obj = ref_fields (f_instance fm)
    /\ d_class obj = ref_class (f_instance fm).
Proof.
  intros He Hu Hs Hd.
  destruct (construct_instance_ok (f_cleaned_data fm) (f_instance fm)
              (opt_fields (f_meta fm)) None w Hu) as (obj & w1 & E & L & C).
  pose proof (construct_instance_shape (f_cleaned_data fm) (f_instance fm)
                (opt_fields (f_meta fm)) None w) as [_ F].
  rewrite E in F. cbn [fst snd] in F.
  assert (Hs' : cls_has_save (d_class obj) = true) by now rewrite C.
  rewrite (save_commit_steps fm w obj w1 E He Hs').
  destruct (f_delete_before_save fm) as [dbs |] eqn:Hdbs; cbn [default].
  - destruct (d_changed_fields obj) as [changed |] eqn:Hc.
    + destruct (construct_instance_changed (f_cleaned_data fm) (f_instance fm)
                  (opt_fields (f_meta fm)) None w "") as (T & _).
      rewrite E in T. cbn [fst snd] in T.
      assert (Ht : tracks (base_instance (f_instance fm)) = true).
      { rewrite <- T. unfold tracks. rewrite Hc. apply bool_decide_eq_true_2. eauto. }
      destruct (Hd dbs eq_refl Ht) as [Hnd Hin].
      destruct (remove_changed_ok dbs changed Hnd) as [changed' R].
      { intros n Hn.
        destruct (construct_instance_changed (f_cleaned_data fm) (f_instance fm)
                    (opt_fields (f_meta fm)) None w n) as (_ & _ & X).
        rewrite E in X. cbn [fst snd] in X. unfold changed_names at 2 in X.
        rewrite Hc in X. apply X; [reflexivity |].
        destruct (Hin n Hn) as [H | H]; [now left | right; now split]. }
      rewrite R.
      exists (with_changed_fields obj (Some changed')),
        (with_fields (with_changed_fields obj (Some changed'))
           (List.filter (fun f => negb (str_in (name f) dbs)) (d_fields obj))),
        (log_event w1
           (EvSave (with_fields (with_changed_fields obj (Some changed'))
                      (List.filter (fun f => negb (str_in (name f) dbs)) (d_fields obj))))).
      cbn [log_event w_log with_fields with_changed_fields d_fields d_data d_class].
      rewrite L, F, C. repeat split; reflexivity.
    + exists obj,
        (with_fields obj
           (List.filter (fun f => negb (str_in (name f) dbs)) (d_fields obj))),
        (log_event w1
           (EvSave (with_fields obj
                      (List.filter (fun f => negb (str_in (name f) dbs)) (d_fields obj))))).
      cbn [log_event w_log with_fields d_fields d_data d_class].
      rewrite L, F, C. repeat split; reflexivity.
  - exists obj, obj, (log_event w1 (EvSave obj)). cbn [log_event w_log].
    rewrite L, F, C. repeat split; try reflexivity.
    symmetry. apply filter_all. reflexivity.
Qed.

(** X8.  On an instance that tracks changes, [save] with commit raises
    the [ValueError] of [list.remove] and never calls the instance's
    [save] when [_delete_before_save] holds a name that is not marked as
    changed: one the instance had not changed before and that the
    construction assigns no value to. *)
Theorem save_raises_on_unchanged_name (fm : form) (w : world) (dbs : list string)
    (n : string) :
  has_errors fm = false ->
  uploads_ok fm ->
  cls_has_save (ref_class (f_instance fm)) = true ->
  f_delete_before_save fm = Some dbs ->
  tracks (base_instance (f_instance fm)) = true ->
  In n dbs ->
  ~ changed_names (base_instance (f_instance fm)) n ->
  (forall f, In f (ref_fields (f_instance fm)) -> name f = n ->
     takes (f_cleaned_data fm) (opt_fields (f_meta fm)) None f = false) ->
  exists fm' w',
    BaseDocumentForm_save fm true w
    = (Raise (ValueError "list.remove(x): x not in list"), fm', w')
    /\ w_log w' = w_log w.
Proof.
  intros He Hu Hs Hdbs Ht Hn Hnot Hnone.
  destruct (construct_instance_ok (f_cleaned_data fm) (f_instance fm)
              (opt_fields (f_meta fm)) None w Hu) as (obj & w1 & E & L & C).
  assert (Hs' : cls_has_save (d_class obj) = true) by now rewrite C.
  rewrite (save_commit_steps fm w obj w1 E He Hs'), Hdbs.
  destruct (construct_instance_changed (f_cleaned_data fm) (f_instance fm)
              (opt_fields (f_meta fm)) None w n) as (T & X & _).
  rewrite E in T, X. cbn [fst snd] in T, X.
  rewrite Ht in T. unfold tracks in T. apply bool_decide_eq_true in T.
  destruct T as [changed Hc]. rewrite Hc.
  unfold changed_names at 1 in X. rewrite Hc in X.
  pose proof (remove_changed_missing dbs changed) as R.
  destruct (remove_changed dbs changed) as [r changed']. cbn [fst] in R.
  rewrite R.
  - eexists _, _. split; [reflexivity | exact L].
  - exists n. split; [exact Hn |]. intros Hin.
    destruct (X Hin) as [H | (_ & f & Hf & Hname & Htk)]; [now apply Hnot |].
    rewrite (Hnone f Hf Hname) in Htk. discriminate.
Qed.

(** ** Constructing a second time *)

Lemma filter_none {A} (p : A -> bool) (l : list A) :
  (forall x, In x l -> p x = false) -> List.filter p l = [].
Proof.
  induction l as [|x l IH]; intros H; [reflexivity |].
  cbn [List.filter]. rewrite (H x (or_introl eq_refl)).
  apply IH. intros y Hy. apply H. now right.
Qed.

Lemma setattr_same (d : doc) (n : string) (v : value) :
  d_data d !! n = Some v ->
  (forall l, d_changed_fields d = Some l -> In n l) ->
  setattr d n v = d.
Proof.
  intros Hv Hc. destruct d as [c fs data ch]. unfold setattr. cbn in *.
  rewrite (insert_id data n v Hv). f_equal.
  destruct ch as [l |]; [| reflexivity]. cbn [mark_changed].
  specialize (Hc l eq_refl). apply str_in_In in Hc. now rewrite Hc.
Qed.

Lemma assign_fields_fixed (cleaned_data : gmap string value)
    (fields exclude : option (list string)) :
  forall (fs : list schema_field) (d : doc) (ffl : list schema_field),
    (forall f, In f fs -> takes cleaned_data fields exclude f = true ->
       is_FileField f = false
       /\ d_data d !! name f = cleaned_data !! name f
       /\ forall l, d_changed_fields d = Some l -> In (name f) l) ->
    assign_fields fs cleaned_data fields exclude d ffl = (d, ffl).
Proof.
  induction fs as [|f rest IH]; intros d ffl H; [reflexivity |].
  rewrite assign_fields_step.
  destruct (takes cleaned_data fields exclude f) eqn:T.
  - destruct (H f (or_introl eq_refl) T) as (-> & Hd & Hc).
    assert (K : is_Some (cleaned_data !! name f)).
    { unfold takes in T. apply andb_true_iff in T. destruct T as [T _].
      apply andb_true_iff in T. destruct T as [T _].
      apply andb_true_iff in T. destruct T as [_ T].
      now apply bool_decide_eq_true in T. }
    destruct K as [v Hv]. rewrite Hv in Hd |- *.
    change (default VNone (Some v)) with v.
    rewrite (setattr_same d (name f) v Hd Hc).
    apply IH. intros g Hg. apply H. now right.
  - apply IH. intros g Hg. apply H. now right.
Qed.

(** X9.  Without file uploads, constructing is idempotent and touches
    neither blob store nor trace: when no schema field that
    [construct_instance] takes a value for is a file field, the call
    returns an instance and leaves the world as it was, and a second call
    on the instance it returned, with the same cleaned data and lists,
    returns the same instance again. *)
Theorem construct_instance_idempotent (cleaned_data : gmap string value)
    (instance : instance_ref) (fields exclude : option (list string)) (w : world) :
  (forall f, In f (ref_fields instance) ->
     takes cleaned_data fields exclude f = true -> is_FileField f = false) ->
  exists obj,
    construct_instance cleaned_data instance fields exclude w = (Ok tt, obj, w)
    /\ construct_instance cleaned_data (IObj obj) fields exclude w = (Ok tt, obj, w).
Proof.
  intros H. unfold construct_instance. fold (base_instance instance).
  destruct (base_instance_fields instance) as [Hf _].
  set (b := base_instance instance) in *.
  pose proof (assign_fields_files cleaned_data fields exclude (d_fields b) b []) as F.
  pose proof (assign_fields_shape cleaned_data fields exclude (d_fields b) b [])
    as [_ S].
  assert (D : forall n, d_data (fst (assign_fields (d_fields b) cleaned_data fields
                                       exclude b [])) !! n = _)
    by (intros n; apply assign_fields_data).
  assert (C : forall m, _) by
    (intros m; exact (proj2 (assign_fields_changed cleaned_data fields exclude m
                               (d_fields b) b []))).
  pose proof (proj1 (assign_fields_changed cleaned_data fields exclude ""
                       (d_fields b) b [])) as Tr.
  destruct (assign_fields (d_fields b) cleaned_data fields exclude b []) as [obj ffl].
  cbn [fst snd app] in F, S, D, C, Tr.
  assert (Hffl : ffl = []).
  { rewrite F. apply filter_none. intros f Hin. rewrite Hf in Hin.
    destruct (takes cleaned_data fields exclude f) eqn:T; [| reflexivity].
    now rewrite (H f Hin T). }
  clear F. subst ffl. exists obj. split; [reflexivity |]. rewrite S.
  rewrite assign_fields_fixed; [reflexivity |].
  intros f Hin T. rewrite Hf in Hin. pose proof (H f Hin T) as Hfile.
  split; [exact Hfile |]. split.
  - rewrite D. replace (existsb _ (d_fields b)) with true; [reflexivity |].
    symmetry. apply existsb_exists. exists f. rewrite Hf. split; [exact Hin |].
    now rewrite String.eqb_refl, T, Hfile.
  - intros l Hl. specialize (C (name f)). unfold changed_names at 1 in C.
    rewrite Hl in C. apply C. right. split.
    + rewrite <- Tr. unfold tracks. rewrite Hl. apply bool_decide_eq_true_2. eauto.
    + exists f. rewrite Hf. tauto.
Qed.

Lemma save_ignores_deny_list_witness :
  ref_getattr (f_instance (snd (fst (_post_clean rejected_article_form empty_world))))
    "note" = VStr "old"
  /\ ref_getattr
       (f_instance (snd (fst (BaseDocumentForm_save rejected_article_form true
                                empty_world)))) "note" = VStr "new".
Proof.
  apply (save_ignores_deny_list rejected_article_form stored_article empty_world true
           note_field (VStr "new")); try reflexivity.
  - cbn. tauto.
  - intros g [<- | [<- | [<- | []]]]; reflexivity.
Defined.

Lemma article_fields_no_file (fm : form) :
  ref_fields (f_instance fm) = [id_field; title_field; note_field] -> uploads_ok fm.
Proof.
  intros E f v Hin Hfile. rewrite E in Hin.
  destruct Hin as [<- | [<- | [<- | []]]]; discriminate.
Qed.

Lemma save_commits_once_witness :
  exists obj saved w',
    BaseDocumentForm_save (snd (fst (_post_clean blank_note_form empty_world))) true
      empty_world
    = (Ok obj, keep_alias (snd (fst (_post_clean blank_note_form empty_world))) obj, w')
    /\ w_log w' = [EvSave saved]
    /\ d_fields saved = [id_field; title_field]
    /\ d_data saved = d_data obj
    /\ d_class saved = Article
    /\ d_fields obj = [id_field; title_field; note_field]
    /\ d_class obj = Article.
Proof.
  apply (save_commits_once (snd (fst (_post_clean blank_note_form empty_world)))
           empty_world).
  - reflexivity.
  - apply article_fields_no_file. reflexivity.
  - reflexivity.
  - intros dbs E _. vm_compute in E. injection E as <-. split.
    + apply List.NoDup_cons; [intros [] | apply List.NoDup_nil].
    + intros n [<- | []]. left. vm_compute. auto.
Defined.

Lemma save_raises_on_unchanged_name_witness :
  exists fm' w',
    BaseDocumentForm_save (snd (fst (_post_clean title_only_form empty_world))) true
      empty_world
    = (Raise (ValueError "list.remove(x): x not in list"), fm', w')
    /\ w_log w' = [].
Proof.
  apply (save_raises_on_unchanged_name
           (snd (fst (_post_clean title_only_form empty_world))) empty_world
           ["note"] "note").
  - reflexivity.
  - apply article_fields_no_file. reflexivity.
  - reflexivity.
  - reflexivity.
  - reflexivity.
  - now left.
  - vm_compute. intros [E | []]. discriminate.
  - intros f [<- | [<- | [<- | []]]]; intros E; try discriminate. reflexivity.
Defined.

Lemma construct_instance_idempotent_witness :
  exists obj,
    construct_instance (f_cleaned_data blank_note_form) (IObj stored_article) None None
      empty_world = (Ok tt, obj, empty_world)
    /\ construct_instance (f_cleaned_data blank_note_form) (IObj obj) None None
         empty_world = (Ok tt, obj, empty_world).
Proof.
  apply (construct_instance_idempotent (f_cleaned_data blank_note_form)
           (IObj stored_article) None None empty_world).
  intros f [<- | [<- | [<- | []]]]; reflexivity.
Defined.

(** ** What [_update_errors] changes *)

Lemma merge_error_lookup (k : string) (st : gmap string (list string) * gmap string value)
    (kv : string * list string) :
  fst (merge_error st kv) !! k
  = (if decide (k <> NON_FIELD_ERRORS /\ k = fst kv)
     then Some (default [] (fst st !! k) ++ snd kv)
     else fst st !! k)
  /\ snd (merge_error st kv) !! k
     = (if decide (k <> NON_FIELD_ERRORS /\ k = fst kv) then None else snd st !! k).
Proof.
  unfold merge_error. destruct (String.eqb_spec (fst kv) NON_FIELD_ERRORS) as [E | E].
  - destruct (decide _) as [[H1 H2] | _]; [congruence | now split].
  - cbn [fst snd]. rewrite extend_errors_lookup.
    destruct (decide (fst kv = k)) as [<- | Hne].
    + rewrite !decide_True by tauto. split; [reflexivity | apply lookup_delete_eq].
    + rewrite !decide_False by (intros [_ ->]; contradiction).
      split; [reflexivity | now apply lookup_delete_ne].
Qed.

Lemma fold_merge_error_lookup (k : string) :
  forall (l : list (string * list string))
         (st : gmap string (list string) * gmap string value),
    NoDup (l.*1) ->
    fst (fold_left merge_error l st) !! k
    = (if decide (k = NON_FIELD_ERRORS) then fst st !! k
       else match (list_to_map l : gmap string (list string)) !! k with
            | Some v => Some (default [] (fst st !! k) ++ v)
            | None => fst st !! k
            end)
    /\ snd (fold_left merge_error l st) !! k
       = (if decide (k = NON_FIELD_ERRORS) then snd st !! k
          else match (list_to_map l : gmap string (list string)) !! k with
               | Some _ => None
               | None => snd st !! k
               end).
Proof.
  induction l as [|[k' v'] rest IH]; intros st Hnd.
  - cbn. destruct (decide _); now rewrite ?lookup_empty.
  - cbn [fold_left]. cbn [fmap list_fmap fst] in Hnd.
    apply NoDup_cons in Hnd. destruct Hnd as [Hk' Hnd].
    destruct (IH (merge_error st (k', v')) Hnd) as [-> ->].
    destruct (merge_error_lookup k st (k', v')) as [-> ->]. cbn [fst snd].
    destruct (decide (k = NON_FIELD_ERRORS)) as [-> | Hk].
    + rewrite !decide_False by tauto. now split.
    + cbn [list_to_map foldr uncurry]. cbn.
      destruct (decide (k = k')) as [<- | Hne].
      * rewrite !decide_True by tauto.
        rewrite (not_elem_of_list_to_map_1 (M:=gmap string) rest k Hk').
        rewrite lookup_insert_eq. now split.
      * rewrite !decide_False by tauto. rewrite lookup_insert_ne by congruence.
        now split.
Qed.

(** X10.  [_update_errors] touches the keys of the message dict only and
    never drops a message: under every key the messages of the dict come
    after the ones that were attached before.  A cleaned value goes under
    a field key of the dict and nowhere else; the cleaned value under
    ['__all__'] stays. *)
Theorem update_errors_appends (fm : form) (md : gmap string (list string)) (k : string) :
  f_errors (_update_errors fm md) !! k
  = match md !! k with
    | Some v => Some (default [] (f_errors fm !! k) ++ v)
    | None => f_errors fm !! k
    end
  /\ f_cleaned_data (_update_errors fm md) !! k
     = if bool_decide (k <> NON_FIELD_ERRORS /\ is_Some (md !! k))
       then None
       else f_cleaned_data fm !! k.
Proof.
  destruct (update_errors_fields fm md) as (-> & -> & _).
  destruct (fold_merge_error_lookup k (map_to_list md) (f_errors fm, f_cleaned_data fm)
              (NoDup_fst_map_to_list md)) as [He Hc].
  rewrite list_to_map_to_list in He, Hc. cbn [fst snd] in He, Hc. split.
  - destruct (decide (k = NON_FIELD_ERRORS)) as [-> | Hk].
    + destruct (md !! NON_FIELD_ERRORS) as [m |]; [| exact He].
      rewrite extend_errors_lookup, decide_True by reflexivity. now rewrite He.
    + destruct (md !! NON_FIELD_ERRORS) as [m |]; [| exact He].
      rewrite extend_errors_lookup, decide_False by congruence. exact He.
  - rewrite Hc. destruct (decide (k = NON_FIELD_ERRORS)) as [-> | Hk].
    + rewrite bool_decide_eq_false_2 by tauto. reflexivity.
    + destruct (md !! k) as [v |].
      * rewrite bool_decide_eq_true_2 by eauto. reflexivity.
      * rewrite bool_decide_eq_false_2; [reflexivity |]. intros [_ [x Hx]]. discriminate.
Qed.

(** ** The validation exclusions *)

Lemma exclusions_loop_names (fm : form) :
  forall (fs : list schema_field) (acc : list string),
    exclusions_loop fs fm acc = acc ++ map name (List.filter (excluded_field fm) fs).
Proof.
  induction fs as [|f rest IH]; intros acc; cbn [exclusions_loop List.filter map];
    [now rewrite app_nil_r |].
  rewrite IH. destruct (excluded_field fm f); [| reflexivity].
  now rewrite <- app_assoc.
Qed.

Lemma excluded_field_because (fm : form) (f : schema_field) :
  excluded_field fm f = true <-> excluded_because fm f.
Proof.
  unfold excluded_field, excluded_because.
  destruct (sd_has (name f) (f_fields fm)); cbn [negb]; [| tauto].
  destruct (truthy_list (opt_fields (f_meta fm))); cbn [andb].
  - destruct (str_in (name f) (default [] (opt_fields (f_meta fm)))) eqn:Ef; cbn [negb].
    + apply str_in_In in Ef.
      destruct (truthy_list (opt_exclude (f_meta fm))); cbn [andb].
      * destruct (str_in (name f) (default [] (opt_exclude (f_meta fm)))) eqn:Ex.
        -- apply str_in_In in Ex. tauto.
        -- apply str_in_false in Ex. unfold has_key.
           destruct (bool_decide (is_Some (f_errors fm !! name f))) eqn:Ee.
           ++ apply bool_decide_eq_true in Ee. tauto.
           ++ apply bool_decide_eq_false in Ee. rewrite andb_true_iff, negb_true_iff.
              intuition congruence.
      * unfold has_key.
        destruct (bool_decide (is_Some (f_errors fm !! name f))) eqn:Ee.
        -- apply bool_decide_eq_true in Ee. tauto.
        -- apply bool_decide_eq_false in Ee. rewrite andb_true_iff, negb_true_iff.
           intuition congruence.
    + apply str_in_false in Ef. tauto.
  - destruct (truthy_list (opt_exclude (f_meta fm))); cbn [andb].
    + destruct (str_in (name f) (default [] (opt_exclude (f_meta fm)))) eqn:Ex.
      * apply str_in_In in Ex. tauto.
      * apply str_in_false in Ex. unfold has_key.
        destruct (bool_decide (is_Some (f_errors fm !! name f))) eqn:Ee.
        -- apply bool_decide_eq_true in Ee. tauto.
        -- apply bool_decide_eq_false in Ee. rewrite andb_true_iff, negb_true_iff.
           intuition congruence.
    + unfold has_key.
      destruct (bool_decide (is_Some (f_errors fm !! name f))) eqn:Ee.
      * apply bool_decide_eq_true in Ee. tauto.
      * apply bool_decide_eq_false in Ee. rewrite andb_true_iff, negb_true_iff.
        intuition congruence.
Qed.

(** X13.  [_get_validation_exclusions] names, in schema order, the schema
    fields that are not on the form, that a non-empty allow-list of the
    options leaves out, that a non-empty deny-list names, that have an
    error already, or that are optional and have an empty cleaned value;
    and no other name. *)
Theorem validation_exclusions_spec (fm : form) :
  _get_validation_exclusions fm
  = map name (List.filter (excluded_field fm) (ref_fields (f_instance fm)))
  /\ forall n, In n (_get_validation_exclusions fm)
       <-> exists f, In f (ref_fields (f_instance fm)) /\ name f = n
                     /\ excluded_because fm f.
Proof.
  assert (E : _get_validation_exclusions fm
              = map name (List.filter (excluded_field fm) (ref_fields (f_instance fm)))).
  { unfold _get_validation_exclusions. now rewrite exclusions_loop_names. }
  split; [exact E |]. intros n. rewrite E, in_map_iff. split.
  - intros (f & Hn & Hf). apply List.filter_In in Hf. destruct Hf as [Hin Hx].
    exists f. split; [exact Hin |]. split; [exact Hn |].
    now apply excluded_field_because.
  - intros (f & Hin & Hn & Hx). exists f. split; [exact Hn |].
    apply List.filter_In. split; [exact Hin |]. now apply excluded_field_because.
Qed.

(** ** Uniqueness validation without a collection *)

Lemma validate_unique_loop_raises (exclude : list string) (fm : form) (w : world) :
  match f_instance fm with
  | IClass _ => True
  | IObj d => cls_has_objects (d_class d) = false
  end ->
  forall (fs : list schema_field) (errors : list (gmap string (list string))),
    (exists f, In f fs /\ unique f = true /\ str_in (name f) exclude = false) ->
    validate_unique_loop fs exclude fm w errors = (Raise AttributeError, fm).
Proof.
  intros Hi. induction fs as [|f0 rest IH]; intros errors (f & Hin & Hu & Hx);
    [destruct Hin |].
  cbn [validate_unique_loop].
  destruct (unique f0 && negb (str_in (name f0) exclude)) eqn:T.
  - destruct (f_instance fm) as [c | d]; [reflexivity |]. now rewrite Hi.
  - apply IH. exists f. split; [| now split].
    destruct Hin as [-> | Hin]; [| exact Hin]. now rewrite Hu, Hx in T.
Qed.

Lemma validate_unique_loop_skips (exclude : list string) (fm : form) (w : world) :
  forall (fs : list schema_field) (errors : list (gmap string (list string))),
    (forall f, In f fs -> unique f = true -> str_in (name f) exclude = true) ->
    validate_unique_loop fs exclude fm w errors = (Ok errors, fm).
Proof.
  induction fs as [|f0 rest IH]; intros errors H; [reflexivity |].
  cbn [validate_unique_loop].
  destruct (unique f0) eqn:U; cbn [andb].
  - rewrite (H f0 (or_introl eq_refl) U). cbn [negb]. apply IH.
    intros g Hg. apply H. now right.
  - apply IH. intros g Hg. apply H. now right.
Qed.

(** X14.  [validate_unique] needs an instance of a class with a
    collection: on a form that still holds the document class, or whose
    instance belongs to a class without an [objects] manager, as embedded
    documents do, it raises [AttributeError] as soon as the schema has a
    unique field outside the exclusions, and has then changed nothing on
    the form. *)
Theorem validate_unique_without_collection (fm : form) (w : world) (f : schema_field) :
  In f (ref_fields (f_instance fm)) ->
  unique f = true ->
  str_in (name f) (_get_validation_exclusions fm) = false ->
  match f_instance fm with
  | IClass _ => True
  | IObj d => cls_has_objects (d_class d) = false
  end ->
  validate_unique fm w = (Raise AttributeError, fm).
Proof.
  intros Hin Hu Hx Hi. unfold validate_unique.
  apply validate_unique_loop_raises; [exact Hi |]. exists f. now split.
Qed.

(** ** [_post_clean] on a submission that passes *)

Lemma exclusions_loop_ext (fm fm' : form) :
  f_fields fm' = f_fields fm -> f_meta fm' = f_meta fm ->
  f_errors fm' = f_errors fm -> f_cleaned_data fm' = f_cleaned_data fm ->
  forall (fs : list schema_field) (acc : list string),
    exclusions_loop fs fm' acc = exclusions_loop fs fm acc.
Proof.
  intros Hf Hm He Hc. induction fs as [|f rest IH]; intros acc; [reflexivity |].
  cbn [exclusions_loop]. unfold excluded_field. rewrite Hf, Hm, He, Hc. apply IH.
Qed.

(** X12.  A submission that passes goes through [_post_clean] with its
    errors and cleaned data as they were: when the instance can be
    constructed, the validator of every schema field outside the
    exclusions accepts the instance's value, the [clean] hook of the
    class, if there is one, raises nothing and no unique field is left to
    check, [_post_clean] returns, the form holds the constructed instance,
    and [_delete_before_save] is the list of the excluded schema fields
    whose value on the instance is the empty string, in schema order. *)
Theorem post_clean_accepts (fm : form) (w : world) (obj : doc) (w1 : world) :
  construct_instance (f_cleaned_data fm) (f_instance fm)
    (opt_fields (f_meta fm)) (opt_exclude (f_meta fm)) w = (Ok tt, obj, w1) ->
  (forall f, In f (d_fields obj) ->
     str_in (name f) (_get_validation_exclusions (with_instance fm (IObj obj))) = false ->
     validate f (getattr obj (name f)) = None) ->
  (forall hook, cls_clean (d_class obj) = Some hook -> hook (d_data obj) = None) ->
  (f_validate_unique fm = true ->
   forall f, In f (d_fields obj) -> unique f = true ->
     str_in (name f) (_get_validation_exclusions (with_instance fm (IObj obj))) = true) ->
  _post_clean fm w
  = (Ok tt,
     with_delete_before_save (with_instance fm (IObj obj))
       (empty_excluded obj (_get_validation_exclusions (with_instance fm (IObj obj)))
          (d_fields obj)),
     w1).
Proof.
  intros E Hv Hh Hu. unfold _post_clean. rewrite E.
  set (fm1 := with_instance fm (IObj obj)) in *.
  rewrite clean_fields_loop_all_pass.
  2: { intros f Hin. unfold fails.
       destruct (str_in (name f) (_get_validation_exclusions fm1)) eqn:X; [reflexivity |].
       rewrite (Hv f Hin X). cbn [negb andb]. apply bool_decide_eq_false_2.
       intros [x Hx]. discriminate. }
  cbn [app].
  set (fm3 := with_delete_before_save fm1 _).
  assert (H4 : match cls_clean (d_class obj) with
               | Some hook =>
                   match hook (d_data obj) with
                   | Some messages => _update_errors fm3 {[NON_FIELD_ERRORS := messages]}
                   | None => fm3
                   end
               | None => fm3
               end = fm3).
  { destruct (cls_clean (d_class obj)) as [hook |]; [| reflexivity].
    now rewrite (Hh hook eq_refl). }
  rewrite H4.
  change (f_validate_unique fm3) with (f_validate_unique fm).
  destruct (f_validate_unique fm) eqn:Fu; [| reflexivity].
  unfold validate_unique.
  assert (X : _get_validation_exclusions fm3 = _get_validation_exclusions fm1).
  { unfold _get_validation_exclusions. now apply exclusions_loop_ext. }
  rewrite X, validate_unique_loop_skips; [reflexivity |].
  intros f Hin. apply (Hu eq_refl f Hin).
Qed.

(** ** [clean] and the uniqueness check *)






Lemma validate_unique_without_collection_witness :
  validate_unique new_user_form taken_world = (Raise AttributeError, new_user_form).
Proof.
  apply (validate_unique_without_collection new_user_form taken_world email_field).
  - cbn. tauto.
  - reflexivity.
  - reflexivity.
  - exact I.
Defined.

Lemma post_clean_accepts_witness :
  exists fm',
    _post_clean blank_note_form empty_world = (Ok tt, fm', empty_world)
    /\ f_delete_before_save fm' = Some ["note"]
    /\ f_errors fm' = ∅.
Proof.
  eexists. split.
  - apply (post_clean_accepts blank_note_form empty_world
             (snd (fst (construct_instance (f_cleaned_data blank_note_form)
                          (f_instance blank_note_form) None None empty_world)))
             empty_world).
    + reflexivity.
    + intros f Hin _. vm_compute in Hin.
      destruct Hin as [<- | [<- | [<- | []]]]; reflexivity.
    + intros hook E. discriminate E.
    + intros E. discriminate E.
  - split; reflexivity.
Defined.


(** ** A callback that cannot be called *)

Lemma derive_fields_not_callable (fields exclude : option (list string))
    (widgets : option (gmap string string)) (gen : generator) :
  forall (fs : list schema_field) (field_list : list (string * formfield))
         (ignored : list string),
    derive_fields fs fields exclude widgets (Some NotCallable) gen field_list ignored
    = if existsb (passes fields exclude) fs
      then Raise (TypeError "formfield_callback must be a function or callable")
      else Ok (field_list, ignored).
Proof.
  induction fs as [|f rest IH]; intros field_list ignored; [reflexivity |].
  cbn [derive_fields existsb]. unfold passes at 1, derivable.
  destruct (is_ObjectIdField f || is_ListField f); cbn [negb andb orb]; [apply IH |].
  destruct (not_listed fields (name f)); cbn [negb andb orb]; [apply IH |].
  destruct (listed_in exclude (name f)); cbn [negb andb orb]; [apply IH |].
  reflexivity.
Qed.

(** X15.  A [formfield_callback] that is no callable is noticed only
    when a schema field gets as far as the callback: [fields_for_document]
    and the definition of a form class raise the [TypeError] exactly when
    some schema field is neither identity nor list field, is admitted by
    the allow-list and is not on the deny-list.  Otherwise
    [fields_for_document] returns a mapping without a single form field. *)
Theorem non_callable_callback_noticed (document : doc_class)
    (fields exclude : option (list string)) (widgets : option (gmap string string))
    (emb : option string) (declared : list (string * formfield)) (gen : generator) :
  ((exists f, In f (cls_fields document) /\ passes fields exclude f = true) ->
   fields_for_document document fields exclude widgets (Some NotCallable) gen
   = Raise (TypeError "formfield_callback must be a function or callable")
   /\ DocumentFormMetaclass_new true
        (Some (MetaBlock (Some document) fields exclude widgets emb)) declared
        (Some NotCallable) gen
      = Raise (TypeError "formfield_callback must be a function or callable"))
  /\ ((forall f, In f (cls_fields document) -> passes fields exclude f = false) ->
      exists auto,
        fields_for_document document fields exclude widgets (Some NotCallable) gen
        = Ok auto
        /\ forall k v, In (k, v) auto -> v = None).
Proof.
  unfold fields_for_document. rewrite derive_fields_not_callable. split.
  - intros (f & Hin & Hp).
    assert (E : existsb (passes fields exclude) (cls_fields document) = true).
    { apply existsb_exists. eauto. }
    assert (F : fields_for_document document fields exclude widgets (Some NotCallable) gen
                = Raise (TypeError "formfield_callback must be a function or callable")).
    { unfold fields_for_document. now rewrite derive_fields_not_callable, E. }
    rewrite E. split; [reflexivity |]. rewrite metaclass_with_document.
    now rewrite F.
  - intros H.
    assert (E : existsb (passes fields exclude) (cls_fields document) = false).
    { apply not_true_is_false. intros X. apply existsb_exists in X.
      destruct X as (f & Hin & Hp). rewrite (H f Hin) in Hp. discriminate. }
    rewrite E. destruct (truthy_list fields).
    + eexists. split; [reflexivity |]. intros k v Hin.
      apply sd_get_In in Hin; [| apply SortedDict_keys_NoDup].
      rewrite SortedDict_listed_get in Hin.
      destruct (str_in k _); [| discriminate]. now injection Hin as <-.
    + eexists. split; [reflexivity |]. intros k v [].
Qed.

(** ** The empty allow-list *)

Lemma derive_fields_none_listed (exclude : option (list string))
    (widgets : option (gmap string string)) (cb : option callback) (gen : generator) :
  forall (fs : list schema_field) (field_list : list (string * formfield))
         (ignored : list string),
    derive_fields fs (Some []) exclude widgets cb gen field_list ignored
    = Ok (field_list, ignored).
Proof.
  induction fs as [|f rest IH]; intros field_list ignored; [reflexivity |].
  cbn [derive_fields not_listed str_in existsb negb].
  destruct (is_ObjectIdField f || is_ListField f); apply IH.
Qed.

Lemma document_to_dict_loop_empty_list (instance : doc) (exclude : option (list string)) :
  forall (fs : list schema_field) (data : gmap string value),
    document_to_dict_loop fs instance (Some []) exclude data
    = document_to_dict_loop fs instance None exclude data.
Proof.
  induction fs as [|f rest IH]; intros data; [reflexivity |].
  cbn [document_to_dict_loop truthy_list andb].
  destruct (listed_in exclude (name f)); apply IH.
Qed.

(** X16.  An allow-list that is empty is read in two ways.  For
    [fields_for_document] and [construct_instance] it admits no name: the
    first derives no form field, whatever the callback, and the second
    returns the instance as it was and leaves the world alone.  For
    [document_to_dict] it is no allow-list at all: the result is the one
    without allow-list. *)
Theorem empty_allow_list (document : doc_class) (exclude : option (list string))
    (widgets : option (gmap string string)) (cb : option callback) (gen : generator)
    (cleaned_data : gmap string value) (instance : instance_ref) (w : world) (d : doc) :
  fields_for_document document (Some []) exclude widgets cb gen = Ok []
  /\ construct_instance cleaned_data instance (Some []) exclude w
     = (Ok tt, base_instance instance, w)
  /\ document_to_dict d (Some []) exclude = document_to_dict d None exclude.
Proof.
  split; [| split].
  - unfold fields_for_document. now rewrite derive_fields_none_listed.
  - unfold construct_instance. fold (base_instance instance).
    rewrite assign_fields_fixed; [reflexivity |].
    intros f _ T. unfold takes in T. cbn [not_listed str_in existsb negb] in T.
    rewrite andb_false_r in T. discriminate.
  - apply document_to_dict_loop_empty_list.
Qed.

(** ** The initial data of a form *)

(** X17.  Initial values given to the constructor win over the values of
    the instance: under every name the form's initial data holds the given
    value when there is one, and otherwise what [document_to_dict] copied
    from the instance; an unbound form shows the given value.  With an
    instance the constructor raises nothing, document class or not. *)
Theorem initial_overrides_instance (opts : ModelFormOptions)
    (base_fields : list (string * option formfield)) (data : option (gmap string value))
    (initial : gmap string value) (d : doc) (n : string) :
  exists fm,
    BaseDocumentForm_init opts base_fields data (Some initial) (Some d) = Ok fm
    /\ f_instance fm = IObj d
    /\ f_initial fm !! n
       = match initial !! n with
         | Some v => Some v
         | None => document_to_dict d (opt_fields opts) (opt_exclude opts) !! n
         end
    /\ forall v, initial !! n = Some v -> display_value fm n = v.
Proof.
  eexists. split; [reflexivity |]. split; [reflexivity |].
  cbn [f_initial]. split.
  - rewrite lookup_union. destruct (initial !! n) as [v |].
    + now destruct (document_to_dict d (opt_fields opts) (opt_exclude opts) !! n).
    + now destruct (document_to_dict d (opt_fields opts) (opt_exclude opts) !! n).
  - intros v Hv. unfold display_value. cbn [f_initial]. rewrite lookup_union, Hv.
    now destruct (document_to_dict d (opt_fields opts) (opt_exclude opts) !! n).
Qed.

(** ** The embedded form without a field name *)


(** ** A formset whose forms have no deletion flag *)

Lemma formset_save_loop_no_flag (n : nat) :
  forall (forms : list form) (i : nat) (saved : list doc) (done : list form) (w : world),
    (forall fm, In fm forms ->
       f_cleaned_data fm !! "DELETE" = None /\ has_errors fm = false /\ uploads_ok fm) ->
    ((forall j fm, forms !! j = Some fm -> skipped n (i + j) fm = true) ->
     formset_save_loop i forms n saved done w = (Ok saved, done ++ forms, w))
    /\ ((exists j fm, forms !! j = Some fm /\ skipped n (i + j) fm = false) ->
        exists done' w',
          formset_save_loop i forms n saved done w = (Raise KeyError, done', w')
          /\ w_log w' = w_log w).
Proof.
  induction forms as [|fm rest IH]; intros i saved done w H.
  - split.
    + intros _. cbn [formset_save_loop]. now rewrite app_nil_r.
    + intros (j & fm & Hj & _). discriminate Hj.
  - assert (Hrest : forall fm', In fm' rest ->
              f_cleaned_data fm' !! "DELETE" = None /\ has_errors fm' = false
              /\ uploads_ok fm').
    { intros fm' Hin. apply H. now right. }
    destruct (H fm (or_introl eq_refl)) as (Hd & He & Hu).
    cbn [formset_save_loop]. fold (skipped n i fm).
    destruct (skipped n i fm) eqn:Sk.
    + destruct (IH (S i) saved (done ++ [fm]) w Hrest) as [A B]. split.
      * intros Hall. rewrite A; [now rewrite <- app_assoc |].
        intros j fm' Hj. replace (S i + j) with (i + S j) by lia. now apply Hall.
      * intros (j & fm' & Hj & Hs). apply B. destruct j as [|j].
        -- injection Hj as <-. rewrite Nat.add_0_r in Hs. congruence.
        -- exists j, fm'. split; [exact Hj |].
           replace (S i + j) with (i + S j) by lia. exact Hs.
    + split.
      * intros Hall. specialize (Hall 0 fm eq_refl). rewrite Nat.add_0_r in Hall.
        congruence.
      * intros _. unfold save_object, BaseDocumentForm_save, save_instance.
        destruct (construct_instance_ok (f_cleaned_data fm) (f_instance fm)
                    (opt_fields (f_meta fm)) None w Hu) as (obj & w' & E & L & C).
        rewrite E, He. cbn [andb]. rewrite keep_alias_cleaned_data, Hd.
        eexists _, _. split; [reflexivity | exact L].
Qed.

(** X21.  The formset's [save] reads the deletion flag of every form it
    does not skip.  In a formset whose forms have no [DELETE] among their
    cleaned data, as in one made without deletion, [save] returns the
    empty list when it skips every form, and otherwise raises [KeyError]
    at the first form it does not skip, without a call to the persistence
    layer. *)
Theorem formset_save_needs_delete_flag (fs : formset) (commit : bool) (w : world) :
  (forall fm, In fm (fs_forms fs) ->
     f_cleaned_data fm !! "DELETE" = None /\ has_errors fm = false /\ uploads_ok fm) ->
  ((forall i fm, fs_forms fs !! i = Some fm ->
      skipped (fs_initial_form_count fs) i fm = true) ->
   BaseDocumentFormSet_save fs commit w = (Ok [], fs, w))
  /\ ((exists i fm, fs_forms fs !! i = Some fm
                    /\ skipped (fs_initial_form_count fs) i fm = false) ->
      exists fs' w',
        BaseDocumentFormSet_save fs commit w = (Raise KeyError, fs', w')
        /\ w_log w' = w_log w).
Proof.
  intros H. unfold BaseDocumentFormSet_save.
  destruct (formset_save_loop_no_flag (fs_initial_form_count fs) (fs_forms fs) 0 [] [] w H)
    as [A B].
  split.
  - intros Hall. rewrite (A Hall). cbn [app]. now destruct fs.
  - intros Hex. destruct (B Hex) as (done' & w' & E & L). rewrite E.
    eexists _, _. split; [reflexivity | exact L].
Qed.


Lemma formset_save_needs_delete_flag_witness :
  exists fs' w',
    BaseDocumentFormSet_save (FormSet [article_form_without_flag] 0) true empty_world
    = (Raise KeyError, fs', w')
    /\ w_log w' = [].
Proof.
  apply (formset_save_needs_delete_flag (FormSet [article_form_without_flag] 0) true
           empty_world).
  - intros fm [<- | []]. split; [reflexivity |]. split; [reflexivity |].
    intros f v [<- | [<- | [<- | []]]] Hff; discriminate.
  - exists 0, article_form_without_flag. split; reflexivity.
Defined.

(** ** The formset's initial data *)

Lemma document_to_dict_all (d : doc) (f : schema_field) :
  In f (d_fields d) ->
  document_to_dict d None None !! name f = Some (getattr d (name f)).
Proof.
  intros Hin. unfold document_to_dict.
  apply document_to_dict_loop_copies; [reflexivity | exact Hin].
Qed.

(** X19.  A formset that is not bound takes its initial forms from the
    queryset: their number is the number of documents, which is also the
    number of initial dicts [construct_initial] makes, and the dict at
    each position holds, under the name of every schema field, the value
    the document at that position has.  Without a queryset
    [construct_initial] makes no initial dict, but [initial_form_count]
    raises [TypeError]; the inline formset answers 0 when it saves as
    new, queryset or not. *)
Theorem unbound_formset_initial (data files : option (gmap string value))
    (management_count : outcome nat) :
  dict_truthy data = false ->
  dict_truthy files = false ->
  (forall docs,
     initial_form_count data files (Some docs) management_count
     = Ok (length (construct_initial (Some docs)))
     /\ length (construct_initial (Some docs)) = length docs
     /\ forall i d, docs !! i = Some d ->
          exists initial,
            construct_initial (Some docs) !! i = Some initial
            /\ forall f, In f (d_fields d) ->
                 initial !! name f = Some (getattr d (name f)))
  /\ construct_initial None = []
  /\ initial_form_count data files None management_count
     = Raise (TypeError "object of type 'NoneType' has no len()")
  /\ forall queryset,
       inline_initial_form_count true data files queryset management_count = Ok 0.
Proof.
  intros Hd Hf. unfold initial_form_count, construct_initial, get_queryset.
  rewrite Hd, Hf. cbn [orb negb]. split; [| now repeat split].
  intros docs. rewrite length_map. split; [reflexivity |]. split; [reflexivity |].
  intros i d Hi. exists (document_to_dict d None None). split.
  - rewrite list_lookup_fmap, Hi. reflexivity.
  - intros f Hin. now apply document_to_dict_all.
Qed.

Lemma unbound_formset_initial_witness :
  initial_form_count None (Some ∅) (Some [stored_article]) (Ok 5) = Ok 1
  /\ construct_initial None = []
  /\ initial_form_count None (Some ∅) None (Ok 5)
     = Raise (TypeError "object of type 'NoneType' has no len()").
Proof.
  assert (Hf : dict_truthy (Some ∅) = false) by reflexivity.
  destruct (unbound_formset_initial None (Some ∅) (Ok 5) eq_refl Hf)
    as (H1 & H2 & H3 & _).
  split; [exact (proj1 (H1 [stored_article])) | split; [exact H2 | exact H3]].
Defined.

(** ** Form classes made by the factory *)

(** X20.  A form class that [documentform_factory] makes on a document
    form class always carries the document: its options hold the document
    class given, the allow-list and the deny-list given, or those of the
    parent's [Meta] where none is given, and the declared fields of the
    parent; so a form of the class can be made without an instance and
    then holds the document class. *)
Theorem factory_class_has_document (document : doc_class) (form : parent_form)
    (fields exclude : option (list string)) (formfield_callback : option callback)
    (formfield_generator : generator) (fc : form_class) :
  pf_is_document_form form = true ->
  snd (documentform_factory document form fields exclude formfield_callback
         formfield_generator) = Ok fc ->
  exists opts base_fields,
    fc_meta fc = Some opts
    /\ fc_base_fields fc = Some base_fields
    /\ fc_declared_fields fc = Some (pf_declared_fields form)
    /\ opt_document opts
       = Some (if cls_meta_is_dict document then upgrade_meta document else document)
    /\ opt_fields opts
       = match fields with Some l => Some l | None => pf_Meta form ≫= mb_fields end
    /\ opt_exclude opts
       = match exclude with Some l => Some l | None => pf_Meta form ≫= mb_exclude end
    /\ forall data initial,
         exists fm,
           BaseDocumentForm_init opts base_fields data initial None = Ok fm
           /\ f_instance fm
              = IClass (if cls_meta_is_dict document
                        then upgrade_meta document else document).
Proof.
  intros Hp E. unfold documentform_factory, factory_Meta in E. cbn [snd] in E.
  rewrite Hp, metaclass_with_document in E.
  destruct (fields_for_document document _ _ _ formfield_callback formfield_generator)
    as [auto | e]; [| discriminate E].
  destruct (missing_fields auto (pf_declared_fields form)); [| discriminate E].
  injection E as <-. eexists _, _. cbn [fc_meta fc_base_fields fc_declared_fields].
  split; [reflexivity |]. split; [reflexivity |]. split; [reflexivity |].
  cbn [opt_document opt_fields opt_exclude].
  split; [reflexivity |]. split; [reflexivity |]. split; [reflexivity |].
  intros data initial. unfold BaseDocumentForm_init. cbn [opt_document].
  eexists. split; reflexivity.
Qed.

Lemma factory_class_has_document_witness :
  exists fc opts base_fields,
    snd (documentform_factory Article (ParentForm true None []) (Some ["title"]) None
           None sample_generator) = Ok fc
    /\ fc_meta fc = Some opts
    /\ fc_base_fields fc = Some base_fields
    /\ opt_document opts = Some Article
    /\ opt_fields opts = Some ["title"].
Proof.
  destruct (documentform_factory Article (ParentForm true None []) (Some ["title"]) None
              None sample_generator) as [class_name [fc | e]] eqn:E;
    [| discriminate E].
  destruct (factory_class_has_document Article (ParentForm true None [])
              (Some ["title"]) None None sample_generator fc eq_refl)
    as (opts & base_fields & H1 & H2 & _ & H4 & H5 & _).
  - now rewrite E.
  - exists fc, opts, base_fields. repeat split; assumption.
Defined.

(** ** The fields of a form class *)

Lemma sd_keys_fmap {V W} (g : V -> W) (items : list (string * V)) :
  sd_keys (map (fun kv => (fst kv, g (snd kv))) items) = sd_keys items.
Proof.
  unfold sd_keys. rewrite map_map. reflexivity.
Qed.

Lemma get_last_None_keys {V} (n : string) (items : list (string * V)) :
  get_last n items = None -> ~ In n (sd_keys items).
Proof.
  induction items as [|[k x] rest IH]; intros G; [intros [] |].
  cbn [get_last] in G. destruct (get_last n rest) as [y |]; [discriminate |].
  destruct (String.eqb_spec n k) as [-> | Hne]; [discriminate |].
  intros [Hk | Hk]; [cbn in Hk; congruence | now apply IH].
Qed.

Lemma fields_for_document_keys (document : doc_class) fields exclude widgets cb gen
    (auto : list (string * option formfield)) :
  fields_for_document document fields exclude widgets cb gen = Ok auto ->
  List.NoDup (sd_keys auto).
Proof.
  unfold fields_for_document.
  destruct (derive_fields _ fields exclude widgets cb gen [] []) as [[fl ig] | e];
    [| discriminate].
  destruct (truthy_list fields); intros E; injection E as <-.
  - apply SortedDict_keys_NoDup.
  - rewrite sd_keys_fmap. apply SortedDict_keys_NoDup.
Qed.

(** X22.  Every entry of the [base_fields] of a form class that the
    metaclass lets through is a form field: the names for which
    [fields_for_document] has no form field are all declared on the class,
    and the declared field takes their place.  No name occurs twice. *)
Theorem base_fields_are_form_fields (document : doc_class)
    (fields exclude : option (list string)) (widgets : option (gmap string string))
    (emb : option string) (declared : list (string * formfield))
    (cb : option callback) (gen : generator) (fc : form_class) :
  DocumentFormMetaclass_new true
    (Some (MetaBlock (Some document) fields exclude widgets emb)) declared cb gen
  = Ok fc ->
  exists base_fields,
    fc_base_fields fc = Some base_fields
    /\ List.NoDup (sd_keys base_fields)
    /\ forall n v, In (n, v) base_fields -> exists ff, v = Some ff.
Proof.
  rewrite metaclass_with_document.
  destruct (fields_for_document document fields exclude widgets cb gen)
    as [auto | e] eqn:F; [| discriminate].
  pose proof (fields_for_document_keys _ _ _ _ _ _ _ F) as Hnd.
  destruct (missing_fields auto declared) as [| m ms] eqn:M; [| discriminate].
  intros E. injection E as <-. eexists. split; [reflexivity |].
  assert (Hfinal : List.NoDup
                     (sd_keys (sd_update auto
                                 (map (fun kv => (fst kv, Some (snd kv))) declared)))).
  { rewrite sd_keys_update. now apply fold_add_key_NoDup. }
  split; [exact Hfinal |]. intros n v Hin.
  apply (sd_get_In _ n v Hfinal) in Hin. rewrite sd_get_update in Hin.
  rewrite (get_last_fmap Some n declared) in Hin.
  destruct (get_last n declared) as [ff |] eqn:G; cbn [fmap option_fmap option_map] in Hin.
  - injection Hin as <-. eauto.
  - destruct v as [ff |]; [eauto |]. exfalso.
    assert (X : In n (missing_fields auto declared)).
    { apply missing_fields_In; [exact Hnd |]. split; [exact Hin |].
      unfold sd_has. apply str_in_false. now apply get_last_None_keys. }
    rewrite M in X. destruct X.
Qed.

Lemma base_fields_are_form_fields_witness :
  exists base_fields,
    fc_base_fields
      {| fc_meta := Some (Options (Some Article) (Some Article) (Some ["title"; "extra"])
                            None None None);
         fc_declared_fields := Some [("extra", text_area)];
         fc_base_fields := Some [("title", Some char_field); ("extra", Some text_area)] |}
    = Some base_fields
    /\ List.NoDup (sd_keys base_fields)
    /\ forall n v, In (n, v) base_fields -> exists ff, v = Some ff.
Proof.
  apply (base_fields_are_form_fields Article (Some ["title"; "extra"]) None None None
           [("extra", text_area)] None sample_generator).
  reflexivity.
Defined.

(** ** Storing an upload a second time *)

Lemma gf_id_le_max (fs : list grid_file) (g : grid_file) :
  In g fs -> gf_id g <= fold_right Nat.max 0 (map gf_id fs).
Proof.
  induction fs as [|x fs IH]; intros H; [destruct H |].
  cbn [map fold_right]. destruct H as [-> | H]; [lia |].
  specialize (IH H). lia.
Qed.

Lemma fs_delete_put (fs : list grid_file) (u : upload) (content_type filename : string) :
  fs_delete (snd (fs_put fs u content_type filename))
    (Some (fst (fs_put fs u content_type filename)))
  = fs.
Proof.
  unfold fs_put, fs_delete. cbn [fst snd]. rewrite List.filter_app.
  cbn [List.filter gf_id]. rewrite Nat.eqb_refl. cbn [negb]. rewrite app_nil_r.
  apply filter_all. intros g Hg. apply negb_true_iff, Nat.eqb_neq.
  pose proof (gf_id_le_max fs g Hg). lia.
Qed.

Lemma store_one_file (cleaned_data : gmap string value) (f : schema_field) (u : upload)
    (d : doc) (w : world) :
  cleaned_data !! name f = Some (VUpload u) ->
  store_files [f] cleaned_data d w
  = (Ok tt,
     setattr d (name f)
       (fst (proxy_replace (w_fs w) (getattr_proxy d (name f)) u (up_content_type u)
               (_get_unique_filename (w_fs w) (up_name u)))),
     set_fs w
       (snd (proxy_replace (w_fs w) (getattr_proxy d (name f)) u (up_content_type u)
               (_get_unique_filename (w_fs w) (up_name u))))).
Proof.
  intros H. cbn [store_files]. rewrite H.
  now destruct (proxy_replace _ _ _ _ _) as [field' fs'].
Qed.

Lemma assign_fields_one_file (cleaned_data : gmap string value)
    (fields exclude : option (list string)) (d : doc) (f : schema_field) :
  List.filter (fun g => takes cleaned_data fields exclude g && is_FileField g) (d_fields d)
  = [f] ->
  (forall g, In g (d_fields d) -> name g = name f ->
     takes cleaned_data fields exclude g = true -> is_FileField g = true) ->
  snd (assign_fields (d_fields d) cleaned_data fields exclude d []) = [f]
  /\ d_data (fst (assign_fields (d_fields d) cleaned_data fields exclude d [])) !! name f
     = d_data d !! name f.
Proof.
  intros Hone Hfile. split.
  - rewrite assign_fields_files. exact Hone.
  - rewrite assign_fields_data.
    replace (existsb _ (d_fields d)) with false; [reflexivity |].
    symmetry. apply not_true_is_false. intros E. apply existsb_exists in E.
    destruct E as (g & Hg & E). apply andb_true_iff in E. destruct E as [E Hn].
    apply andb_true_iff in E. destruct E as [E T]. apply String.eqb_eq in E.
    rewrite (Hfile g Hg E T) in Hn. discriminate.
Qed.

(** X23.  Constructing twice stores an upload twice, and the second copy
    never keeps the upload's name.  For an instance with no blob under a
    file field, when that field is the one file field a cleaned value is
    taken for and the value is an upload, the first call of
    [construct_instance] adds one blob to the store; a second call on the
    instance it returned, which is what [save] does after [_post_clean],
    takes that blob out again and adds another, whose file name is neither
    the name of the upload nor the name the first blob had. *)
Theorem second_construction_renames_upload (cleaned_data : gmap string value)
    (instance : instance_ref) (fields exclude : option (list string)) (w : world)
    (f : schema_field) (u : upload) :
  List.filter (fun g => takes cleaned_data fields exclude g && is_FileField g)
    (ref_fields instance) = [f] ->
  cleaned_data !! name f = Some (VUpload u) ->
  (forall g, In g (ref_fields instance) -> name g = name f ->
     takes cleaned_data fields exclude g = true -> is_FileField g = true) ->
  getattr_proxy (base_instance instance) (name f) = None ->
  exists obj1 w1 obj2 w2 n1 n2,
    construct_instance cleaned_data instance fields exclude w = (Ok tt, obj1, w1)
    /\ construct_instance cleaned_data (IObj obj1) fields exclude w1 = (Ok tt, obj2, w2)
    /\ map gf_filename (w_fs w1) = map gf_filename (w_fs w) ++ [n1]
    /\ map gf_filename (w_fs w2) = map gf_filename (w_fs w) ++ [n2]
    /\ n2 <> up_name u
    /\ n2 <> n1.
Proof.
  intros Hone Hu Hfile Hproxy.
  destruct (base_instance_fields instance) as [Hf _].
  set (b := base_instance instance) in *.
  rewrite <- Hf in Hone, Hfile.
  destruct (assign_fields_one_file cleaned_data fields exclude b f Hone Hfile)
    as [F1 D1].
  pose proof (assign_fields_shape cleaned_data fields exclude (d_fields b) b [])
    as [_ S1].
  set (n1 := _get_unique_filename (w_fs w) (up_name u)).
  set (fs1 := snd (fs_put (w_fs w) u (up_content_type u) n1)).
  set (i1 := fst (fs_put (w_fs w) u (up_content_type u) n1)).
  set (n2 := _get_unique_filename fs1 (up_name u)).
  assert (E1 : exists d1,
             construct_instance cleaned_data instance fields exclude w
             = (Ok tt, setattr d1 (name f) (VGridFS (Some i1)), set_fs w fs1)
             /\ d_fields d1 = d_fields b).
  { unfold construct_instance. fold (base_instance instance). fold b.
    destruct (assign_fields (d_fields b) cleaned_data fields exclude b []) as [d1 ffl].
    cbn [fst snd] in F1, D1, S1. subst ffl. exists d1. split; [| exact S1].
    rewrite (store_one_file cleaned_data f u d1 w Hu).
    assert (P : getattr_proxy d1 (name f) = None).
    { unfold getattr_proxy in *. now rewrite D1. }
    rewrite P. reflexivity. }
  destruct E1 as (d1 & E1 & Sd1).
  set (obj1 := setattr d1 (name f) (VGridFS (Some i1))) in *.
  assert (Sobj1 : d_fields obj1 = d_fields b) by exact Sd1.
  rewrite <- Sobj1 in Hone, Hfile.
  destruct (assign_fields_one_file cleaned_data fields exclude obj1 f Hone Hfile)
    as [F2 D2].
  assert (E2 : exists d2,
             construct_instance cleaned_data (IObj obj1) fields exclude (set_fs w fs1)
             = (Ok tt, d2,
                set_fs w (snd (fs_put (w_fs w) u (up_content_type u) n2)))).
  { unfold construct_instance.
    destruct (assign_fields (d_fields obj1) cleaned_data fields exclude obj1 [])
      as [d2 ffl].
    cbn [fst snd] in F2, D2. subst ffl. eexists.
    rewrite (store_one_file cleaned_data f u d2 (set_fs w fs1) Hu).
    assert (P : getattr_proxy d2 (name f) = Some i1).
    { unfold getattr_proxy. rewrite D2. unfold obj1. cbn [setattr d_data].
      now rewrite lookup_insert_eq. }
    rewrite P. cbn [set_fs w_fs]. fold n2. unfold proxy_replace.
    unfold fs1, i1. rewrite fs_delete_put.
    unfold fs_put. cbn [fst snd]. reflexivity. }
  destruct E2 as (d2 & E2).
  exists obj1, (set_fs w fs1), d2,
    (set_fs w (snd (fs_put (w_fs w) u (up_content_type u) n2))), n1, n2.
  split; [exact E1 |]. split; [exact E2 |].
  split; [unfold fs1, fs_put; cbn; now rewrite map_app |].
  split; [unfold fs_put; cbn; now rewrite map_app |].
  assert (Hn1 : fs_exists fs1 n1 = true).
  { apply In_fs_exists. unfold fs1, fs_put. cbn [snd]. rewrite map_app.
    apply in_or_app. right. now left. }
  assert (Hfresh : fs_exists fs1 n2 = false) by apply _get_unique_filename_fresh.
  split.
  - intros E.
    assert (Hex : fs_exists fs1 (up_name u) = true).
    { destruct (fs_exists (w_fs w) (up_name u)) eqn:X.
      - unfold fs1, fs_put. cbn [snd]. unfold fs_exists in *.
        rewrite existsb_app, X. reflexivity.
      - destruct (unique_filename_parts (w_fs w) (up_name u)) as (_ & Hfree & _).
        fold n1 in Hfree. rewrite <- (Hfree X). exact Hn1. }
    rewrite <- E in Hex. congruence.
  - intros E. rewrite E in Hfresh. congruence.
Qed.

Lemma second_construction_renames_upload_witness :
  exists obj1 w1 obj2 w2 n1 n2,
    construct_instance (f_cleaned_data rejected_report_form) (IClass Report) None None
      empty_world = (Ok tt, obj1, w1)
    /\ construct_instance (f_cleaned_data rejected_report_form) (IObj obj1) None None w1
       = (Ok tt, obj2, w2)
    /\ map gf_filename (w_fs w1) = [] ++ [n1]
    /\ map gf_filename (w_fs w2) = [] ++ [n2]
    /\ n2 <> "a.pdf"
    /\ n2 <> n1.
Proof.
  apply (second_construction_renames_upload (f_cleaned_data rejected_report_form)
           (IClass Report) None None empty_world attachment_field
           (Upload "a.pdf" "application/pdf" "%PDF")).
  - reflexivity.
  - reflexivity.
  - intros g [<- | [<- | [<- | []]]] E; try discriminate E. reflexivity.
  - reflexivity.
Defined.
